(** * quick-descriptive-stats: the CSV analysis pipeline of [analyze.py]

    A shallow embedding of
    [plugins/claude-workbench/skills/quick-descriptive-stats/analyze.py]
    and the properties its specification states about it.

    The pipeline is a thin orchestration over pandas, NumPy and matplotlib.
    What it calls of those libraries is modelled first, in the modules
    [NumPy], [Python], [Pandas] and [Matplotlib]: scalars and rounding,
    strings and exceptions, typed columns and frames with the kernels of
    [describe], [corr], [groupby] and [value_counts], figures and the files
    they are saved to.  What the libraries do outside the pipeline's control
    is a parameter: the content of the file system, the CSV reader, the
    date parser, the charting backend and the text renderings of numbers.
    The functions of [analyze.py] are embedded one by one in the module
    [Analyze], under their own names.

    Numbers are the ones the code has: counts are naturals (pandas returns
    non-negative [int64] counts), floating-point values are IEEE 754
    binary64 values, the kernel's primitive [float], so that NaN, the
    undefined value of pandas, is really there.  Frames are read with
    distinct column labels, as [read_csv] makes them.

    The libraries are modelled as the tests of the repository meet them:
    pandas 2, where a text column has the dtype [object]
    ([test_loading.py] asserts it, and [create_categorical_plots] selects
    on it) and where [corr] returns each quotient as it comes; its
    reductions in plain NumPy, without the optional [bottleneck], so that
    a sum is NumPy's pairwise sum and the mean of a group is the
    compensated sum of [groupby]; and paths as [pathlib] reads them on
    POSIX. *)

From Stdlib Require Import List String Ascii Bool Arith ZArith Lia.
From Stdlib Require Import Floats.
From Stdlib Require Uint63 DecimalString.
From Stdlib Require Import Sorting.Sorted Sorting.Permutation.
Import ListNotations.

Local Open Scope string_scope.
Local Open Scope list_scope.

(** A decimal literal stands for the nearest binary64 value, as in Python. *)
Set Warnings "-inexact-float".

(** ** NumPy scalars *)

Module NumPy.

(** An [int64] count read as a [float64]: what [np.int64 / int] does to its
    operands before it divides. *)
Definition float_of_nat (n : nat) : float :=
  PrimFloat.of_uint63 (Uint63.of_Z (Z.of_nat n)).

(** An [int64] cell: the integer between [-2 ** 63] and [2 ** 63 - 1] that
    the 64 bits of [z] spell (an integer in that range is its own cell). *)
Definition int64 (z : Z) : Z := ((z + 2 ^ 63) mod 2 ^ 64 - 2 ^ 63)%Z.

(** [astype(float64)] of an [int64] cell: the nearest binary64 value, ties
    to even.  The least cell, [-2 ** 63], has no opposite among the cells
    and is a binary64 value as it is. *)
Definition float_of_Z (z : Z) : float :=
  let i := int64 z in
  if (i =? - 2 ^ 63)%Z then (-9223372036854775808)%float
  else if (i <? 0)%Z
       then PrimFloat.opp (PrimFloat.of_uint63 (Uint63.of_Z (- i)))
       else PrimFloat.of_uint63 (Uint63.of_Z i).

(** [2 ** 52]: from here on every binary64 value is an integer. *)
Definition two52 : float := 4503599627370496%float.

(** [np.rint]: the nearest integer, ties to even; NaN, the infinities and
    the values that are integers already are returned as they are, and a
    zero result keeps the sign of the argument. *)
Definition rint (x : float) : float :=
  if (PrimFloat.abs x <? two52)%float then
    let r := if (x <? 0)%float
             then ((x - two52) + two52)%float
             else ((x + two52) - two52)%float in
    if (r =? 0)%float
    then (if PrimFloat.get_sign x then PrimFloat.neg_zero else PrimFloat.zero)
    else r
  else x.

Fixpoint pow10 (d : nat) : float :=
  match d with
  | O => 1%float
  | S d' => (pow10 d' * 10)%float
  end.

(** [round(x, ndigits)] on a [np.float64] with [ndigits >= 0]: NumPy scales
    by [10 ** ndigits], rounds to the nearest integer and scales back.
    On the Python float [0.0] the built-in [round] gives [0.0] as well. *)
Definition round (x : float) (ndigits : nat) : float :=
  (rint (x * pow10 ndigits) / pow10 ndigits)%float.

(** *** Sums: [np.add.reduce] on [float64]

    NumPy does not add the cells of an array from left to right.  Fewer
    than 8 cells are added in a plain loop that starts at [0.0].  Up to
    128 cells are added in 8 lanes, cell [i] into lane [i mod 8]; the lanes
    are then added in pairs, and the cells left over after the last full
    group of 8 are added one by one.  More than 128 cells are split in
    two, the first part a multiple of 8 long, and the two sums are added.
    The result of the reduction starts at [0.0], the identity of [add];
    only the sign of a sum that is a zero depends on that start (recent
    versions of NumPy start at [-0.0]), and [==] does not see it. *)

Fixpoint add_lanes (r a : list float) : list float :=
  match r, a with
  | x :: r', y :: a' => (x + y)%float :: add_lanes r' a'
  | _, _ => r
  end.

(** The loop over the full groups of 8 that follow the first: the lanes
    after it, and the cells left over. *)
Fixpoint lanes8 (fuel : nat) (r l : list float) : list float * list float :=
  match fuel with
  | O => (r, l)
  | S fuel' =>
      if (8 <=? List.length l)%nat
      then lanes8 fuel' (add_lanes r (firstn 8 l)) (skipn 8 l)
      else (r, l)
  end.

Definition tree8 (r : list float) : float :=
  match r with
  | [r0; r1; r2; r3; r4; r5; r6; r7] =>
      (((r0 + r1) + (r2 + r3)) + ((r4 + r5) + (r6 + r7)))%float
  | _ => fold_left PrimFloat.add r 0%float
  end.

(** From 8 to 128 cells. *)
Definition block_sum (l : list float) : float :=
  let '(r, rest) := lanes8 (List.length l) (firstn 8 l) (skipn 8 l) in
  fold_left PrimFloat.add rest (tree8 r).

(** [pairwise_sum]: the recursion halves the array, so a fuel of the
    length of the array is never used up. *)
Fixpoint pairwise_sum (fuel : nat) (l : list float) : float :=
  let n := List.length l in
  if (n <? 8)%nat then fold_left PrimFloat.add l 0%float
  else if (n <=? 128)%nat then block_sum l
  else match fuel with
       | O => block_sum l
       | S fuel' =>
           let n2 := (n / 2 - (n / 2) mod 8)%nat in
           (pairwise_sum fuel' (firstn n2 l)
            + pairwise_sum fuel' (skipn n2 l))%float
       end.

(** [a.sum()] of a contiguous [float64] array. *)
Definition np_sum (l : list float) : float :=
  (0 + pairwise_sum (List.length l) l)%float.

(** [a.sum(dtype=float64)] of an [int64] array, given as the cells cast to
    [float64]: the cast goes through NumPy's buffer, 8192 cells at a time,
    and each buffer is added to the result on its own. *)
Definition BUFSIZE : nat := 2 ^ 13.

Fixpoint buffers (fuel : nat) (l : list float) : list (list float) :=
  match fuel, l with
  | _, [] => []
  | O, _ => [l]
  | S fuel', _ => firstn BUFSIZE l :: buffers fuel' (skipn BUFSIZE l)
  end.

Definition np_sum_cast (l : list float) : float :=
  fold_left
    (fun acc buffer => (acc + pairwise_sum (List.length buffer) buffer)%float)
    (buffers (List.length l) l) 0%float.

(** The equality a Python test of two statistics sees: [==] on numbers, with
    the undefined value equal to itself only as "both undefined". *)
Definition same_float (x y : float) : bool :=
  (PrimFloat.is_nan x && PrimFloat.is_nan y) || (x =? y)%float.

End NumPy.

(** ** Python strings, exceptions and the world outside *)

Module Python.

Definition lower_ascii (c : ascii) : ascii :=
  let n := nat_of_ascii c in
  if ((65 <=? n) && (n <=? 90))%nat then ascii_of_nat (n + 32) else c.

(** [s.lower()], on the ASCII letters. *)
Fixpoint lower (s : string) : string :=
  match s with
  | EmptyString => EmptyString
  | String c s' => String (lower_ascii c) (lower s')
  end.

(** [sub in s]: [sub] occurs in [s] as a run of consecutive characters. *)
Fixpoint contains (sub s : string) : bool :=
  String.prefix sub s ||
  match s with
  | EmptyString => false
  | String _ s' => contains sub s'
  end.

(** What stands between the slashes of a path, [cur] being what was read
    since the last slash. *)
Fixpoint path_components (cur p : string) : list string :=
  match p with
  | EmptyString => [cur]
  | String c p' =>
      if Ascii.eqb c "/"%char then cur :: path_components EmptyString p'
      else path_components (cur ++ String c EmptyString) p'
  end.

(** The parts of a POSIX path as [pathlib] keeps them: it drops what is
    empty (a doubled or a trailing slash) and the single dots. *)
Definition path_parts (p : string) : list string :=
  filter (fun x => negb (String.eqb x "" || String.eqb x "."))
         (path_components EmptyString p).

(** [Path(p).name]: the last part, or the empty string when there is
    none. *)
Definition basename (p : string) : string := last (path_parts p) EmptyString.

(** The exceptions the pipeline raises or lets through.  [RenderError]
    stands for whatever the charting backend raises. *)
Inductive exn : Type :=
| FileNotFoundError (msg : string)
| ValueError (msg : string)
| RenderError (msg : string).

Inductive result (A : Type) : Type :=
| Ok (a : A)
| Raise (e : exn).
Arguments Ok {A} a.
Arguments Raise {A} e.

(** The files the loader can see: the content of a path, if it exists. *)
Definition FileSystem : Type := string -> option string.

End Python.

(** ** pandas: series and frames *)

Module Pandas.

(** A column as [read_csv] types it.  An [int64] column holds no null; in a
    [float64] column the null is NaN; in an [object] column a cell is a
    string or the null; a [datetime64] column (made by [to_datetime]) holds
    nanoseconds since the epoch or NaT. *)
Inductive Series : Type :=
| Int64 (v : list Z)
| Float64 (v : list float)
| Boolean (v : list bool)
| Object (v : list (option string))
| Datetime64 (v : list (option Z)).

Definition series_len (s : Series) : nat :=
  match s with
  | Int64 v => List.length v
  | Float64 v => List.length v
  | Boolean v => List.length v
  | Object v => List.length v
  | Datetime64 v => List.length v
  end.

Definition is_none {A} (o : option A) : bool :=
  match o with None => true | Some _ => false end.

(** [s.isnull()], one flag per cell. *)
Definition isnull (s : Series) : list bool :=
  match s with
  | Int64 v => map (fun _ => false) v
  | Float64 v => map PrimFloat.is_nan v
  | Boolean v => map (fun _ => false) v
  | Object v => map is_none v
  | Datetime64 v => map is_none v
  end.

(** [flags.sum()]: the number of [True]. *)
Definition count_true (l : list bool) : nat :=
  List.length (filter (fun b => b) l).

(** [s.isnull().sum()]. *)
Definition null_count (s : Series) : nat := count_true (isnull s).

(** [select_dtypes(include="number")] keeps the integer and floating
    columns; booleans, objects and datetimes are not numbers. *)
Definition is_number (s : Series) : bool :=
  match s with
  | Int64 _ | Float64 _ => true
  | _ => false
  end.

(** [select_dtypes(include=["object"])]. *)
Definition is_object (s : Series) : bool :=
  match s with
  | Object _ => true
  | _ => false
  end.

(** A frame: its index length ([df.shape[0]], [len(df)]) and its columns in
    order, each with its label. *)
Record DataFrame : Type := mkDataFrame {
  nrows : nat;
  columns : list (string * Series)
}.

Definition labels (df : DataFrame) : list string := map fst (columns df).
Definition ncols (df : DataFrame) : nat := List.length (columns df).

(** The labels are pairwise distinct, as [read_csv] makes them (a repeated
    header is renamed [x.1], [x.2], ...).  With a repeated label [df[col]]
    is a frame and not a series, so the functions below are read on frames
    with distinct labels. *)
Definition unique_labels (df : DataFrame) : Prop := NoDup (labels df).

Fixpoint assoc {A} (k : string) (l : list (string * A)) : option A :=
  match l with
  | [] => None
  | (k', a) :: l' => if String.eqb k k' then Some a else assoc k l'
  end.

(** [df[col]] for one label. *)
Definition getitem (df : DataFrame) (col : string) : option Series :=
  assoc col (columns df).

(** [df.select_dtypes(include="number").columns.tolist()]. *)
Definition numeric_columns (df : DataFrame) : list string :=
  map fst (filter (fun c => is_number (snd c)) (columns df)).

(** [df.select_dtypes(include=["object"]).columns.tolist()]. *)
Definition object_columns (df : DataFrame) : list string :=
  map fst (filter (fun c => is_object (snd c)) (columns df)).

(** [df.isnull().sum()]: the null count of every column, in order. *)
Definition null_counts (df : DataFrame) : list nat :=
  map (fun c => null_count (snd c)) (columns df).

(** A Python [dict] with string keys: insertion ordered, an assignment to a
    key that is there replaces its value in place. *)
Fixpoint dict_set {A} (d : list (string * A)) (k : string) (a : A)
  : list (string * A) :=
  match d with
  | [] => [(k, a)]
  | (k', a') :: d' =>
      if String.eqb k k' then (k', a) :: d' else (k', a') :: dict_set d' k a
  end.

Definition keys {A} (d : list (string * A)) : list string := map fst d.

(** [df[cols]] for a list of labels: the sub-frame of those columns, in the
    order of the list. *)
Definition getitems (df : DataFrame) (cols : list string) : DataFrame :=
  {| nrows := nrows df;
     columns :=
       flat_map (fun l => match getitem df l with
                          | Some s => [(l, s)]
                          | None => []
                          end) cols |}.

(** [df_copy[col] = s]: the column of that label is replaced, in place. *)
Definition setitem (df : DataFrame) (col : string) (s : Series) : DataFrame :=
  {| nrows := nrows df;
     columns :=
       map (fun c => if String.eqb col (fst c) then (fst c, s) else c)
           (columns df) |}.

(** *** Numeric kernels *)

(** The cells of a numeric column as [float64], its nulls as NaN. *)
Definition to_floats (s : Series) : list float :=
  match s with
  | Int64 v => map NumPy.float_of_Z v
  | Float64 v => v
  | _ => []
  end.

(** The non-null cells of a numeric column: what every statistic of
    [describe] is computed over. *)
Definition valid_values (s : Series) : list float :=
  filter (fun x => negb (PrimFloat.is_nan x)) (to_floats s).

(** The number of cells that are not null. *)
Definition notnull_count (s : Series) : nat := series_len s - null_count s.

(** A float array with its nulls put to [0.0], as [nanops] sums it. *)
Definition fillna0 (l : list float) : list float :=
  map (fun x => if PrimFloat.is_nan x then 0%float else x) l.

(** The sum behind [mean()]: [values.sum(dtype=float64)].  An [int64]
    column has no null and is cast while it is summed; a float column is
    summed with its nulls at [0.0]. *)
Definition nansum (s : Series) : float :=
  match s with
  | Int64 v => NumPy.np_sum_cast (map NumPy.float_of_Z v)
  | _ => NumPy.np_sum (fillna0 (to_floats s))
  end.

(** [nanops.nanmean] (without the optional [bottleneck]): the sum over the
    count, NaN when nothing is counted. *)
Definition nanmean (s : Series) : float :=
  let count := notnull_count s in
  if (0 <? count)%nat then (nansum s / NumPy.float_of_nat count)%float
  else PrimFloat.nan.

(** The values and the squared deviations [nanops.nanvar] sums: an
    [int64] column is cast first, [astype("f8")]; in a float column the
    nulls are put to [0.0], in the values and again in the squares. *)
Definition var_values (s : Series) : list float :=
  match s with
  | Int64 v => map NumPy.float_of_Z v
  | _ => fillna0 (to_floats s)
  end.

Definition var_squares (avg : float) (s : Series) : list float :=
  match s with
  | Int64 v =>
      map (fun x => ((avg - x) * (avg - x))%float) (map NumPy.float_of_Z v)
  | _ =>
      map (fun x => if PrimFloat.is_nan x then 0%float
                    else ((avg - x) * (avg - x))%float) (to_floats s)
  end.

(** [nanops.nanvar] with [ddof], in two passes: when [count <= ddof] both
    the count and the divisor [count - ddof] are set to NaN before anything
    is divided. *)
Definition nanvar (ddof : nat) (s : Series) : float :=
  let count := notnull_count s in
  let '(cnt, d) :=
    if (count <=? ddof)%nat then (PrimFloat.nan, PrimFloat.nan)
    else (NumPy.float_of_nat count, NumPy.float_of_nat (count - ddof)) in
  let avg := (NumPy.np_sum (var_values s) / cnt)%float in
  (NumPy.np_sum (var_squares avg s) / d)%float.

(** [Series.std()]: the sample standard deviation, [ddof=1]. *)
Definition nanstd (s : Series) : float :=
  PrimFloat.sqrt (nanvar 1 s).

Definition fmin (a b : float) : float := if (b <? a)%float then b else a.
Definition fmax (a b : float) : float := if (a <? b)%float then b else a.

(** [nanops.nanmin], [nanops.nanmax]: NaN when nothing is left. *)
Definition nanmin (vals : list float) : float :=
  match vals with
  | [] => PrimFloat.nan
  | v :: vs => fold_left fmin vs v
  end.

Definition nanmax (vals : list float) : float :=
  match vals with
  | [] => PrimFloat.nan
  | v :: vs => fold_left fmax vs v
  end.

Fixpoint insert_sorted (x : float) (l : list float) : list float :=
  match l with
  | [] => [x]
  | y :: l' => if (x <=? y)%float then x :: l else y :: insert_sorted x l'
  end.

Definition sort_floats (l : list float) : list float :=
  fold_right insert_sorted [] l.

(** NumPy's [_lerp]: the interpolation between two neighbours. *)
Definition lerp (a b t : float) : float :=
  let diff := (b - a)%float in
  if (t <? 0.5)%float then (a + diff * t)%float
  else (b - diff * (1 - t))%float.

(** [Series.quantile(k/4)], linear interpolation: the virtual index
    [k/4 * (n-1)] is split in its integer part and its fraction, which is a
    multiple of a quarter. NaN when nothing is left. *)
Definition quantile4 (k : nat) (vals : list float) : float :=
  match vals with
  | [] => PrimFloat.nan
  | _ =>
      let sorted := sort_floats vals in
      let n := List.length sorted in
      let pos := (k * (n - 1))%nat in
      let lo := (pos / 4)%nat in
      let hi := Nat.min (lo + 1) (n - 1) in
      let gamma := (NumPy.float_of_nat (pos mod 4) / 4)%float in
      lerp (nth lo sorted PrimFloat.nan) (nth hi sorted PrimFloat.nan) gamma
  end.

(** [Series.describe()] of a numeric column. *)
Record Description : Type := mkDescription {
  d_count : nat;
  d_mean : float;
  d_std : float;
  d_min : float;
  d_25 : float;
  d_50 : float;
  d_75 : float;
  d_max : float
}.

Definition describe (s : Series) : Description :=
  let vals := valid_values s in
  {| d_count := List.length vals;
     d_mean := nanmean s;
     d_std := nanstd s;
     d_min := nanmin vals;
     d_25 := quantile4 1 vals;
     d_50 := quantile4 2 vals;
     d_75 := quantile4 3 vals;
     d_max := nanmax vals |}.

(** *** Pearson correlation: [DataFrame.corr()] *)

(** The accumulators of [algos.nancorr] for one pair of columns. *)
Record Welford : Type := mkWelford {
  nobs : nat;
  meanx : float;
  meany : float;
  ssqdm_x : float;
  ssqdm_y : float;
  covxy : float
}.

Definition welford_init : Welford :=
  {| nobs := 0; meanx := 0; meany := 0;
     ssqdm_x := 0; ssqdm_y := 0; covxy := 0 |}.

(** One row: it is counted when both cells are finite. *)
Definition welford_step (st : Welford) (row : float * float) : Welford :=
  let '(vx, vy) := row in
  if PrimFloat.is_finite vx && PrimFloat.is_finite vy then
    let n := S (nobs st) in
    let dx := (vx - meanx st)%float in
    let dy := (vy - meany st)%float in
    let mx := (meanx st + 1 / NumPy.float_of_nat n * dx)%float in
    let my := (meany st + 1 / NumPy.float_of_nat n * dy)%float in
    {| nobs := n; meanx := mx; meany := my;
       ssqdm_x := (ssqdm_x st + (vx - mx) * dx)%float;
       ssqdm_y := (ssqdm_y st + (vy - my) * dy)%float;
       covxy := (covxy st + (vx - mx) * dy)%float |}
  else st.

Definition welford (x y : list float) : Welford :=
  fold_left welford_step (combine x y) welford_init.

(** The coefficient of one pair: NaN when no row is counted or when the
    divisor is zero, the quotient otherwise, as it comes (pandas 2 does
    not cut it back to [-1, 1]). *)
Definition nancorr_pair (x y : list float) : float :=
  let st := welford x y in
  if (nobs st <? 1)%nat then PrimFloat.nan
  else
    let divisor := PrimFloat.sqrt (ssqdm_x st * ssqdm_y st) in
    if negb (divisor =? 0)%float then (covxy st / divisor)%float
    else PrimFloat.nan.

(** The matrix is filled for [yi <= xi] and each value is written to
    [result[xi, yi]] and to [result[yi, xi]]. *)
Definition corr_entry (cols : list (list float)) (i j : nat) : float :=
  nancorr_pair (nth (Nat.max i j) cols []) (nth (Nat.min i j) cols []).

Record CorrMatrix : Type := mkCorrMatrix {
  corr_index : list string;
  corr_values : list (list float)
}.

Definition corr (df : DataFrame) : CorrMatrix :=
  let cols := map (fun c => to_floats (snd c)) (columns df) in
  let K := List.length cols in
  {| corr_index := labels df;
     corr_values :=
       map (fun i => map (fun j => corr_entry cols i j) (seq 0 K)) (seq 0 K) |}.

(** [m.loc[a, b]] by position. *)
Definition corr_at (m : CorrMatrix) (i j : nat) : float :=
  nth j (nth i (corr_values m) []) PrimFloat.nan.

(** *** Dates: [to_datetime] and [groupby] *)

(** One cell of a column, as [to_datetime] meets it. *)
Inductive Cell : Type :=
| IntCell (z : Z)
| FloatCell (x : float)
| BoolCell (b : bool)
| StrCell (s : string)
| TimeCell (ns : Z)
| NullCell.

Definition cells (s : Series) : list Cell :=
  match s with
  | Int64 v => map IntCell v
  | Float64 v =>
      map (fun x => if PrimFloat.is_nan x then NullCell else FloatCell x) v
  | Boolean v => map BoolCell v
  | Object v =>
      map (fun o => match o with Some t => StrCell t | None => NullCell end) v
  | Datetime64 v =>
      map (fun o => match o with Some t => TimeCell t | None => NullCell end) v
  end.

(** [pd.to_datetime(s, errors="coerce")]: every cell goes through the
    date parser, and a cell it cannot read becomes NaT.  A null stays
    null and a timestamp stays what it is. *)
Definition coerce_datetime (parse : Cell -> option Z) (c : Cell) : option Z :=
  match c with
  | NullCell => None
  | TimeCell t => Some t
  | _ => parse c
  end.

Definition to_datetime (parse : Cell -> option Z) (s : Series) : Series :=
  Datetime64 (map (coerce_datetime parse) (cells s)).

Fixpoint insert_key (k : Z) (l : list Z) : list Z :=
  match l with
  | [] => [k]
  | k' :: l' =>
      if (k <? k')%Z then k :: l
      else if (k =? k')%Z then l
      else k' :: insert_key k l'
  end.

Fixpoint some_values {A} (l : list (option A)) : list A :=
  match l with
  | [] => []
  | Some a :: l' => a :: some_values l'
  | None :: l' => some_values l'
  end.

(** The group keys of [groupby(col)]: the distinct non-null values of the
    column, ascending ([sort=True], [dropna=True]). *)
Definition group_keys (dates : list (option Z)) : list Z :=
  fold_right insert_key [] (some_values dates).

(** The cells of [vals] in the rows whose key is [k]. *)
Definition group_rows (dates : list (option Z)) (vals : list float) (k : Z)
  : list float :=
  map snd
    (filter (fun r => match fst r with
                      | Some d => (d =? k)%Z
                      | None => false
                      end) (combine dates vals)).

(** One value into the compensated sum of [group_mean]: the sum so far
    and the error it carries.  An error that is NaN, as after an infinite
    value, is put back to [0.0]. *)
Definition kahan_step (st : float * float) (val : float) : float * float :=
  let '(sumx, compensation) := st in
  let y := (val - compensation)%float in
  let t := (sumx + y)%float in
  let c := (t - sumx - y)%float in
  (t, if PrimFloat.is_nan c then 0%float else c).

(** The mean [libgroupby.group_mean] gives for the non-null values of a
    group, in row order: their compensated sum over their number, NaN
    when there is none. *)
Definition kahan_mean (xs : list float) : float :=
  match xs with
  | [] => PrimFloat.nan
  | _ => (fst (fold_left kahan_step xs (0, 0)%float)
          / NumPy.float_of_nat (List.length xs))%float
  end.

(** [groupby(col)[num].agg("mean")] at one key: the mean of the non-null
    cells of the group. *)
Definition group_mean (dates : list (option Z)) (vals : list float) (k : Z)
  : float :=
  kahan_mean (filter (fun x => negb (PrimFloat.is_nan x)) (group_rows dates vals k)).

(** [df.groupby(date_col)[num_col].agg(...)["mean"]]: one point per key,
    in the order of the keys. *)
Definition groupby_mean (df : DataFrame) (date_col num_col : string)
  : list (Z * float) :=
  match getitem df date_col, getitem df num_col with
  | Some (Datetime64 dates), Some s =>
      map (fun k => (k, group_mean dates (to_floats s) k)) (group_keys dates)
  | _, _ => []
  end.

(** *** [value_counts] *)

Fixpoint tally_add (v : string) (t : list (string * nat))
  : list (string * nat) :=
  match t with
  | [] => [(v, 1)]
  | (v', n) :: t' =>
      if String.eqb v v' then (v', S n) :: t' else (v', n) :: tally_add v t'
  end.

(** The distinct values with their number of occurrences, in the order in
    which they first appear. *)
Definition tally (vals : list string) : list (string * nat) :=
  fold_left (fun t v => tally_add v t) vals [].

Fixpoint insert_desc (x : string * nat) (l : list (string * nat))
  : list (string * nat) :=
  match l with
  | [] => [x]
  | y :: l' =>
      if (snd y <=? snd x)%nat then x :: l else y :: insert_desc x l'
  end.

Definition sort_desc (l : list (string * nat)) : list (string * nat) :=
  fold_right insert_desc [] l.

(** [s.value_counts()] of an object column: the non-null values with their
    counts, the most frequent first; values that are equally frequent are
    left in the order in which they first appear. *)
Definition value_counts (s : Series) : list (string * nat) :=
  match s with
  | Object v => sort_desc (tally (some_values v))
  | _ => []
  end.

End Pandas.

(** ** matplotlib: figures and the files they are saved to *)

Module Matplotlib.
Import Python Pandas.

(** What has been drawn on one subplot. *)
Inductive Plot : Type :=
| NoPlot
| Heatmap (m : CorrMatrix)
| Line (points : list (Z * float))
| Hist (data : list float) (bins : nat)
| Barh (bars : list (string * nat)).

Record Axes : Type := mkAxes {
  plot : Plot;
  title : string;
  xlabel : string;
  ylabel : string;
  visible : bool
}.

(** A subplot as [plt.subplots] hands it out. *)
Definition blank_axes : Axes :=
  {| plot := NoPlot; title := ""; xlabel := ""; ylabel := ""; visible := true |}.

Definition set_visible (a : Axes) (b : bool) : Axes :=
  {| plot := plot a; title := title a; xlabel := xlabel a;
     ylabel := ylabel a; visible := b |}.

Record Figure : Type := mkFigure {
  fig_rows : nat;
  fig_cols : nat;
  fig_axes : list Axes
}.

(** [plt.subplots(r, c)], the grid flattened row by row. *)
Definition subplots (r c : nat) : Figure :=
  {| fig_rows := r; fig_cols := c; fig_axes := repeat blank_axes (r * c) |}.

(** [axes[idx] = a] on a list; the pipeline only writes inside the grid. *)
Fixpoint set_at {A} (l : list A) (idx : nat) (a : A) : list A :=
  match l, idx with
  | [], _ => []
  | _ :: l', O => a :: l'
  | x :: l', S i => x :: set_at l' i a
  end.

(** [enumerate(l)]. *)
Definition enumerate {A} (l : list A) : list (nat * A) :=
  combine (seq 0 (List.length l)) l.

(** The output directory: the files written so far, the latest first. *)
Definition World : Type := list (string * Figure).

(** A computation that may write files and may raise. *)
Definition M (A : Type) : Type := World -> result A * World.

Definition ret {A} (a : A) : M A := fun w => (Ok a, w).

Definition bind {A B} (m : M A) (k : A -> M B) : M B :=
  fun w =>
    match m w with
    | (Ok a, w') => k a w'
    | (Raise e, w') => (Raise e, w')
    end.

Definition lift {A} (r : result A) : M A := fun w => (r, w).

(** [plt.savefig(path)]: the backend renders the figure and writes the
    file, or raises and writes nothing. *)
Definition savefig (backend : Figure -> string -> option exn)
    (fig : Figure) (path : string) : M unit :=
  fun w =>
    match backend fig path with
    | Some e => (Raise e, w)
    | None => (Ok tt, (path, fig) :: w)
    end.

End Matplotlib.

Notation "x <- m ;; k" := (Matplotlib.bind m (fun x => k))
  (at level 61, m at next level, right associativity).
Notation "m ;;; k" := (Matplotlib.bind m (fun _ => k))
  (at level 61, right associativity).

(** ** analyze.py *)

Module Analyze.
Import Python NumPy Pandas Matplotlib.

Definition DEFAULT_BINS : nat := 30.
Definition MAX_CATEGORIES_DISPLAY : nat := 10.
Definition MAX_CATEGORICAL_PLOTS : nat := 4.
Definition MAX_NUMERIC_PLOTS : nat := 4.
Definition MAX_TIMESERIES_PLOTS : nat := 3.

(** *** analyze_data_quality *)

Record MissingInfo : Type := mkMissingInfo {
  count : nat;
  percentage : float
}.

Record QualityReport : Type := mkQualityReport {
  total_missing : nat;
  missing_percentage : float;
  is_complete : bool;
  missing_by_column : list (string * MissingInfo)
}.

(** One turn of the loop [for col in df.columns]. *)
Definition quality_step (df : DataFrame)
    (d : list (string * MissingInfo)) (col : string)
  : list (string * MissingInfo) :=
  match getitem df col with
  | Some s =>
      let col_missing := null_count s in
      if (0 <? col_missing)%nat then
        let col_pct :=
          (float_of_nat col_missing / float_of_nat (nrows df) * 100)%float in
        dict_set d col
          {| count := col_missing; percentage := NumPy.round col_pct 1 |}
      else d
  | None => d
  end.

Definition analyze_data_quality (df : DataFrame) : QualityReport :=
  let total_cells := (nrows df * ncols df)%nat in
  let total_missing := list_sum (null_counts df) in
  let missing_percentage :=
    if (0 <? total_cells)%nat
    then (float_of_nat total_missing / float_of_nat total_cells * 100)%float
    else 0%float in
  let missing_by_column := fold_left (quality_step df) (labels df) [] in
  {| total_missing := total_missing;
     missing_percentage := NumPy.round missing_percentage 2;
     is_complete := (total_missing =? 0)%nat;
     missing_by_column := missing_by_column |}.

(** *** load_csv *)

(** What [pd.read_csv] does with the content of a file: a frame, the
    [EmptyDataError] it raises when there is no column to parse, or any
    other exception, with its text. *)
Inductive ReadResult : Type :=
| Parsed (df : DataFrame)
| EmptyDataError
| ParseFailure (msg : string).

Section Loader.

Variable read_csv : string -> ReadResult.
Variable fs : FileSystem.

Definition load_csv (file_path : string) : result DataFrame :=
  match fs file_path with
  | None => Raise (FileNotFoundError ("CSV file not found: " ++ file_path))
  | Some content =>
      if (String.length content =? 0)%nat
      then Raise (ValueError "CSV file is empty")
      else
        match read_csv content with
        | Parsed df => Ok df
        | EmptyDataError => Raise (ValueError "CSV file is empty")
        | ParseFailure e =>
            Raise (ValueError ("Failed to parse CSV file: " ++ e))
        end
  end.

End Loader.

(** *** compute_statistics *)

Record Stats : Type := mkStats {
  s_mean : float;
  s_std : float;
  s_min : float;
  s_25 : float;
  s_50 : float;
  s_75 : float;
  s_max : float
}.

Definition stats_of (desc : Description) : Stats :=
  {| s_mean := NumPy.round (d_mean desc) 2;
     s_std := NumPy.round (d_std desc) 2;
     s_min := NumPy.round (d_min desc) 2;
     s_25 := NumPy.round (d_25 desc) 2;
     s_50 := NumPy.round (d_50 desc) 2;
     s_75 := NumPy.round (d_75 desc) 2;
     s_max := NumPy.round (d_max desc) 2 |}.

(** One turn of the loop [for col in numeric_cols]. *)
Definition stats_step (df : DataFrame)
    (stats : list (string * Stats)) (col : string) : list (string * Stats) :=
  match getitem df col with
  | Some s => dict_set stats col (stats_of (describe s))
  | None => stats
  end.

Definition compute_statistics (df : DataFrame) : list (string * Stats) :=
  let numeric_cols := numeric_columns df in
  match numeric_cols with
  | [] => []
  | _ => fold_left (stats_step df) numeric_cols []
  end.

(** *** analyze_correlations *)

Definition analyze_correlations (df : DataFrame) : option CorrMatrix :=
  let numeric_cols := numeric_columns df in
  if (List.length numeric_cols <? 2)%nat then None
  else Some (corr (getitems df numeric_cols)).

(** *** The four chart branches *)

Section Charts.

(** The charting backend: for a figure and a path, the exception it raises,
    if it raises one. *)
Variable backend : Figure -> string -> option exn.

(** The date parser behind [pd.to_datetime]: the timestamp of a cell, if
    the cell reads as one. *)
Variable parse_datetime : Cell -> option Z.

Definition heatmap_figure (corr_matrix : CorrMatrix) : Figure :=
  {| fig_rows := 1; fig_cols := 1;
     fig_axes := [ {| plot := Heatmap corr_matrix;
                      title := "Correlation Heatmap";
                      xlabel := ""; ylabel := ""; visible := true |} ] |}.

Definition create_correlation_heatmap
    (corr_matrix : CorrMatrix) (output_path : string) : M unit :=
  savefig backend (heatmap_figure corr_matrix) output_path.

(** [date_cols]: the labels that contain "date" or "time", whatever their
    case. *)
Definition date_columns (df : DataFrame) : list string :=
  filter (fun c => contains "date" (lower c) || contains "time" (lower c))
         (labels df).

(** [df_copy], after [df_copy[date_col] = pd.to_datetime(...)]. *)
Definition with_parsed_dates (df : DataFrame) (date_col : string) : DataFrame :=
  match getitem df date_col with
  | Some s => setitem df date_col (to_datetime parse_datetime s)
  | None => df
  end.

(** The subplot drawn in one turn of the loop over [numeric_cols[:n_plots]]. *)
Definition time_series_axes (df_copy : DataFrame) (date_col num_col : string)
  : Axes :=
  {| plot := Line (groupby_mean df_copy date_col num_col);
     title := (num_col ++ " Over Time")%string;
     xlabel := "Date"; ylabel := num_col; visible := true |}.

Definition time_series_figure (df_copy : DataFrame) (date_col : string)
    (numeric_cols : list string) : Figure :=
  let n_plots := Nat.min MAX_TIMESERIES_PLOTS (List.length numeric_cols) in
  let fig := subplots n_plots 1 in
  {| fig_rows := fig_rows fig; fig_cols := fig_cols fig;
     fig_axes :=
       fold_left
         (fun axes ic =>
            set_at axes (fst ic) (time_series_axes df_copy date_col (snd ic)))
         (enumerate (firstn n_plots numeric_cols))
         (fig_axes fig) |}.

Definition create_time_series_plots (df : DataFrame) (output_dir : string)
  : M (list string) :=
  match date_columns df with
  | [] => ret []
  | date_col :: _ =>
      let df_copy := with_parsed_dates df date_col in
      let numeric_cols := numeric_columns df_copy in
      match numeric_cols with
      | [] => ret []
      | _ =>
          let output_path := (output_dir ++ "/time_series_analysis.png")%string in
          savefig backend (time_series_figure df_copy date_col numeric_cols)
                  output_path ;;;
          ret [output_path]
      end
  end.

(** The histogram drawn in one turn of the loop over [numeric_cols[:n_cols]]:
    the non-null cells of the column, [df[col].dropna()]. *)
Definition distribution_axes (df : DataFrame) (col : string) : Axes :=
  {| plot := Hist (match getitem df col with
                   | Some s => valid_values s
                   | None => []
                   end) DEFAULT_BINS;
     title := ("Distribution of " ++ col)%string;
     xlabel := col; ylabel := "Frequency"; visible := true |}.

(** [for idx in range(n_cols, 4): axes[idx].set_visible(False)]. *)
Definition hide_unused (n_cols : nat) (axes : list Axes) : list Axes :=
  fold_left
    (fun axes idx => set_at axes idx (set_visible (nth idx axes blank_axes) false))
    (seq n_cols (4 - n_cols)) axes.

Definition distribution_figure (df : DataFrame) (numeric_cols : list string)
  : Figure :=
  let n_cols := Nat.min MAX_NUMERIC_PLOTS (List.length numeric_cols) in
  let fig := subplots 2 2 in
  let axes :=
    fold_left
      (fun axes ic => set_at axes (fst ic) (distribution_axes df (snd ic)))
      (enumerate (firstn n_cols numeric_cols))
      (fig_axes fig) in
  {| fig_rows := fig_rows fig; fig_cols := fig_cols fig;
     fig_axes := hide_unused n_cols axes |}.

Definition create_distribution_plots (df : DataFrame) (output_dir : string)
  : M (list string) :=
  let numeric_cols := numeric_columns df in
  match numeric_cols with
  | [] => ret []
  | _ =>
      let output_path := (output_dir ++ "/distributions.png")%string in
      savefig backend (distribution_figure df numeric_cols) output_path ;;;
      ret [output_path]
  end.

(** [categorical_cols]: the object columns whose label does not contain
    "id", whatever its case. *)
Definition categorical_columns (df : DataFrame) : list string :=
  filter (fun c => negb (contains "id" (lower c))) (object_columns df).

(** The bar chart drawn in one turn of the loop over
    [categorical_cols[:n_cols]]: the bar at height [k] is the [k]-th entry
    of [value_counts().head(MAX_CATEGORIES_DISPLAY)]. *)
Definition categorical_axes (df : DataFrame) (col : string) : Axes :=
  {| plot := Barh (match getitem df col with
                   | Some s => firstn MAX_CATEGORIES_DISPLAY (value_counts s)
                   | None => []
                   end);
     title := ("Top Values in " ++ col)%string;
     xlabel := "Count"; ylabel := ""; visible := true |}.

Definition categorical_figure (df : DataFrame) (categorical_cols : list string)
  : Figure :=
  let n_cols := Nat.min MAX_CATEGORICAL_PLOTS (List.length categorical_cols) in
  let fig := subplots 2 2 in
  let axes :=
    fold_left
      (fun axes ic => set_at axes (fst ic) (categorical_axes df (snd ic)))
      (enumerate (firstn n_cols categorical_cols))
      (fig_axes fig) in
  {| fig_rows := fig_rows fig; fig_cols := fig_cols fig;
     fig_axes := hide_unused n_cols axes |}.

Definition create_categorical_plots (df : DataFrame) (output_dir : string)
  : M (list string) :=
  let categorical_cols := categorical_columns df in
  match categorical_cols with
  | [] => ret []
  | _ =>
      let output_path := (output_dir ++ "/categorical_distributions.png")%string in
      savefig backend (categorical_figure df categorical_cols) output_path ;;;
      ret [output_path]
  end.

End Charts.

(** *** format_summary_report *)

Definition newline : string := String (ascii_of_nat 10) EmptyString.

Fixpoint str_repeat (s : string) (n : nat) : string :=
  match n with
  | O => EmptyString
  | S n' => (s ++ str_repeat s n')%string
  end.

Fixpoint str_rev_onto (s acc : string) : string :=
  match s with
  | EmptyString => acc
  | String c s' => str_rev_onto s' (String c acc)
  end.

Fixpoint group3 (rev_digits : string) (k : nat) : string :=
  match rev_digits with
  | EmptyString => EmptyString
  | String c s' =>
      match k with
      | O => String ","%char (String c (group3 s' 2))
      | S k' => String c (group3 s' k')
      end
  end.

(** [f"{n}"] of a count. *)
Definition str_nat (n : nat) : string :=
  DecimalString.NilZero.string_of_uint (Nat.to_uint n).

(** [f"{n:,}"] of a count: its digits, grouped by three from the right. *)
Definition fmt_commas (n : nat) : string :=
  str_rev_onto (group3 (str_rev_onto (str_nat n) EmptyString) 3) EmptyString.

(** [", ".join(l)], ["\n".join(l)]. *)
Fixpoint join (sep : string) (l : list string) : string :=
  match l with
  | [] => EmptyString
  | [s] => s
  | s :: l' => (s ++ sep ++ join sep l')%string
  end.

(** [str(dtype)]. *)
Definition dtype_name (s : Series) : string :=
  match s with
  | Int64 _ => "int64"
  | Float64 _ => "float64"
  | Boolean _ => "bool"
  | Object _ => "object"
  | Datetime64 _ => "datetime64[ns]"
  end.

Section Report.

(** Python's renderings of a float and of a frame, which the report only
    pastes: [f"{x:.{d}f}"], [f"{x}"] and [str(corr)]. *)
Variable fmt_fixed : nat -> float -> string.
Variable str_float : float -> string.
Variable str_frame : CorrMatrix -> string.

Definition quality_lines (quality : QualityReport) : list string :=
  if is_complete quality then
    ["✓ No missing values - dataset is complete!"]
  else
    [("Missing values: " ++ fmt_commas (total_missing quality) ++ " "
      ++ "(" ++ fmt_fixed 2 (missing_percentage quality)
      ++ "% of total data)")%string;
     "Missing by column:"]
    ++ map (fun ci =>
              ("  • " ++ fst ci ++ ": " ++ fmt_commas (count (snd ci)) ++ " "
               ++ "(" ++ fmt_fixed 1 (percentage (snd ci)) ++ "%)")%string)
           (missing_by_column quality).

Definition stats_lines (stats : list (string * Stats)) : list string :=
  match stats with
  | [] => []
  | _ =>
      [(newline ++ "📈 NUMERICAL ANALYSIS:")%string]
      ++ flat_map
           (fun cs =>
              [(newline ++ fst cs ++ ":")%string;
               ("  • Mean: " ++ str_float (s_mean (snd cs)))%string;
               ("  • Std Dev: " ++ str_float (s_std (snd cs)))%string;
               ("  • Range: " ++ str_float (s_min (snd cs)) ++ " - "
                ++ str_float (s_max (snd cs)))%string;
               ("  • Median: " ++ str_float (s_50 (snd cs)))%string])
           stats
  end.

Definition corr_lines (corr_matrix : option CorrMatrix) : list string :=
  match corr_matrix with
  | Some m => [(newline ++ "🔗 CORRELATIONS:")%string; str_frame m]
  | None => []
  end.

(** The visualization section: one line per chart, with its file name. *)
Definition chart_lines (charts : list string) : list string :=
  match charts with
  | [] => []
  | _ =>
      [(newline ++ "📊 VISUALIZATIONS CREATED:")%string]
      ++ map (fun chart => ("  ✓ " ++ basename chart)%string) charts
  end.

Definition format_summary_report (df : DataFrame) (quality : QualityReport)
    (stats : list (string * Stats)) (corr_matrix : option CorrMatrix)
    (charts : list string) : string :=
  let summary :=
    [str_repeat "=" 60;
     "📊 DATA OVERVIEW";
     str_repeat "=" 60;
     ("Rows: " ++ fmt_commas (nrows df) ++ " | Columns: "
      ++ str_nat (ncols df))%string;
     (newline ++ "Columns: " ++ join ", " (labels df))%string;
     (newline ++ "📋 DATA TYPES:")%string]
    ++ map (fun c => ("  • " ++ fst c ++ ": " ++ dtype_name (snd c))%string)
           (columns df)
    ++ [(newline ++ "🔍 DATA QUALITY:")%string]
    ++ quality_lines quality
    ++ stats_lines stats
    ++ corr_lines corr_matrix
    ++ chart_lines charts
    ++ [(newline ++ str_repeat "=" 60)%string;
        "✅ COMPREHENSIVE ANALYSIS COMPLETE";
        str_repeat "=" 60] in
  join newline summary.

End Report.

(** *** summarize_csv *)

Section Pipeline.

Variable read_csv : string -> ReadResult.
Variable fs : FileSystem.
Variable backend : Figure -> string -> option exn.
Variable parse_datetime : Cell -> option Z.
Variable fmt_fixed : nat -> float -> string.
Variable str_float : float -> string.
Variable str_frame : CorrMatrix -> string.

(** The visualization stage: the four branches in their order, each
    appending what it returns to [charts]. *)
Definition visualize (df : DataFrame) (corr_matrix : option CorrMatrix)
    (output_dir : string) : M (list string) :=
  charts <-
    match corr_matrix with
    | Some m =>
        let heatmap_path := (output_dir ++ "/correlation_heatmap.png")%string in
        create_correlation_heatmap backend m heatmap_path ;;;
        ret [heatmap_path]
    | None => ret []
    end ;;
  ts <- create_time_series_plots backend parse_datetime df output_dir ;;
  let charts := charts ++ ts in
  ds <- create_distribution_plots backend df output_dir ;;
  let charts := charts ++ ds in
  cs <- create_categorical_plots backend df output_dir ;;
  let charts := charts ++ cs in
  ret charts.

Definition summarize_csv (file_path output_dir : string) : M string :=
  df <- lift (load_csv read_csv fs file_path) ;;
  let quality := analyze_data_quality df in
  let stats := compute_statistics df in
  let corr_matrix := analyze_correlations df in
  charts <- visualize df corr_matrix output_dir ;;
  ret (format_summary_report fmt_fixed str_float str_frame
         df quality stats corr_matrix charts).

End Pipeline.

(** *** The command line *)

(** How a run of the script ends: with an exit status, after the lines it
    printed, or with an exception that nothing caught. *)
Inductive Outcome : Type :=
| Exited (status : nat) (stdout : list string)
| Uncaught (e : exn).

Definition USAGE : string := "Usage: python analyze.py <csv_file> [output_dir]".

Section CommandLine.

Variable read_csv : string -> ReadResult.
Variable fs : FileSystem.
Variable backend : Figure -> string -> option exn.
Variable parse_datetime : Cell -> option Z.
Variable fmt_fixed : nat -> float -> string.
Variable str_float : float -> string.
Variable str_frame : CorrMatrix -> string.

(** The block under [if __name__ == "__main__"], on [sys.argv]. *)
Definition main (argv : list string) (w : World) : Outcome * World :=
  match argv with
  | _ :: csv_path :: rest =>
      let output := match rest with
                    | out :: _ => out
                    | [] => "."
                    end in
      match summarize_csv read_csv fs backend parse_datetime
              fmt_fixed str_float str_frame csv_path output w with
      | (Ok report, w') => (Exited 0 [report], w')
      | (Raise e, w') => (Uncaught e, w')
      end
  | _ => (Exited 1 [USAGE], w)
  end.

End CommandLine.

End Analyze.

(** * Notions the properties are stated with *)

Import Python NumPy Pandas Matplotlib Analyze.

(** ** Derived notions *)

(** The numeric columns of a frame, with their cells, in column order. *)
Definition numeric_part (df : DataFrame) : list (string * Series) :=
  filter (fun c => is_number (snd c)) (columns df).

(** The entry the loop stores for a column with missing cells. *)
Definition missing_info (df : DataFrame) (s : Series) : MissingInfo :=
  {| count := null_count s;
     percentage :=
       NumPy.round (float_of_nat (null_count s) / float_of_nat (nrows df) * 100) 1 |}.

Definition missing_entry (df : DataFrame) (c : string * Series)
  : list (string * MissingInfo) :=
  if (0 <? null_count (snd c))%nat then [(fst c, missing_info df (snd c))] else [].

(** The number of null cells of a frame, counted cell by cell. *)
Definition missing_cells (df : DataFrame) : nat :=
  List.length
    (filter (fun b : bool => b)
            (List.concat (map (fun c => isnull (snd c)) (columns df)))).

Definition undefined_stats : Stats :=
  {| s_mean := nan; s_std := nan; s_min := nan;
     s_25 := nan; s_50 := nan; s_75 := nan; s_max := nan |}.

(** The variance with divisor [n - 1] of a column with [n] non-null
    cells: the squared deviations of these cells from their mean, summed
    as NumPy sums them, over [n - 1]. *)
Definition sample_variance (s : Series) : float :=
  let n := notnull_count s in
  let avg := (np_sum (var_values s) / float_of_nat n)%float in
  (np_sum (var_squares avg s) / float_of_nat (n - 1))%float.

(** On the diagonal a column meets itself: the accumulators of the two
    sides of the pair never part, and the co-moment is the sum of squared
    deviations. *)
Definition welford_diagonal (st : Welford) : Prop :=
  meany st = meanx st /\ ssqdm_y st = ssqdm_x st /\ covxy st = ssqdm_x st.

(** The rows that count for the coefficient of two columns: the rows in
    which both cells are finite. *)
Definition complete_rows (x y : list float) : list (float * float) :=
  filter (fun r => PrimFloat.is_finite (fst r) && PrimFloat.is_finite (snd r))
         (combine x y).

(** The moments Pearson's coefficient is made of, over a table of pairs
    read row after row: with the means [mx], [my] of the [n] rows read so
    far, the sums of the squared deviations of either side and the sum of
    the products of the deviations. *)
Fixpoint moments (rows : list (float * float)) (n : nat)
    (mx my sx sy sxy : float) : float * float * float :=
  match rows with
  | [] => (sx, sy, sxy)
  | (vx, vy) :: rest =>
      let mx' := (mx + 1 / float_of_nat (S n) * (vx - mx))%float in
      let my' := (my + 1 / float_of_nat (S n) * (vy - my))%float in
      moments rest (S n) mx' my'
              (sx + (vx - mx') * (vx - mx))%float
              (sy + (vy - my') * (vy - my))%float
              (sxy + (vx - mx') * (vy - my))%float
  end.

(** Pearson's coefficient of a table of pairs: the sum of the products
    over the root of the product of the two sums of squares; undefined
    for a table without a row, and when the divisor is zero. *)
Definition pearson (rows : list (float * float)) : float :=
  match rows with
  | [] => nan
  | _ :: _ =>
      let '(sx, sy, sxy) := moments rows 0 0 0 0 0 0 in
      let d := PrimFloat.sqrt (sx * sy) in
      if (d =? 0)%float then nan else (sxy / d)%float
  end.

(** The sum of the squared deviations of the finite cells of a column
    from their mean. *)
Definition squared_deviations (x : list float) : float :=
  let '(sx, _, _) := moments (complete_rows x x) 0 0 0 0 0 0 in sx.

(** The diagonal cell of a column, from the sum [s] of its squared
    deviations alone. *)
Definition diagonal_value (x : list float) : float :=
  let s := squared_deviations x in
  if existsb PrimFloat.is_finite x then
    if (PrimFloat.sqrt (s * s) =? 0)%float then nan
    else (s / PrimFloat.sqrt (s * s))%float
  else nan.

(** A column of nonzero variance: two of its finite cells differ. *)
Definition varies (x : list float) : Prop :=
  exists a b,
    In a x /\ In b x /\
    PrimFloat.is_finite a = true /\ PrimFloat.is_finite b = true /\
    (a =? b)%float = false.

(** [occurs_in sub s]: [s] has [sub] somewhere inside. *)
Definition occurs_in (sub s : string) : Prop :=
  exists before after, s = (before ++ sub ++ after)%string.

(** [c] is the character [l], or the capital letter of which [l] is the
    small one. *)
Definition letter_of (l c : ascii) : Prop :=
  c = l \/
  (65 <= nat_of_ascii c <= 90 /\ nat_of_ascii l = nat_of_ascii c + 32).

(** [text] spells [word], letter by letter, in whatever case. *)
Fixpoint spells (word text : string) : Prop :=
  match word, text with
  | EmptyString, EmptyString => True
  | String l word', String c text' => letter_of l c /\ spells word' text'
  | _, _ => False
  end.

(** [occurs_ci word s]: [s] has [word] somewhere inside, in whatever
    case. *)
Definition occurs_ci (word s : string) : Prop :=
  exists before mid after,
    s = (before ++ mid ++ after)%string /\ spells word mid.

(** Whether a label names a date column. *)
Definition names_a_date (c : string) : Prop :=
  occurs_ci "date" c \/ occurs_ci "time" c.

(** Whether a column is a candidate of the categorical chart. *)
Definition is_categorical (c : string) (s : option Series) : bool :=
  match s with
  | Some s => is_object s && negb (contains "id" (lower c))
  | None => false
  end.

(** How often the value [v] is in a list of values. *)
Definition value_occurrences (v : string) (vals : list string) : nat :=
  List.length (filter (String.eqb v) vals).

(** How often the value [v] is a cell of a text column. *)
Definition occurrences (v : string) (cells : list (option string)) : nat :=
  List.length
    (filter (fun c => match c with
                      | Some x => String.eqb v x
                      | None => false
                      end) cells).

(** The count a tally holds for a value, zero when it holds none. *)
Definition tally_get (v : string) (t : list (string * nat)) : nat :=
  match assoc v t with
  | Some n => n
  | None => 0
  end.

(** A tally in good shape: each value once, no count of zero. *)
Definition tally_ok (t : list (string * nat)) : Prop :=
  NoDup (keys t) /\ Forall (fun e => 0 < snd e) t.

(** The order of [value_counts]: no count is below one that comes later. *)
Definition descending (l : list (string * nat)) : Prop :=
  StronglySorted (fun a b => snd b <= snd a) l.

(** [bars] are the [k] most frequent values, [occ] telling how often a
    value occurs: at most [k] bars, each a value that occurs with the
    number of its occurrences, no value twice, the most frequent first;
    and a value without a bar, which only happens when all [k] bars are
    taken, is no more frequent than any value with a bar. *)
Definition top_by (occ : string -> nat) (k : nat)
    (bars : list (string * nat)) : Prop :=
  List.length bars <= k /\
  descending bars /\
  NoDup (keys bars) /\
  (forall v n, In (v, n) bars -> n = occ v /\ 0 < n) /\
  (forall v, 0 < occ v -> ~ In v (keys bars) ->
             List.length bars = k /\
             forall kept, In kept bars -> occ v <= snd kept).

(** [bars] are the [k] most frequent values among the cells of a text
    column, its nulls apart. *)
Definition top_counts (k : nat) (cells : list (option string))
    (bars : list (string * nat)) : Prop :=
  top_by (fun v => occurrences v cells) k bars.

(** The cells of [vals] in the rows whose date is [k], the nulls among
    them left out. *)
Definition cells_of_date (dates : list (option Z)) (vals : list float) (k : Z)
  : list float :=
  flat_map (fun r => match fst r with
                     | Some d =>
                         if (d =? k)%Z && negb (PrimFloat.is_nan (snd r))
                         then [snd r] else []
                     | None => []
                     end) (combine dates vals).

(** The compensated sum of a list of values: next to the sum so far goes
    the error it carries, which is taken off the next value; an error that
    is undefined counts as none. *)
Fixpoint compensated_sum (xs : list float) (sum err : float) : float :=
  match xs with
  | [] => sum
  | x :: rest =>
      let y := (x - err)%float in
      let t := (sum + y)%float in
      let e := (t - sum - y)%float in
      compensated_sum rest t (if PrimFloat.is_nan e then 0%float else e)
  end.

(** The mean of a group: its compensated sum over the number of its
    values, NaN for no value. *)
Definition compensated_mean (xs : list float) : float :=
  match xs with
  | [] => nan
  | _ :: _ => (compensated_sum xs 0 0 / float_of_nat (List.length xs))%float
  end.

(** The points of one subplot: one per date that was read, the dates
    ascending, each with the mean of the non-null cells of the column in
    the rows of that date. *)
Definition daily_means (dates : list (option Z)) (vals : list float)
    (points : list (Z * float)) : Prop :=
  StronglySorted Z.lt (map fst points) /\
  (forall k, In k (map fst points) <-> In (Some k) dates) /\
  (forall k m, In (k, m) points ->
               m = compensated_mean (cells_of_date dates vals k)).

(** A subplot that was left empty and hidden. *)
Definition hidden_axes : Axes :=
  {| plot := NoPlot; title := ""; xlabel := ""; ylabel := ""; visible := false |}.

(** ** The charts of a run *)

(** The charts a run attempts, in the order of the stage, each as the
    figure and the path it is saved to: the heat map when there is a
    matrix, the time series when there is a date column and a numeric
    column beside it, the histograms when there is a numeric column, the
    bar charts when there is a categorical candidate. *)
Definition heatmap_job (corr_matrix : option CorrMatrix) (output_dir : string)
  : list (Figure * string) :=
  match corr_matrix with
  | Some m => [(heatmap_figure m, (output_dir ++ "/correlation_heatmap.png")%string)]
  | None => []
  end.

Definition time_series_job (parse : Cell -> option Z) (df : DataFrame)
    (output_dir : string) : list (Figure * string) :=
  match date_columns df with
  | [] => []
  | date_col :: _ =>
      let df_copy := with_parsed_dates parse df date_col in
      match numeric_columns df_copy with
      | [] => []
      | _ => [(time_series_figure df_copy date_col (numeric_columns df_copy),
               (output_dir ++ "/time_series_analysis.png")%string)]
      end
  end.

Definition distribution_job (df : DataFrame) (output_dir : string)
  : list (Figure * string) :=
  match numeric_columns df with
  | [] => []
  | _ => [(distribution_figure df (numeric_columns df),
           (output_dir ++ "/distributions.png")%string)]
  end.

Definition categorical_job (df : DataFrame) (output_dir : string)
  : list (Figure * string) :=
  match categorical_columns df with
  | [] => []
  | _ => [(categorical_figure df (categorical_columns df),
           (output_dir ++ "/categorical_distributions.png")%string)]
  end.

Definition attempted_charts (parse : Cell -> option Z) (df : DataFrame)
    (output_dir : string) : list (Figure * string) :=
  heatmap_job (analyze_correlations df) output_dir
  ++ time_series_job parse df output_dir
  ++ distribution_job df output_dir
  ++ categorical_job df output_dir.

(** Rendering a list of charts one after the other: the first that fails
    ends the run. *)
Fixpoint render_all (backend : Figure -> string -> option exn)
    (jobs : list (Figure * string)) : M (list string) :=
  match jobs with
  | [] => ret []
  | job :: rest =>
      savefig backend (fst job) (snd job) ;;;
      paths <- render_all backend rest ;;
      ret (snd job :: paths)
  end.

(** The files a list of rendered charts leaves, the latest first. *)
Definition written (jobs : list (Figure * string)) : World :=
  rev (map (fun job => (snd job, fst job)) jobs).

Definition renders (backend : Figure -> string -> option exn)
    (job : Figure * string) : Prop :=
  backend (fst job) (snd job) = None.

(** ** Sample data *)

(** The frame of the quality test: an integer column, a column with every
    cell missing and a text column. *)
Definition all_missing_frame : DataFrame :=
  {| nrows := 3;
     columns := [("col_a", Int64 [1; 2; 3]%Z);
                 ("col_b", Object [None; None; None]);
                 ("col_c", Object [Some "x"; Some "y"; Some "z"])] |}.

(** The frame of the edge case: a float column without a value, next to
    an integer column. *)
Definition all_null_numeric_frame : DataFrame :=
  {| nrows := 3;
     columns := [("x", Float64 [nan; nan; nan]%float);
                 ("y", Int64 [1; 2; 3]%Z)] |}.

(** A frame with one cell, whose value has three decimals. *)
Definition one_value_frame : DataFrame :=
  {| nrows := 1; columns := [("x", Float64 [0.125]%float)] |}.

(** A frame with one cell, the least [int64]. *)
Definition least_int_frame : DataFrame :=
  {| nrows := 1; columns := [("x", Int64 [-9223372036854775808]%Z)] |}.

(** Sixteen measurements, enough for NumPy to add them in lanes. *)
Definition sixteen_cells : Series :=
  Float64 [0.1; 0.2; 1.2; 2.6; 0.1; 1.2; 0.1; 2.7;
           3.6; 0.8; 1.8; 0.4; 1.2; 1.7; 3.2; 3.2]%float.

Definition sixteen_cells_frame : DataFrame :=
  {| nrows := 16; columns := [("x", sixteen_cells)] |}.

(** Eight readings, an integer column that starts at the least [int64],
    and a text column. *)
Definition measurements_frame : DataFrame :=
  {| nrows := 8;
     columns := [("reading",
                  Float64 [1.7; 1.5; 1.7; 0.7; 3.9; 1.1; 2.2; 1.8]%float);
                 ("offset",
                  Int64 [-9223372036854775808; 0; 1; 2; 3; 4; 5; 6]%Z);
                 ("tag", Object [Some "a"; Some "b"; None; None;
                                 None; None; None; None])] |}.

(** The frame of the statistics tests: three numeric columns. *)
Definition numeric_only_frame : DataFrame :=
  {| nrows := 3;
     columns := [("a", Int64 [1; 2; 3]%Z);
                 ("b", Float64 [2; 4; 6.5]%float);
                 ("c", Float64 [3; 1; 2]%float)] |}.

(** A frame with a constant column next to a varying one. *)
Definition constant_column_frame : DataFrame :=
  {| nrows := 3;
     columns := [("a", Float64 [1; 1; 1]%float);
                 ("b", Float64 [1; 2; 3]%float)] |}.

(** Four columns on a line or near one, and a text column. *)
Definition linear_frame : DataFrame :=
  {| nrows := 4;
     columns := [("x", Int64 [1; 2; 3; 4]%Z);
                 ("up", Float64 [2; 4; 6; 8]%float);
                 ("down", Float64 [8; 6; 4; 2]%float);
                 ("w", Float64 [1; 3; 2; 4]%float);
                 ("label", Object [Some "a"; Some "b"; None; Some "a"])] |}.

(** Two columns of nonzero variance at the ends of the range of binary64:
    the squares of one underflow, the squares of the other overflow. *)
Definition extreme_frame : DataFrame :=
  {| nrows := 2;
     columns := [("tiny", Float64 [0; 7e-81]%float);
                 ("huge", Float64 [0; 1e200]%float)] |}.

(** The frame of the identifier scenario: an identifier column and a status
    column, both text, and an amount. *)
Definition customer_frame : DataFrame :=
  {| nrows := 4;
     columns := [("customer_id", Object [Some "c1"; Some "c2"; Some "c3"; Some "c4"]);
                 ("status", Object [Some "open"; Some "closed"; Some "open"; None]);
                 ("amount", Int64 [10; 20; 30; 40]%Z)] |}.

(** A small sales table: a date column, a product, two numeric columns and
    an identifier. *)
Definition sales_frame : DataFrame :=
  {| nrows := 4;
     columns := [("date", Object [Some "2024-01-02"; Some "2024-01-01";
                                  Some "soon"; Some "2024-01-01"]);
                 ("product", Object [Some "A"; Some "B"; Some "A"; Some "A"]);
                 ("quantity", Int64 [1; 2; 3; 4]%Z);
                 ("revenue", Float64 [10.5; 20; 30; 41]%float);
                 ("customer_id", Object [Some "c1"; Some "c2"; Some "c3"; Some "c4"])] |}.

(** A table of orders with capitalised labels: an identifier, a status
    with a null, a day that does not always read as one, and a score with
    a null. *)
Definition orders_frame : DataFrame :=
  {| nrows := 6;
     columns := [("Order_ID", Object [Some "o1"; Some "o2"; Some "o3";
                                      Some "o4"; Some "o5"; Some "o6"]);
                 ("Status", Object [Some "open"; Some "closed"; Some "open";
                                    None; Some "open"; Some "closed"]);
                 ("Order_Date", Object [Some "2024-01-01"; Some "2024-01-01";
                                        Some "2024-01-01"; Some "2024-01-02";
                                        Some "soon"; Some "2024-01-02"]);
                 ("Score", Float64 [0.1; 0.2; 0.3; 1.5; 2.5; nan]%float)] |}.

(** A date parser that reads the two days of the table (as day numbers)
    and nothing else. *)
Definition sample_parse (c : Cell) : option Z :=
  match c with
  | StrCell "2024-01-01" => Some 1%Z
  | StrCell "2024-01-02" => Some 2%Z
  | _ => None
  end.

(** The sales table as a file, and a reader and a directory that know it. *)
Definition sales_csv : string :=
  ("date,product,quantity,revenue,customer_id" ++ newline
   ++ "2024-01-02,A,1,10.5,c1" ++ newline
   ++ "2024-01-01,B,2,20,c2" ++ newline
   ++ "soon,A,3,30,c3" ++ newline
   ++ "2024-01-01,A,4,41,c4" ++ newline)%string.

Definition sales_reader (content : string) : ReadResult :=
  if String.eqb content sales_csv then Parsed sales_frame
  else ParseFailure "unread".

Definition sales_fs : FileSystem :=
  fun p => if String.eqb p "sales.csv" then Some sales_csv else None.

(** A file that holds a header line and nothing else, and the frame
    [pd.read_csv] makes of it: the two columns of the header, no row. *)
Definition header_only_csv : string := ("a,b" ++ newline)%string.

Definition header_only_frame : DataFrame :=
  {| nrows := 0; columns := [("a", Object []); ("b", Object [])] |}.

(** A reader that knows this one file. *)
Definition header_only_reader (content : string) : ReadResult :=
  if String.eqb content header_only_csv then Parsed header_only_frame
  else ParseFailure "unread".

Definition header_only_fs : FileSystem :=
  fun p => if String.eqb p "header.csv" then Some header_only_csv else None.

(** A backend that renders everything. *)
Definition always_renders (fig : Figure) (path : string) : option exn := None.

(** A backend that cannot draw histograms. *)
Definition no_histograms (fig : Figure) (path : string) : option exn :=
  if String.eqb path "out/distributions.png"
  then Some (RenderError "backend fault")
  else None.

(** ** Four clauses as the specification words them *)

(** The empty-input clause of the loader's contract as the specification
    words it: the error is raised exactly when the file has zero bytes or
    parses to zero rows or zero columns. *)
Definition empty_error_iff_no_data
    (read_csv : string -> ReadResult) (fs : FileSystem) (path : string) : Prop :=
  load_csv read_csv fs path = Raise (ValueError "CSV file is empty") <->
  exists content,
    fs path = Some content /\
    (String.length content = 0 \/
     read_csv content = EmptyDataError \/
     exists df, read_csv content = Parsed df /\ (nrows df = 0 \/ ncols df = 0)).

(** The statistics of a column with one value, worded without rounding:
    the deviation undefined, and mean, minimum and maximum equal to the
    value. *)
Definition unrounded_single_value
    (df : DataFrame) (col : string) (v : float) : Prop :=
  exists st,
    assoc col (compute_statistics df) = Some st /\
    PrimFloat.is_nan (s_std st) = true /\
    same_float (s_mean st) v = true /\
    same_float (s_min st) v = true /\
    same_float (s_max st) v = true.

(** The diagonal clause as the specification words it: in a matrix that
    [analyze_correlations] returns, the diagonal cell of every column of
    nonzero variance is exactly 1.0. *)
Definition unit_diagonal_claim (df : DataFrame) : Prop :=
  forall m, analyze_correlations df = Some m ->
  forall i, i < List.length (corr_index m) ->
    varies (to_floats (snd (nth i (numeric_part df) ("", Int64 [])))) ->
    corr_at m i i = 1%float.

(** The containment of branch failures as the specification words it:
    once the dataset is loaded, the run returns a report, whatever the
    backend does. *)
Definition branch_failures_contained
    (read_csv : string -> ReadResult) (fs : FileSystem)
    (backend : Figure -> string -> option exn) (parse : Cell -> option Z)
    (file_path output_dir : string) (w : World) : Prop :=
  forall fmt_fixed str_float str_frame df,
    load_csv read_csv fs file_path = Ok df ->
    exists report w',
      summarize_csv read_csv fs backend parse fmt_fixed str_float str_frame
        file_path output_dir w
      = (Ok report, w').

(** ** The files of a run *)

(** A file of the output directory, by its name. *)
Definition in_dir (output_dir name : string) : string :=
  (output_dir ++ "/" ++ name)%string.

(** A file name proper: not empty, not a single dot, without a slash. *)
Definition plain_name (name : string) : Prop :=
  name <> EmptyString /\ name <> "."%string /\ ~ occurs_in "/" name.

(** The rule of the report: 60 times [=]. *)
Definition rule60 : string :=
  "============================================================".

(** The four files a run can write. *)
Definition chart_names : list string :=
  ["correlation_heatmap.png"; "time_series_analysis.png";
   "distributions.png"; "categorical_distributions.png"].

(** The charts a dataset calls for, by file name and in the order of the
    stage, read off its columns alone: the heat map with two numeric
    columns or more, the time series with a date column and a numeric
    column that is not the date column, the histograms with a numeric
    column, the bar charts with a categorical candidate. *)
Definition chart_plan (df : DataFrame) : list string :=
  (if (2 <=? List.length (numeric_columns df))%nat
   then ["correlation_heatmap.png"] else [])
  ++ match date_columns df with
     | date_col :: _ =>
         if existsb (fun c => negb (String.eqb c date_col)) (numeric_columns df)
         then ["time_series_analysis.png"] else []
     | [] => []
     end
  ++ match numeric_columns df with
     | [] => []
     | _ => ["distributions.png"]
     end
  ++ match categorical_columns df with
     | [] => []
     | _ => ["categorical_distributions.png"]
     end.

(** Every column is as long as the index, as in a frame that [read_csv]
    returns. *)
Definition aligned (df : DataFrame) : Prop :=
  Forall (fun c => series_len (snd c) = nrows df) (columns df).

(** ** Thousands separators *)

(** A text without its commas. *)
Fixpoint strip_commas (s : string) : string :=
  match s with
  | EmptyString => EmptyString
  | String c s' =>
      if Ascii.eqb c ","%char then strip_commas s' else String c (strip_commas s')
  end.

(** A text that holds no comma. *)
Fixpoint comma_free (s : string) : Prop :=
  match s with
  | EmptyString => True
  | String c s' => c <> ","%char /\ comma_free s'
  end.

(** ** A dataset without one of its rows *)

Fixpoint drop_nth {A} (k : nat) (l : list A) {struct l} : list A :=
  match l, k with
  | [], _ => []
  | _ :: l', O => l'
  | x :: l', S k' => x :: drop_nth k' l'
  end.

Definition series_drop (k : nat) (s : Series) : Series :=
  match s with
  | Int64 v => Int64 (drop_nth k v)
  | Float64 v => Float64 (drop_nth k v)
  | Boolean v => Boolean (drop_nth k v)
  | Object v => Object (drop_nth k v)
  | Datetime64 v => Datetime64 (drop_nth k v)
  end.

(** [df] without its row at position [k]. *)
Definition drop_row (k : nat) (df : DataFrame) : DataFrame :=
  {| nrows := Nat.pred (nrows df);
     columns := map (fun c => (fst c, series_drop k (snd c))) (columns df) |}.

(** The cell of a numeric column at row [k] is of no use to [corr()]: it
    is null, or it is not finite. *)
Definition unusable (k : nat) (s : Series) : Prop :=
  PrimFloat.is_finite (nth k (to_floats s) PrimFloat.nan) = false.

(** Two numeric columns, the first with a null in its second row. *)
Definition gap_frame : DataFrame :=
  {| nrows := 4;
     columns := [("x", Float64 [1; nan; 3; 5]%float);
                 ("y", Int64 [2; 7; 6; 11]%Z)] |}.

(** ** A column with one value *)

(** A cell of an array that holds the value [v] where [b] is set and
    [0.0] elsewhere. *)
Definition cell (v : float) (b : bool) : float := if b then v else 0%float.

(** [x] is what [c] cells with the value [v], among cells that are [0.0],
    add up to, for [c] at most 1: [0.0] for none, and for one the value
    itself, or [0.0] when the value is a zero. *)
Definition sums_to (v : float) (c : nat) (x : float) : Prop :=
  match c with
  | O => x = 0%float
  | S O => x = v \/ (PrimFloat.is_zero v = true /\ x = 0%float)
  | _ => False
  end.

(** The number of flags that are set. *)
Definition ones (bs : list bool) : nat := List.length (filter (fun b => b) bs).

(** The lanes of a sum: each holds what the cells that went into it add
    up to. *)
Inductive lanes_sum (v : float) : list nat -> list float -> Prop :=
| lanes_nil : lanes_sum v [] []
| lanes_cons c x cs r :
    sums_to v c x -> lanes_sum v cs r -> lanes_sum v (c :: cs) (x :: r).

(** ** Tactics *)

Ltac distinct_labels :=
  unfold unique_labels, labels; simpl;
  repeat (constructor; [simpl; intuition discriminate|]); constructor.

Ltac loader_case :=
  repeat match goal with
    | H : exists _, _ |- _ => destruct H
    | H : _ /\ _ |- _ => destruct H
    | H : _ \/ _ |- _ => destruct H
    | H : Some _ = Some _ |- _ => injection H as H; subst
    | H : Ok _ = Ok _ |- _ => injection H as H; subst
    end;
  try discriminate; try congruence; try contradiction; eauto 8.

(** * Properties *)

(** ** Binary64 facts

    The few facts of IEEE 754 arithmetic the properties below rest on, from
    the bit-level specification of the kernel's floats. *)

Section Binary64.

Local Open Scope float_scope.

Lemma is_nan_spec (x : float) :
  PrimFloat.is_nan x = match Prim2SF x with S754_nan => true | _ => false end.
Proof.
  unfold PrimFloat.is_nan. rewrite FloatAxioms.eqb_spec.
  destruct (Prim2SF x) as [[]|[]| |s m e]; try reflexivity.
  unfold SFeqb, SFcompare. rewrite Z.compare_refl.
  destruct s; rewrite Pos.compare_cont_refl; reflexivity.
Qed.

(** There is one NaN. *)
Lemma is_nan_eq (x : float) : PrimFloat.is_nan x = true -> x = nan.
Proof.
  rewrite is_nan_spec. intros H. apply Prim2SF_inj.
  change (Prim2SF nan) with S754_nan. now destruct (Prim2SF x).
Qed.

Lemma div_nan_r (x : float) : x / nan = nan.
Proof.
  apply Prim2SF_inj. rewrite FloatAxioms.div_spec.
  change (Prim2SF nan) with S754_nan. now destruct (Prim2SF x).
Qed.

Lemma is_zero_cases (x : float) :
  PrimFloat.is_zero x = true -> x = 0 \/ x = neg_zero.
Proof.
  unfold PrimFloat.is_zero. rewrite FloatAxioms.eqb_spec.
  change (Prim2SF zero) with (S754_zero false). intros H.
  destruct (Prim2SF x) as [[]|[]| |[] m e] eqn:E; try discriminate H.
  - right. apply Prim2SF_inj. now rewrite E.
  - left. apply Prim2SF_inj. now rewrite E.
Qed.

Lemma add_zero_l (x : float) : PrimFloat.is_zero x = false -> 0 + x = x.
Proof.
  unfold PrimFloat.is_zero. rewrite FloatAxioms.eqb_spec.
  change (Prim2SF zero) with (S754_zero false). intros Hz.
  apply Prim2SF_inj. rewrite FloatAxioms.add_spec.
  change (Prim2SF 0) with (S754_zero false).
  destruct (Prim2SF x) as [[]|[]| |[] m e]; try reflexivity; discriminate Hz.
Qed.

Lemma div_eucl_div_mod (a b : Z) : Z.div_eucl a b = ((a / b)%Z, (a mod b)%Z).
Proof. unfold Z.div, Z.modulo. now destruct (Z.div_eucl a b). Qed.

Lemma div_core_self (m : positive) (e : Z) :
  SFdiv_core_binary prec emax (Zpos m) e (Zpos m) e
  = (9007199254740992%Z, (-53)%Z, loc_Exact).
Proof.
  unfold SFdiv_core_binary.
  rewrite !Z.sub_diag.
  change (Z.min (fexp prec emax 0) 0) with (-53)%Z.
  change (0 - -53)%Z with 53%Z.
  cbv beta iota zeta.
  rewrite div_eucl_div_mod.
  rewrite Z.shiftl_mul_pow2 by lia.
  rewrite Z.mul_comm, Z.div_mul by lia.
  rewrite Z.mod_mul by lia.
  unfold new_location, new_location_even, new_location_odd.
  now destruct (Z.even (Z.pos m)).
Qed.

Lemma SFdiv_self (s : bool) (m : positive) (e : Z) :
  SFdiv prec emax (S754_finite s m e) (S754_finite s m e)
  = S754_finite false 4503599627370496 (-52).
Proof.
  unfold SFdiv. rewrite div_core_self.
  rewrite xorb_nilpotent. reflexivity.
Qed.

Lemma bounded_inv (m : positive) (e : Z) :
  bounded prec emax m e = true ->
  Z.max (Zpos (digits2_pos m) + e - 53) (-1074) = e /\ (e <= 971)%Z.
Proof.
  unfold bounded, canonical_mantissa, fexp. intros H.
  apply andb_true_iff in H as [H1 H2].
  apply Z.eqb_eq in H1. apply Z.leb_le in H2.
  change emin with (-1074)%Z in H1.
  change prec with 53%Z in *. change emax with 1024%Z in *. lia.
Qed.

Lemma round_aux_canonical (sx : bool) (m : positive) (e : Z) :
  bounded prec emax m e = true ->
  binary_round_aux prec emax sx (Zpos m) e loc_Exact = S754_finite sx m e.
Proof.
  intros Hb. destruct (bounded_inv m e Hb) as [Hc He].
  unfold binary_round_aux, shr_fexp.
  change (Zdigits2 (Z.pos m)) with (Z.pos (digits2_pos m)).
  assert (E : (fexp prec emax (Z.pos (digits2_pos m) + e) - e = 0)%Z).
  { unfold fexp. change emin with (-1074)%Z.
    change prec with 53%Z. lia. }
  rewrite E. cbn -[Z.add Z.sub fexp Z.leb]. rewrite E. cbn -[Z.add Z.sub fexp Z.leb].
  apply Z.leb_le in He. change (emax - prec)%Z with 971%Z. now rewrite He.
Qed.

Lemma round_aux_double (sx : bool) (m : positive) (e : Z) :
  bounded prec emax m e = true -> (-1074 < e)%Z ->
  binary_round_aux prec emax sx (Zpos m~0) (e - 1) loc_Exact = S754_finite sx m e.
Proof.
  intros Hb Hlt. destruct (bounded_inv m e Hb) as [Hc He].
  unfold binary_round_aux, shr_fexp.
  change (Zdigits2 (Z.pos m~0)) with (Z.pos (Pos.succ (digits2_pos m))).
  assert (E : (fexp prec emax (Z.pos (Pos.succ (digits2_pos m)) + (e - 1)) - (e - 1) = 1)%Z).
  { unfold fexp. change emin with (-1074)%Z.
    change prec with 53%Z. lia. }
  rewrite E. cbn -[Z.add Z.sub fexp Z.leb].
  replace (e - 1 + 1)%Z with e by lia.
  assert (E' : (fexp prec emax (Z.pos (digits2_pos m) + e) - e = 0)%Z).
  { unfold fexp. change emin with (-1074)%Z.
    change prec with 53%Z. lia. }
  rewrite E'. cbn -[Z.add Z.sub fexp Z.leb].
  apply Z.leb_le in He. change (emax - prec)%Z with 971%Z. now rewrite He.
Qed.

Lemma div_core_one (m : positive) (e : Z) :
  bounded prec emax m e = true ->
  SFdiv_core_binary prec emax (Zpos m) e 4503599627370496 (-52)
  = if (e =? -1074)%Z then (Zpos m, e, loc_Exact)
    else (Zpos m~0, (e - 1)%Z, loc_Exact).
Proof.
  intros Hb. destruct (bounded_inv m e Hb) as [Hc He].
  unfold SFdiv_core_binary.
  change (Zdigits2 4503599627370496) with 53%Z.
  simpl Zdigits2.
  set (d := Z.pos (digits2_pos m)) in *.
  unfold fexp. change emin with (-1074)%Z. change prec with 53%Z.
  destruct (e =? -1074)%Z eqn:Ee.
  - apply Z.eqb_eq in Ee.
    replace (Z.min (Z.max (d + e - (53 + -52) - 53) (-1074)) (e - -52))%Z with e by lia.
    replace (e - -52 - e)%Z with 52%Z by lia.
    cbv beta iota zeta.
    rewrite div_eucl_div_mod, Z.shiftl_mul_pow2 by lia.
    change (2 ^ 52)%Z with 4503599627370496%Z.
    rewrite Z.div_mul, Z.mod_mul by lia.
    reflexivity.
  - apply Z.eqb_neq in Ee.
    replace (Z.min (Z.max (d + e - (53 + -52) - 53) (-1074)) (e - -52))%Z with (e - 1)%Z by lia.
    replace (e - -52 - (e - 1))%Z with 53%Z by lia.
    cbv beta iota zeta.
    rewrite div_eucl_div_mod, Z.shiftl_mul_pow2 by lia.
    replace (Z.pos m * 2 ^ 53)%Z with (Z.pos m~0 * 4503599627370496)%Z by lia.
    rewrite Z.div_mul, Z.mod_mul by lia.
    reflexivity.
Qed.

Lemma SFdiv_one (x : spec_float) :
  valid_binary x = true ->
  SFdiv prec emax x (S754_finite false 4503599627370496 (-52)) = x.
Proof.
  destruct x as [s|s| |s m e]; simpl; intros Hb;
    try (now rewrite xorb_false_r); try reflexivity.
  rewrite div_core_one by exact Hb.
  destruct (bounded_inv m e Hb) as [Hc He].
  rewrite xorb_false_r.
  destruct (e =? -1074)%Z eqn:Ee.
  - now apply round_aux_canonical.
  - apply Z.eqb_neq in Ee. apply round_aux_double; [exact Hb|lia].
Qed.

Lemma div_one (x : float) : x / 1 = x.
Proof.
  apply Prim2SF_inj. rewrite FloatAxioms.div_spec.
  change (Prim2SF 1) with (S754_finite false 4503599627370496 (-52)).
  apply SFdiv_one, Prim2SF_valid.
Qed.

Lemma finite_shape (x : float) :
  PrimFloat.is_finite x = true -> PrimFloat.is_zero x = false ->
  exists s m e, Prim2SF x = S754_finite s m e.
Proof.
  unfold PrimFloat.is_finite, PrimFloat.is_zero, PrimFloat.is_infinity, PrimFloat.is_nan.
  rewrite !FloatAxioms.eqb_spec, abs_spec.
  change (Prim2SF zero) with (S754_zero false).
  change (Prim2SF infinity) with (S754_infinity false).
  destruct (Prim2SF x) as [[]|[]| |s m e]; cbn; intros H1 H2;
    try discriminate; eauto.
Qed.

Lemma div_self (x : float) :
  PrimFloat.is_finite x = true -> PrimFloat.is_zero x = false ->
  x / x = 1.
Proof.
  intros Hf Hz. destruct (finite_shape x Hf Hz) as (s & m & e & Hx).
  apply Prim2SF_inj. rewrite FloatAxioms.div_spec, Hx.
  unfold SF64div. rewrite SFdiv_self. reflexivity.
Qed.

Lemma same_float_refl (x : float) : same_float x x = true.
Proof.
  unfold same_float, PrimFloat.is_nan. now destruct (x =? x).
Qed.

Lemma add_zero_r (x : float) :
  PrimFloat.is_zero x = false -> (x + 0)%float = x.
Proof.
  unfold PrimFloat.is_zero. rewrite FloatAxioms.eqb_spec. intros Hz.
  apply Prim2SF_inj. rewrite FloatAxioms.add_spec.
  change (Prim2SF 0%float) with (S754_zero false).
  change (Prim2SF zero) with (S754_zero false) in Hz.
  destruct (Prim2SF x) as [s|s| |s m e]; try reflexivity.
  discriminate Hz.
Qed.

(** The conversion of an integer rounds a mantissa that is not negative,
    and what comes out is a number. *)
Lemma shr_1_nonneg (r : shr_record) :
  (0 <= shr_m r)%Z -> (0 <= shr_m (shr_1 r))%Z.
Proof.
  destruct r as [m r s]. simpl. intros H.
  destruct m as [|[p|p|]|p]; simpl; lia.
Qed.

Lemma iter_shr_1_nonneg (p : positive) (r : shr_record) :
  (0 <= shr_m r)%Z -> (0 <= shr_m (iter_pos shr_1 p r))%Z.
Proof.
  revert r. induction p as [p IH|p IH|]; intros r H; simpl.
  - apply IH, IH, shr_1_nonneg, H.
  - apply IH, IH, H.
  - apply shr_1_nonneg, H.
Qed.

Lemma shr_fexp_nonneg (m e : Z) (l : location) :
  (0 <= m)%Z -> (0 <= shr_m (fst (shr_fexp prec emax m e l)))%Z.
Proof.
  intros H. unfold shr_fexp, shr.
  assert (H0 : (0 <= shr_m (shr_record_of_loc m l))%Z)
    by (destruct l as [|[]]; exact H).
  destruct (fexp prec emax (Zdigits2 m + e) - e)%Z; simpl; auto.
  now apply iter_shr_1_nonneg.
Qed.

Lemma round_aux_defined (sx : bool) (m e : Z) (l : location) :
  (0 <= m)%Z -> binary_round_aux prec emax sx m e l <> S754_nan.
Proof.
  intros H. unfold binary_round_aux.
  pose proof (shr_fexp_nonneg m e l H) as H1.
  destruct (shr_fexp prec emax m e l) as [mrs' e']. simpl in H1.
  set (m1 := round_nearest_even (shr_m mrs') (loc_of_shr_record mrs')).
  assert (Hm1 : (0 <= m1)%Z).
  { unfold m1, round_nearest_even.
    destruct (loc_of_shr_record mrs') as [|[]]; try lia.
    destruct (Z.even (shr_m mrs')); lia. }
  pose proof (shr_fexp_nonneg m1 e' loc_Exact Hm1) as H2.
  destruct (shr_fexp prec emax m1 e' loc_Exact) as [mrs'' e'']. simpl in H2.
  destruct (shr_m mrs''); [discriminate| |lia].
  destruct (e'' <=? emax - prec)%Z; discriminate.
Qed.

Lemma of_uint63_defined (n : PrimInt63.int) :
  PrimFloat.is_nan (PrimFloat.of_uint63 n) = false.
Proof.
  rewrite is_nan_spec, of_uint63_spec. unfold binary_normalize.
  pose proof (Uint63.to_Z_bounded n) as Hb.
  destruct (Uint63Axioms.to_Z n) as [|p|p]; [reflexivity| |lia].
  unfold binary_round.
  destruct (shl_align p 0 _) as [mz ez].
  pose proof (round_aux_defined false (Z.pos mz) ez loc_Exact) as H.
  destruct (binary_round_aux prec emax false (Z.pos mz) ez loc_Exact);
    try reflexivity.
  exfalso. apply H; [lia|reflexivity].
Qed.

(** An [int64] cell is never null. *)
Lemma float_of_Z_defined (z : Z) : PrimFloat.is_nan (float_of_Z z) = false.
Proof.
  unfold float_of_Z. cbv zeta.
  destruct (int64 z =? - 2 ^ 63)%Z; [reflexivity|].
  destruct (int64 z <? 0)%Z; [|apply of_uint63_defined].
  rewrite is_nan_spec, opp_spec.
  pose proof (of_uint63_defined (Uint63Axioms.of_Z (- int64 z))) as H.
  rewrite is_nan_spec in H.
  now destruct (Prim2SF _).
Qed.

End Binary64.

(** ** Sums of one value

    The sums of an array that holds one value [v] among cells that are
    [0.0], as a column with one non-null cell is summed: whatever the order
    of the additions, the sum is [v], or [0.0] when [v] is a zero. *)

Section OneValue.

Variable v : float.

Local Notation cell := (cell v).
Local Notation sums_to := (sums_to v).
Local Notation lanes_sum := (lanes_sum v).

Lemma sums_to_add (c1 c2 : nat) (x y : float) :
  sums_to c1 x -> sums_to c2 y -> c1 + c2 <= 1 ->
  sums_to (c1 + c2) (x + y)%float.
Proof.
  destruct c1 as [|[|c1]], c2 as [|[|c2]]; simpl; try lia; try contradiction;
    intros Hx Hy _.
  - subst. reflexivity.
  - subst x. destruct Hy as [->|[Hz ->]]; [|right; now split].
    destruct (PrimFloat.is_zero v) eqn:Hz.
    + right. split; [reflexivity|].
      destruct (is_zero_cases v Hz) as [-> | ->]; reflexivity.
    + left. now apply add_zero_l.
  - subst y. destruct Hx as [->|[Hz ->]]; [|right; now split].
    destruct (PrimFloat.is_zero v) eqn:Hz.
    + right. split; [reflexivity|].
      destruct (is_zero_cases v Hz) as [-> | ->]; reflexivity.
    + left. now apply add_zero_r.
Qed.

Lemma ones_app (a b : list bool) : ones (a ++ b) = ones a + ones b.
Proof. unfold ones. now rewrite filter_app, length_app. Qed.

Lemma ones_split (k : nat) (bs : list bool) :
  ones bs = ones (firstn k bs) + ones (skipn k bs).
Proof. now rewrite <- ones_app, firstn_skipn. Qed.

Lemma fold_add_sums (bs : list bool) (c : nat) (acc : float) :
  sums_to c acc -> c + ones bs <= 1 ->
  sums_to (c + ones bs) (fold_left PrimFloat.add (map cell bs) acc).
Proof.
  revert c acc. induction bs as [|b bs IH]; intros c acc Hacc Hle.
  - simpl. unfold ones. simpl. now rewrite Nat.add_0_r.
  - change (b :: bs) with ([b] ++ bs) in *. rewrite ones_app in *.
    simpl map. simpl fold_left. rewrite Nat.add_assoc.
    apply IH; [|lia].
    apply sums_to_add; [exact Hacc| |lia].
    destruct b; unfold ones; simpl; auto.
Qed.

Lemma lanes_cells (bs : list bool) :
  lanes_sum (map (fun b : bool => if b then 1 else 0) bs) (map cell bs).
Proof.
  induction bs as [|b bs IH]; simpl; constructor; auto.
  destruct b; simpl; auto.
Qed.

Lemma list_sum_cells (bs : list bool) :
  list_sum (map (fun b : bool => if b then 1 else 0) bs) = ones bs.
Proof.
  induction bs as [|b bs IH]; [reflexivity|].
  change (b :: bs) with ([b] ++ bs). rewrite ones_app. simpl. rewrite IH.
  now destruct b.
Qed.

Lemma add_lanes_sum (cs : list nat) (r : list float) (bs : list bool) :
  lanes_sum cs r -> list_sum cs + ones bs <= 1 ->
  List.length bs = List.length r ->
  exists cs',
    lanes_sum cs' (add_lanes r (map cell bs)) /\
    list_sum cs' = list_sum cs + ones bs.
Proof.
  intros H. revert bs. induction H as [|c x cs r Hx Hr IH]; intros bs Hle Hlen.
  - destruct bs; [|discriminate]. exists []. split; [constructor|reflexivity].
  - destruct bs as [|b bs]; [discriminate|].
    change (b :: bs) with ([b] ++ bs) in Hle. rewrite ones_app in Hle.
    simpl in Hle, Hlen.
    destruct (IH bs) as (cs' & Hcs' & Hsum); [lia|lia|].
    exists (c + ones [b] :: cs'). split.
    + simpl. constructor; [|exact Hcs'].
      apply sums_to_add; [exact Hx| |lia].
      destruct b; unfold ones; simpl; auto.
    + change (b :: bs) with ([b] ++ bs). rewrite ones_app. simpl. lia.
Qed.

Lemma lanes_sum_length (cs : list nat) (r : list float) :
  lanes_sum cs r -> List.length cs = List.length r.
Proof. induction 1; simpl; congruence. Qed.

Lemma tree8_sums (cs : list nat) (r : list float) :
  lanes_sum cs r -> List.length r = 8 -> list_sum cs <= 1 ->
  sums_to (list_sum cs) (tree8 r).
Proof.
  intros H Hlen Hle.
  do 8 (destruct H as [|? ? ? ? ? H]; [discriminate Hlen|]).
  destruct H; [|discriminate Hlen].
  simpl in Hle. simpl tree8. simpl list_sum.
  replace (c + (c0 + (c1 + (c2 + (c3 + (c4 + (c5 + (c6 + 0))))))))
    with (((c + c0) + (c1 + c2)) + ((c3 + c4) + (c5 + c6))) by lia.
  repeat (apply sums_to_add; [| |lia]); assumption.
Qed.

Lemma add_lanes_length (r a : list float) :
  List.length (add_lanes r a) = List.length r.
Proof.
  revert a. induction r as [|x r IH]; intros a; [reflexivity|].
  destruct a as [|y a]; simpl; [reflexivity|]. now rewrite IH.
Qed.

Lemma lanes8_sums (fuel : nat) (cs : list nat) (r : list float) (bs : list bool) :
  lanes_sum cs r -> List.length r = 8 -> list_sum cs + ones bs <= 1 ->
  exists cs' r' rest,
    lanes8 fuel r (map cell bs) = (r', map cell rest) /\
    lanes_sum cs' r' /\ List.length r' = 8 /\
    list_sum cs' + ones rest = list_sum cs + ones bs.
Proof.
  revert cs r bs. induction fuel as [|fuel IH]; intros cs r bs Hr Hlen Hle.
  - exists cs, r, bs. simpl. auto.
  - cbn [lanes8]. rewrite length_map.
    destruct (8 <=? List.length bs)%nat eqn:E; [|exists cs, r, bs; auto].
    apply Nat.leb_le in E.
    rewrite (ones_split 8 bs) in Hle.
    rewrite firstn_map, skipn_map.
    destruct (add_lanes_sum cs r (firstn 8 bs) Hr) as (cs1 & Hcs1 & Hsum1);
      [lia|rewrite length_firstn; lia|].
    destruct (IH cs1 _ (skipn 8 bs) Hcs1)
      as (cs' & r' & rest & Heq & Hcs' & Hl' & Hsum');
      [now rewrite add_lanes_length|lia|].
    exists cs', r', rest. rewrite (ones_split 8 bs). repeat split; auto. lia.
Qed.

Lemma block_sum_sums (bs : list bool) :
  8 <= List.length bs -> ones bs <= 1 ->
  sums_to (ones bs) (block_sum (map cell bs)).
Proof.
  intros Hlen Hle. unfold block_sum.
  rewrite (ones_split 8 bs) in *.
  rewrite firstn_map, skipn_map.
  destruct (lanes8_sums (List.length (map cell bs))
              (map (fun b : bool => if b then 1 else 0) (firstn 8 bs))
              (map cell (firstn 8 bs)) (skipn 8 bs))
    as (cs' & r' & rest & Heq & Hcs' & Hl' & Hsum').
  - apply lanes_cells.
  - rewrite length_map, length_firstn. lia.
  - rewrite list_sum_cells. lia.
  - rewrite Heq. rewrite list_sum_cells in Hsum'. rewrite <- Hsum'.
    apply fold_add_sums; [|lia].
    apply tree8_sums; [exact Hcs'|exact Hl'|lia].
Qed.

Lemma pairwise_sum_sums (fuel : nat) (bs : list bool) :
  ones bs <= 1 -> sums_to (ones bs) (pairwise_sum fuel (map cell bs)).
Proof.
  revert bs. induction fuel as [|fuel IH]; intros bs Hle.
  - cbn [pairwise_sum]. rewrite length_map.
    destruct (List.length bs <? 8)%nat eqn:E8.
    + apply (fold_add_sums bs 0 0%float); [reflexivity|exact Hle].
    + apply Nat.ltb_ge in E8.
      destruct (List.length bs <=? 128)%nat; now apply block_sum_sums.
  - cbn [pairwise_sum]. rewrite length_map.
    destruct (List.length bs <? 8)%nat eqn:E8.
    + apply (fold_add_sums bs 0 0%float); [reflexivity|exact Hle].
    + apply Nat.ltb_ge in E8.
      destruct (List.length bs <=? 128)%nat; [now apply block_sum_sums|].
      set (n2 := List.length bs / 2 - (List.length bs / 2) mod 8).
      rewrite firstn_map, skipn_map.
      rewrite (ones_split n2 bs) in *.
      apply sums_to_add; [apply IH; lia|apply IH; lia|exact Hle].
Qed.

Lemma np_sum_sums (bs : list bool) :
  ones bs <= 1 -> sums_to (ones bs) (np_sum (map cell bs)).
Proof.
  intros Hle. unfold np_sum.
  apply (sums_to_add 0 (ones bs)); [reflexivity| |exact Hle].
  now apply pairwise_sum_sums.
Qed.

End OneValue.

(** ** Dictionaries built by a loop over distinct keys *)

Section DictLemmas.

Context {A : Type}.

Lemma assoc_In (k : string) (l : list (string * A)) (a : A) :
  assoc k l = Some a -> In (k, a) l.
Proof.
  induction l as [|[k' a'] l IH]; simpl; [discriminate|].
  destruct (String.eqb k k') eqn:E.
  - apply String.eqb_eq in E. subst k'. intros [= ->]. now left.
  - intros H. right. now apply IH.
Qed.

Lemma assoc_NoDup (k : string) (l : list (string * A)) (a : A) :
  NoDup (map fst l) -> In (k, a) l -> assoc k l = Some a.
Proof.
  induction l as [|[k' a'] l IH]; simpl; [contradiction|].
  intros Hnd [H|H].
  - injection H as -> ->. now rewrite String.eqb_refl.
  - inversion Hnd as [|? ? Hnotin Hnd']; subst.
    destruct (String.eqb k k') eqn:E.
    + apply String.eqb_eq in E. subst k'.
      exfalso. apply Hnotin. change k with (fst (k, a)). now apply in_map.
    + now apply IH.
Qed.

Lemma dict_set_fresh (d : list (string * A)) (k : string) (a : A) :
  ~ In k (keys d) -> dict_set d k a = d ++ [(k, a)].
Proof.
  unfold keys. induction d as [|[k' a'] d IH]; simpl; [reflexivity|].
  intros H. destruct (String.eqb k k') eqn:E.
  - apply String.eqb_eq in E. subst k'. exfalso. apply H. now left.
  - f_equal. apply IH. intros H'. apply H. now right.
Qed.

(** A loop that assigns [d[k] = g k] for the keys [k] that [g] keeps, over
    keys that are distinct and not yet in [d], appends them in order. *)
Lemma fold_dict_set (g : string -> option A) (ks : list string)
    (d : list (string * A)) :
  NoDup (keys d ++ ks) ->
  fold_left (fun d k => match g k with
                        | Some a => dict_set d k a
                        | None => d
                        end) ks d
  = d ++ flat_map (fun k => match g k with
                            | Some a => [(k, a)]
                            | None => []
                            end) ks.
Proof.
  revert d. induction ks as [|k ks IH]; intros d Hnd; simpl.
  - now rewrite app_nil_r.
  - assert (Hk : ~ In k (keys d)).
    { intros Hin. apply NoDup_remove_2 in Hnd. apply Hnd.
      apply in_or_app. now left. }
    assert (Hnd' : NoDup (keys d ++ ks)) by now apply NoDup_remove_1 in Hnd.
    destruct (g k) as [a|].
    + rewrite dict_set_fresh by assumption.
      rewrite IH.
      * now rewrite <- app_assoc.
      * unfold keys in *. rewrite map_app. simpl. rewrite <- app_assoc. exact Hnd.
    + now apply IH.
Qed.

End DictLemmas.

(** On a frame with distinct labels, [df[col]] for the label of a column is
    that column. *)
Lemma getitem_column (df : DataFrame) (c : string * Series) :
  unique_labels df -> In c (columns df) -> getitem df (fst c) = Some (snd c).
Proof.
  intros Hnd Hin. unfold getitem. apply assoc_NoDup; [exact Hnd|].
  now destruct c.
Qed.

Lemma getitem_In (df : DataFrame) (col : string) (s : Series) :
  getitem df col = Some s -> In (col, s) (columns df).
Proof. apply assoc_In. Qed.

(** A loop over the labels of some columns of the frame, which looks each
    column up, is a loop over those columns. *)
Lemma flat_map_getitem {B} (df : DataFrame) (cs : list (string * Series))
    (h : string -> Series -> list B) :
  unique_labels df -> incl cs (columns df) ->
  flat_map (fun k => match getitem df k with
                     | Some s => h k s
                     | None => []
                     end) (map fst cs)
  = flat_map (fun c => h (fst c) (snd c)) cs.
Proof.
  intros Hnd Hincl. rewrite flat_map_concat_map, map_map.
  rewrite flat_map_concat_map. f_equal. apply map_ext_in.
  intros c Hc. now rewrite (getitem_column df c Hnd (Hincl c Hc)).
Qed.

Lemma fold_left_ext {A B} (f g : A -> B -> A) (l : list B) (a : A) :
  (forall a b, f a b = g a b) -> fold_left f l a = fold_left g l a.
Proof.
  intros H. revert a. induction l as [|b l IH]; intros a; simpl; [reflexivity|].
  now rewrite H, IH.
Qed.

Lemma flat_map_singleton {A B} (f : A -> B) (l : list A) :
  flat_map (fun a => [f a]) l = map f l.
Proof. induction l as [|a l IH]; simpl; [reflexivity|]. now rewrite IH. Qed.

(** ** The quality report *)

(** On distinct labels the loop of [analyze_data_quality] leaves one entry
    per column that has a missing cell, in column order. *)
Lemma missing_by_column_columns (df : DataFrame) :
  unique_labels df ->
  missing_by_column (analyze_data_quality df)
  = flat_map (missing_entry df) (columns df).
Proof.
  intros Hnd. unfold analyze_data_quality, missing_entry. simpl.
  rewrite <- (flat_map_getitem df (columns df)
                (fun k s => if (0 <? null_count s)%nat
                            then [(k, missing_info df s)] else [])
                Hnd (incl_refl _)).
  fold (labels df).
  pose (g := fun col => match getitem df col with
                        | Some s => if (0 <? null_count s)%nat
                                    then Some (missing_info df s) else None
                        | None => None
                        end).
  transitivity (fold_left (fun d k => match g k with
                                      | Some a => dict_set d k a
                                      | None => d
                                      end) (labels df) []).
  - apply fold_left_ext. intros d col. unfold quality_step, g.
    destruct (getitem df col) as [s|]; [|reflexivity].
    now destruct (0 <? null_count s)%nat.
  - rewrite fold_dict_set by exact Hnd. simpl.
    apply flat_map_ext. intros col. unfold g.
    destruct (getitem df col) as [s|]; [|reflexivity].
    now destruct (0 <? null_count s)%nat.
Qed.

Lemma In_missing_entries (df : DataFrame) (cs : list (string * Series))
    (col : string) (info : MissingInfo) :
  In (col, info) (flat_map (missing_entry df) cs) <->
  exists s, In (col, s) cs /\ 0 < null_count s /\ info = missing_info df s.
Proof.
  rewrite in_flat_map. split.
  - intros [[k s] [Hin Hentry]]. unfold missing_entry in Hentry. simpl in Hentry.
    destruct (0 <? null_count s)%nat eqn:E; [|contradiction].
    destruct Hentry as [[= <- <-]|[]]. exists s.
    apply Nat.ltb_lt in E. auto.
  - intros (s & Hin & Hpos & ->). exists (col, s). split; [exact Hin|].
    unfold missing_entry. simpl. apply Nat.ltb_lt in Hpos. rewrite Hpos. now left.
Qed.

Lemma keys_missing_entries (df : DataFrame) (cs : list (string * Series)) :
  keys (flat_map (missing_entry df) cs)
  = map fst (filter (fun c => (0 <? null_count (snd c))%nat) cs).
Proof.
  unfold keys. induction cs as [|c cs IH]; simpl; [reflexivity|].
  rewrite map_app, IH. unfold missing_entry.
  now destruct (0 <? null_count (snd c))%nat.
Qed.

Lemma sum_missing_entries (df : DataFrame) (cs : list (string * Series)) :
  list_sum (map (fun e => count (snd e)) (flat_map (missing_entry df) cs))
  = list_sum (map (fun c => null_count (snd c)) cs).
Proof.
  induction cs as [|c cs IH]; simpl; [reflexivity|].
  rewrite map_app, list_sum_app, IH. unfold missing_entry.
  destruct (0 <? null_count (snd c))%nat eqn:E; simpl.
  - lia.
  - apply Nat.ltb_ge in E. lia.
Qed.

(** Dropping entries keeps the keys distinct. *)
Lemma distinct_keys_filter {B} (keep : string * B -> bool)
    (d : list (string * B)) :
  NoDup (keys d) -> NoDup (keys (filter keep d)).
Proof.
  unfold keys. induction d as [|[k b] d IH]; simpl; intros Hd; [constructor|].
  apply NoDup_cons_iff in Hd as [Hk Hd].
  destruct (keep (k, b)); simpl; [|now apply IH].
  apply NoDup_cons; [|now apply IH].
  rewrite in_map_iff. intros ([k' b'] & Ek & Hin). simpl in Ek. subst k'.
  apply filter_In in Hin as [Hin _]. apply Hk.
  change k with (fst (k, b')). now apply in_map.
Qed.

(** C4. The quality report of a frame: [is_complete] is [total_missing == 0];
    a column is a key of [missing_by_column] exactly when it has a missing
    cell, and is a key once; and the counts stored in [missing_by_column]
    add up to [total_missing]. *)
Theorem quality_report_invariants (df : DataFrame) :
  unique_labels df ->
  let q := analyze_data_quality df in
  is_complete q = (total_missing q =? 0)%nat /\
  (forall col, In col (keys (missing_by_column q)) <->
               exists s, getitem df col = Some s /\ 0 < null_count s) /\
  NoDup (keys (missing_by_column q)) /\
  list_sum (map (fun e => count (snd e)) (missing_by_column q))
  = total_missing q.
Proof.
  intros Hnd q. subst q. rewrite (missing_by_column_columns df Hnd).
  split; [reflexivity|]. split; [|split].
  - intros col. unfold keys. rewrite in_map_iff. split.
    + intros [[k info] [Hk Hin]]. simpl in Hk. subst k.
      apply In_missing_entries in Hin as (s & Hs & Hpos & _).
      exists s. split; [|exact Hpos].
      exact (getitem_column df (col, s) Hnd Hs).
    + intros (s & Hget & Hpos). exists (col, missing_info df s).
      split; [reflexivity|]. apply In_missing_entries.
      exists s. split; [now apply getitem_In|]. auto.
  - rewrite keys_missing_entries. now apply distinct_keys_filter.
  - rewrite sum_missing_entries. reflexivity.
Qed.

Lemma quality_report_invariants_witness :
  unique_labels all_missing_frame /\
  is_complete (analyze_data_quality all_missing_frame) = false /\
  keys (missing_by_column (analyze_data_quality all_missing_frame)) = ["col_b"] /\
  list_sum (map (fun e => count (snd e))
                (missing_by_column (analyze_data_quality all_missing_frame))) = 3.
Proof.
  assert (H : unique_labels all_missing_frame) by distinct_labels.
  split; [exact H|].
  split; [exact (proj1 (quality_report_invariants all_missing_frame H))|].
  split; [reflexivity|].
  exact (proj2 (proj2 (proj2 (quality_report_invariants all_missing_frame H)))).
Defined.

(** [total_missing] counts the null cells of the frame. *)
Lemma total_missing_cells (df : DataFrame) :
  total_missing (analyze_data_quality df) = missing_cells df.
Proof.
  unfold analyze_data_quality, missing_cells, null_counts. simpl.
  induction (columns df) as [|c cs IH]; simpl; [reflexivity|].
  now rewrite filter_app, length_app, IH.
Qed.

(** C5. The percentages of the quality report.  [total_missing] is the
    number of null cells of the frame; [missing_percentage] is
    [total_missing / (rows * columns) * 100] rounded to 2 decimals, and is
    [0.0], with nothing divided, when the frame has no cell; and
    [missing_by_column] holds, for every column with a missing cell and
    for no other, the number of its missing cells and
    [column_missing / rows * 100] rounded to 1 decimal. *)
Theorem quality_percentages (df : DataFrame) :
  unique_labels df ->
  let q := analyze_data_quality df in
  let cells := nrows df * ncols df in
  total_missing q = missing_cells df /\
  (0 < cells ->
   missing_percentage q
   = NumPy.round
       (float_of_nat (total_missing q) / float_of_nat cells * 100) 2) /\
  (cells = 0 -> missing_percentage q = 0%float) /\
  (forall col info,
      In (col, info) (missing_by_column q) <->
      exists s, getitem df col = Some s /\
                0 < null_count s /\
                info
                = {| count := null_count s;
                     percentage :=
                       NumPy.round
                         (float_of_nat (null_count s)
                          / float_of_nat (nrows df) * 100) 1 |}).
Proof.
  intros Hnd q cells. subst q cells.
  split; [apply total_missing_cells|]. split; [|split].
  - intros Hpos. apply Nat.ltb_lt in Hpos.
    unfold analyze_data_quality. simpl. now rewrite Hpos.
  - intros Hz. unfold analyze_data_quality. simpl. now rewrite Hz.
  - intros col info. rewrite (missing_by_column_columns df Hnd).
    rewrite In_missing_entries. split.
    + intros (s & Hs & Hpos & ->). exists s.
      split; [exact (getitem_column df (col, s) Hnd Hs)|].
      split; [exact Hpos|reflexivity].
    + intros (s & Hget & Hpos & ->). exists s.
      split; [now apply getitem_In|]. split; [exact Hpos|reflexivity].
Qed.

Lemma quality_percentages_witness :
  unique_labels orders_frame /\
  total_missing (analyze_data_quality orders_frame) = 2 /\
  missing_percentage (analyze_data_quality orders_frame) = 8.33%float /\
  In ("Status", {| count := 1; percentage := 16.7 |})
     (missing_by_column (analyze_data_quality orders_frame)) /\
  ~ In "Order_ID" (keys (missing_by_column (analyze_data_quality orders_frame))).
Proof.
  assert (H : unique_labels orders_frame) by distinct_labels.
  destruct (quality_percentages orders_frame H) as (Htotal & Hpct & _ & Hcols).
  split; [exact H|]. split; [rewrite Htotal; reflexivity|]. split; [|split].
  - rewrite Hpct by (simpl; lia). rewrite Htotal. vm_compute. reflexivity.
  - apply Hcols.
    exists (Object [Some "open"; Some "closed"; Some "open";
                    None; Some "open"; Some "closed"]).
    split; [reflexivity|]. split; [vm_compute; lia|].
    vm_compute. reflexivity.
  - intros Hin. apply in_map_iff in Hin as ([k info] & Hk & Hin).
    simpl in Hk. subst k.
    apply Hcols in Hin as (s & Hs & Hpos & _).
    injection Hs as <-. vm_compute in Hpos. lia.
Defined.

(** ** The loader *)

(** C2, as stated, fails: a file with a header and no row parses to a
    frame with zero rows, and [load_csv] returns that frame. *)
Lemma load_csv_header_only_not_empty_error :
  load_csv header_only_reader header_only_fs "header.csv" = Ok header_only_frame /\
  nrows header_only_frame = 0 /\
  ~ empty_error_iff_no_data header_only_reader header_only_fs "header.csv".
Proof.
  split; [reflexivity|]. split; [reflexivity|].
  intros [_ H].
  assert (E : load_csv header_only_reader header_only_fs "header.csv"
              = Raise (ValueError "CSV file is empty")).
  { apply H. exists header_only_csv. split; [reflexivity|].
    right. right. exists header_only_frame. split; [reflexivity|]. now left. }
  discriminate E.
Qed.

(** C2, amended. [load_csv] raises [FileNotFoundError] exactly when the
    path does not exist; raises the empty-file [ValueError] exactly when the
    file has zero bytes or the parser reports that there is nothing to
    parse; raises the parse-failure [ValueError] exactly when the parser
    fails in any other way on a file that is not empty; and returns the
    frame of the parser, whatever its shape, in every other case. *)
Theorem load_csv_outcomes
    (read_csv : string -> ReadResult) (fs : FileSystem) (path : string) :
  ((exists msg, load_csv read_csv fs path = Raise (FileNotFoundError msg)) <->
   fs path = None) /\
  (load_csv read_csv fs path = Raise (ValueError "CSV file is empty") <->
   exists content,
     fs path = Some content /\
     (String.length content = 0 \/ read_csv content = EmptyDataError)) /\
  ((exists e, load_csv read_csv fs path
              = Raise (ValueError ("Failed to parse CSV file: " ++ e))) <->
   exists content e,
     fs path = Some content /\ String.length content <> 0 /\
     read_csv content = ParseFailure e) /\
  (forall df,
      load_csv read_csv fs path = Ok df <->
      exists content,
        fs path = Some content /\ String.length content <> 0 /\
        read_csv content = Parsed df).
Proof.
  unfold load_csv.
  destruct (fs path) as [content|] eqn:Hfs;
    [destruct (String.length content =? 0)%nat eqn:Hlen;
     [apply Nat.eqb_eq in Hlen
     |apply Nat.eqb_neq in Hlen;
      destruct (read_csv content) as [df0| |msg] eqn:Hread]|];
    (split; [|split; [|split; [|intros df]]]);
    (split; intros H; loader_case).
Qed.

(** ** The statistics table *)

Lemma numeric_part_incl (df : DataFrame) : incl (numeric_part df) (columns df).
Proof. intros c Hc. now apply filter_In in Hc as [Hc _]. Qed.

Lemma numeric_part_labels (df : DataFrame) :
  unique_labels df -> NoDup (map fst (numeric_part df)).
Proof. intros H. now apply distinct_keys_filter. Qed.

(** On distinct labels the table has one entry per numeric column, in
    column order: the rounded [describe()] of that column. *)
Lemma compute_statistics_columns (df : DataFrame) :
  unique_labels df ->
  compute_statistics df
  = map (fun c => (fst c, stats_of (describe (snd c)))) (numeric_part df).
Proof.
  intros Hnd.
  assert (E : compute_statistics df
              = fold_left (stats_step df) (numeric_columns df) []).
  { unfold compute_statistics. now destruct (numeric_columns df). }
  rewrite E. clear E.
  pose (g := fun col => match getitem df col with
                        | Some s => Some (stats_of (describe s))
                        | None => None
                        end).
  transitivity (fold_left (fun d k => match g k with
                                      | Some a => dict_set d k a
                                      | None => d
                                      end) (numeric_columns df) []).
  - apply fold_left_ext. intros d col. unfold stats_step, g.
    now destruct (getitem df col).
  - rewrite fold_dict_set by (simpl; now apply numeric_part_labels).
    simpl. unfold numeric_columns. fold (numeric_part df).
    transitivity
      (flat_map (fun k => match getitem df k with
                          | Some s => [(k, stats_of (describe s))]
                          | None => []
                          end) (map fst (numeric_part df))).
    + apply flat_map_ext. intros col. unfold g. now destruct (getitem df col).
    + rewrite (flat_map_getitem df (numeric_part df)
                 (fun k s => [(k, stats_of (describe s))])
                 Hnd (numeric_part_incl df)).
      apply flat_map_singleton.
Qed.

(** The entry of a numeric column in the table. *)
Lemma compute_statistics_entry (df : DataFrame) (col : string) (s : Series) :
  unique_labels df -> getitem df col = Some s -> is_number s = true ->
  assoc col (compute_statistics df) = Some (stats_of (describe s)).
Proof.
  intros Hnd Hget Hnum. rewrite (compute_statistics_columns df Hnd).
  apply assoc_NoDup.
  - rewrite map_map. simpl. now apply numeric_part_labels.
  - apply in_map_iff. exists (col, s). split; [reflexivity|].
    apply filter_In. split; [now apply getitem_In|exact Hnum].
Qed.

Lemma all_flags_set (l : list bool) :
  count_true l = List.length l -> forall b, In b l -> b = true.
Proof.
  unfold count_true. induction l as [|a l IH]; simpl; [contradiction|].
  pose proof (filter_length_le (fun b : bool => b) l) as Hle.
  destruct a; simpl; intros H.
  - intros b [<-|Hb]; [reflexivity|]. apply IH; [lia|exact Hb].
  - exfalso. lia.
Qed.

(** A numeric column whose every cell is null has no value to describe. *)
Lemma valid_values_all_null (s : Series) :
  is_number s = true -> null_count s = series_len s -> valid_values s = [].
Proof.
  destruct s as [v|v|v|v|v]; try discriminate; intros _; unfold null_count, valid_values;
    simpl; intros H.
  - destruct v as [|z v]; [reflexivity|].
    exfalso. rewrite <- (length_map (fun _ : Z => false)) in H.
    pose proof (all_flags_set _ H false (or_introl eq_refl)). discriminate.
  - rewrite <- (length_map PrimFloat.is_nan) in H.
    pose proof (all_flags_set _ H) as Hall.
    induction v as [|x v IH]; simpl; [reflexivity|].
    rewrite (Hall (PrimFloat.is_nan x)) by now left. simpl.
    apply IH; [|intros b Hb; apply Hall; now right].
    simpl in H. rewrite (Hall (PrimFloat.is_nan x)) in H by now left.
    simpl in H. unfold count_true in *. simpl in H. lia.
Qed.

Lemma valid_values_defined (s : Series) :
  Forall (fun x => PrimFloat.is_nan x = false) (valid_values s).
Proof.
  unfold valid_values. apply Forall_forall. intros x Hx.
  apply filter_In in Hx as [_ Hx]. now apply negb_true_iff in Hx.
Qed.

Lemma valid_values_float_count (v : list float) :
  List.length (valid_values (Float64 v)) + null_count (Float64 v)
  = series_len (Float64 v).
Proof.
  unfold valid_values, null_count, count_true. simpl.
  induction v as [|x v IH]; simpl; [reflexivity|].
  destruct (PrimFloat.is_nan x); simpl; lia.
Qed.

(** An integer column has no null: each of its cells is described. *)
Lemma valid_values_int (v : list Z) :
  valid_values (Int64 v) = map float_of_Z v.
Proof.
  unfold valid_values. simpl.
  induction v as [|z v IH]; simpl; [reflexivity|].
  rewrite float_of_Z_defined. simpl. now f_equal.
Qed.

Lemma null_count_int (v : list Z) : null_count (Int64 v) = 0.
Proof.
  unfold null_count, count_true. simpl. now induction v.
Qed.

(** The count [nanops] divides by is the number of described values. *)
Lemma notnull_count_valid (s : Series) :
  is_number s = true -> notnull_count s = List.length (valid_values s).
Proof.
  destruct s as [v|v|v|v|v]; try discriminate; intros _; unfold notnull_count.
  - rewrite null_count_int, valid_values_int, length_map. simpl. lia.
  - pose proof (valid_values_float_count v). lia.
Qed.

(** Nothing counted: the mean is NaN. *)
Lemma nanmean_none (s : Series) : notnull_count s = 0 -> nanmean s = nan.
Proof. intros H. unfold nanmean. now rewrite H. Qed.

(** The sample deviation of at most one value: the count does not exceed
    [ddof], so the divisor is NaN. *)
Lemma nanstd_few (s : Series) : notnull_count s <= 1 -> nanstd s = nan.
Proof.
  intros H. unfold nanstd, nanvar.
  apply Nat.leb_le in H. rewrite H. rewrite div_nan_r. reflexivity.
Qed.

(** C9. A numeric column with no non-null cell has an entry in the table
    of [compute_statistics], and each of its statistics is NaN. *)
Theorem all_null_statistics_undefined
    (df : DataFrame) (col : string) (s : Series) :
  unique_labels df ->
  getitem df col = Some s ->
  is_number s = true ->
  null_count s = series_len s ->
  assoc col (compute_statistics df) = Some undefined_stats.
Proof.
  intros Hnd Hget Hnum Hnull.
  rewrite (compute_statistics_entry df col s Hnd Hget Hnum).
  assert (Hc : notnull_count s = 0) by (unfold notnull_count; lia).
  unfold describe. rewrite (valid_values_all_null s Hnum Hnull).
  rewrite (nanmean_none s Hc), (nanstd_few s) by lia.
  reflexivity.
Qed.

Lemma all_null_statistics_undefined_witness :
  unique_labels all_null_numeric_frame /\
  assoc "x" (compute_statistics all_null_numeric_frame) = Some undefined_stats.
Proof.
  assert (H : unique_labels all_null_numeric_frame) by distinct_labels.
  split; [exact H|].
  exact (all_null_statistics_undefined all_null_numeric_frame "x"
           (Float64 [nan; nan; nan]%float) H eq_refl eq_refl eq_refl).
Defined.

(** A float column with one value, as it is summed: the value in its
    cell, [0.0] in the cells that are null. *)
Lemma fillna0_cells (v : float) (l : list float) :
  (forall x, In x l -> PrimFloat.is_nan x = false -> x = v) ->
  fillna0 l
  = map (cell v) (map (fun x => negb (PrimFloat.is_nan x)) l).
Proof.
  unfold fillna0. intros H. rewrite map_map. apply map_ext_in.
  intros x Hx. destruct (PrimFloat.is_nan x) eqn:E; simpl; [reflexivity|].
  now apply H.
Qed.

Lemma ones_defined (l : list float) :
  ones (map (fun x => negb (PrimFloat.is_nan x)) l)
  = List.length (filter (fun x => negb (PrimFloat.is_nan x)) l).
Proof.
  unfold ones. induction l as [|x l IH]; simpl; [reflexivity|].
  destruct (PrimFloat.is_nan x); simpl; now rewrite ?IH.
Qed.

(** The sum of a column with one value is that value, or [0.0] when the
    value is a zero. *)
Lemma nansum_single (s : Series) (v : float) :
  is_number s = true -> valid_values s = [v] -> sums_to v 1 (nansum s).
Proof.
  destruct s as [l|l|l|l|l]; try discriminate; intros _ Hv.
  - rewrite valid_values_int in Hv.
    destruct l as [|z [|z' l]]; try discriminate Hv.
    simpl in Hv. injection Hv as Hv. unfold nansum. simpl map. rewrite Hv.
    change (np_sum_cast [v]) with (0 + (0 + v))%float.
    apply (sums_to_add v 0 1); [reflexivity| |lia].
    apply (sums_to_add v 0 1); [reflexivity| |lia].
    now left.
  - unfold valid_values in Hv. simpl in Hv. unfold nansum. simpl to_floats.
    rewrite (fillna0_cells v).
    + replace 1 with (ones (map (fun x => negb (PrimFloat.is_nan x)) l))
        by now rewrite ones_defined, Hv.
      apply np_sum_sums. now rewrite ones_defined, Hv.
    + intros x Hx Hn.
      assert (Hin : In x (filter (fun x => negb (PrimFloat.is_nan x)) l)).
      { apply filter_In. split; [exact Hx|]. now rewrite Hn. }
      rewrite Hv in Hin. destruct Hin as [<-|[]]. reflexivity.
Qed.

Lemma nanmean_single (s : Series) (v : float) :
  is_number s = true -> valid_values s = [v] -> sums_to v 1 (nanmean s).
Proof.
  intros Hnum Hv. unfold nanmean.
  rewrite (notnull_count_valid s Hnum), Hv. simpl.
  change (float_of_nat 1) with 1%float. rewrite div_one.
  now apply nansum_single.
Qed.

Lemma nanstd_sample (s : Series) :
  2 <= notnull_count s ->
  nanstd s = PrimFloat.sqrt (sample_variance s).
Proof.
  intros Hlen. unfold nanstd, nanvar, sample_variance.
  destruct (notnull_count s <=? 1)%nat eqn:E; [|reflexivity].
  apply Nat.leb_le in E. lia.
Qed.

(** C10, as stated, fails: the statistics are rounded to 2 decimals, so
    for the single value 0.125 the table holds 0.12. *)
Lemma one_value_statistics_are_rounded :
  valid_values (Float64 [0.125]%float) = [0.125%float] /\
  assoc "x" (compute_statistics one_value_frame)
  = Some {| s_mean := 0.12; s_std := nan; s_min := 0.12;
            s_25 := 0.12; s_50 := 0.12; s_75 := 0.12; s_max := 0.12 |} /\
  ~ unrounded_single_value one_value_frame "x" 0.125%float.
Proof.
  split; [reflexivity|]. split; [vm_compute; reflexivity|].
  intros (st & Hst & _ & Hmean & _).
  vm_compute in Hst. injection Hst as <-.
  vm_compute in Hmean. discriminate Hmean.
Qed.

(** C10, amended. [compute_statistics] uses the sample standard deviation:
    for a numeric column with exactly one non-null value the returned std
    is NaN, while mean, min and max all equal that value rounded to 2
    decimals; with two or more non-null values the returned std is the
    rounded square root of the variance with divisor [n - 1], its sums
    taken as NumPy takes them. *)
Theorem single_value_statistics
    (df : DataFrame) (col : string) (s : Series) :
  unique_labels df ->
  getitem df col = Some s ->
  is_number s = true ->
  exists st,
    assoc col (compute_statistics df) = Some st /\
    (forall v, valid_values s = [v] ->
       s_std st = nan /\
       same_float (s_mean st) (NumPy.round v 2) = true /\
       s_min st = NumPy.round v 2 /\
       s_max st = NumPy.round v 2) /\
    (2 <= List.length (valid_values s) ->
       s_std st = NumPy.round (PrimFloat.sqrt (sample_variance s)) 2).
Proof.
  intros Hnd Hget Hnum.
  exists (stats_of (describe s)).
  split; [exact (compute_statistics_entry df col s Hnd Hget Hnum)|].
  pose proof (notnull_count_valid s Hnum) as Hc.
  unfold describe. split.
  - intros v Hv. rewrite Hv in *. unfold stats_of. simpl in *.
    rewrite (nanstd_few s) by lia.
    split; [reflexivity|]. split; [|split; reflexivity].
    destruct (nanmean_single s v Hnum Hv) as [-> | [Hz ->]].
    + apply same_float_refl.
    + destruct (is_zero_cases v Hz) as [-> | ->]; reflexivity.
  - intros Hlen. unfold stats_of. simpl.
    rewrite (nanstd_sample s) by lia. reflexivity.
Qed.

Lemma single_value_statistics_witness :
  unique_labels one_value_frame /\
  (exists st,
     assoc "x" (compute_statistics one_value_frame) = Some st /\
     s_std st = nan /\ s_min st = 0.12%float /\ s_max st = 0.12%float /\
     same_float (s_mean st) 0.12 = true) /\
  unique_labels least_int_frame /\
  (exists st,
     assoc "x" (compute_statistics least_int_frame) = Some st /\
     s_std st = nan /\
     s_min st = (-9223372036854775808)%float /\
     s_max st = (-9223372036854775808)%float /\
     same_float (s_mean st) (-9223372036854775808) = true) /\
  unique_labels sixteen_cells_frame /\
  2 <= List.length (valid_values sixteen_cells) /\
  (exists st,
     assoc "x" (compute_statistics sixteen_cells_frame) = Some st /\
     s_std st = 1.23%float).
Proof.
  assert (H : unique_labels one_value_frame) by distinct_labels.
  assert (H1 : unique_labels least_int_frame) by distinct_labels.
  assert (H' : unique_labels sixteen_cells_frame) by distinct_labels.
  split; [exact H|]. split; [|split; [exact H1|split]].
  - destruct (single_value_statistics one_value_frame "x"
                (Float64 [0.125]%float) H eq_refl eq_refl)
      as (st & Hst & Hone & _).
    destruct (Hone 0.125%float eq_refl) as (Hstd & Hmean & Hmin & Hmax).
    exists st. split; [exact Hst|]. split; [exact Hstd|].
    split; [exact Hmin|]. split; [exact Hmax|exact Hmean].
  - destruct (single_value_statistics least_int_frame "x"
                (Int64 [-9223372036854775808]%Z) H1 eq_refl eq_refl)
      as (st & Hst & Hone & _).
    destruct (Hone (-9223372036854775808)%float eq_refl)
      as (Hstd & Hmean & Hmin & Hmax).
    exists st. split; [exact Hst|]. split; [exact Hstd|].
    split; [exact Hmin|]. split; [exact Hmax|exact Hmean].
  - split; [exact H'|]. split; [vm_compute; lia|].
    destruct (single_value_statistics sixteen_cells_frame "x"
                sixteen_cells H' eq_refl eq_refl)
      as (st & Hst & _ & Hmany).
    exists st. split; [exact Hst|].
    rewrite Hmany by (vm_compute; lia). vm_compute. reflexivity.
Defined.

(** ** The correlation matrix *)

(** On distinct labels [df[numeric_cols]] is the frame of the numeric
    columns, in column order. *)
Lemma getitems_numeric (df : DataFrame) :
  unique_labels df ->
  getitems df (numeric_columns df)
  = {| nrows := nrows df; columns := numeric_part df |}.
Proof.
  intros Hnd. unfold getitems, numeric_columns. fold (numeric_part df). f_equal.
  rewrite (flat_map_getitem df (numeric_part df) (fun k s => [(k, s)])
             Hnd (numeric_part_incl df)).
  rewrite flat_map_singleton. rewrite <- (map_id (numeric_part df)) at 2.
  apply map_ext. now intros [k s].
Qed.

Lemma nth_map_seq {A} (f : nat -> A) (n i : nat) (d : A) :
  i < n -> nth i (map f (seq 0 n)) d = f i.
Proof.
  intros Hi. rewrite (nth_indep _ d (f 0)) by now rewrite length_map, length_seq.
  rewrite (map_nth f (seq 0 n) 0 i). now rewrite seq_nth.
Qed.

(** The values of [corr()], entry by entry. *)
Lemma corr_at_entry (df : DataFrame) (i j : nat) :
  i < ncols df -> j < ncols df ->
  corr_at (corr df) i j
  = corr_entry (map (fun c => to_floats (snd c)) (columns df)) i j.
Proof.
  intros Hi Hj. unfold corr_at, corr, ncols in *. simpl.
  rewrite length_map.
  rewrite (nth_map_seq _ _ i) by exact Hi.
  now rewrite (nth_map_seq _ _ j) by exact Hj.
Qed.

Lemma corr_at_outside (df : DataFrame) (i j : nat) :
  ncols df <= i \/ ncols df <= j -> corr_at (corr df) i j = nan.
Proof.
  unfold corr_at, corr, ncols. simpl. rewrite length_map.
  set (K := List.length (columns df)).
  intros [Hi|Hj].
  - rewrite (nth_overflow (map _ (seq 0 K))) by now rewrite length_map, length_seq.
    now destruct j.
  - destruct (Nat.lt_ge_cases i K) as [Hi|Hi].
    + rewrite (nth_map_seq _ _ i) by exact Hi.
      apply nth_overflow. now rewrite length_map, length_seq.
    + rewrite (nth_overflow (map _ (seq 0 K))) by now rewrite length_map, length_seq.
      now destruct j.
Qed.

(** [corr()] is symmetric: the two cells of a pair hold the one value that
    was computed for the pair. *)
Lemma corr_symmetric (df : DataFrame) (i j : nat) :
  corr_at (corr df) i j = corr_at (corr df) j i.
Proof.
  destruct (Nat.lt_ge_cases i (ncols df)) as [Hi|Hi];
    destruct (Nat.lt_ge_cases j (ncols df)) as [Hj|Hj].
  - rewrite !corr_at_entry by assumption. unfold corr_entry.
    now rewrite Nat.max_comm, Nat.min_comm.
  - rewrite !corr_at_outside; auto.
  - rewrite !corr_at_outside; auto.
  - rewrite !corr_at_outside; auto.
Qed.

Lemma nth_numeric_floats (df : DataFrame) (k : nat) :
  nth k (map (fun c => to_floats (snd c)) (numeric_part df)) []
  = to_floats (snd (nth k (numeric_part df) ("", Int64 []))).
Proof.
  exact (map_nth (fun c => to_floats (snd c)) (numeric_part df) ("", Int64 []) k).
Qed.

(** The accumulators of the kernel are the moments of the rows it counts:
    a row with a cell that is not finite changes nothing. *)
Lemma welford_fold_moments (rows : list (float * float)) (st : Welford) :
  let complete :=
    filter (fun r => PrimFloat.is_finite (fst r) && PrimFloat.is_finite (snd r))
           rows in
  let final := fold_left welford_step rows st in
  (ssqdm_x final, ssqdm_y final, covxy final)
  = moments complete (nobs st) (meanx st) (meany st)
            (ssqdm_x st) (ssqdm_y st) (covxy st) /\
  nobs final = nobs st + List.length complete.
Proof.
  cbv zeta. revert st. induction rows as [|[vx vy] rows IH]; intros st.
  - simpl. split; [reflexivity|lia].
  - cbn [fold_left filter fst snd].
    destruct (PrimFloat.is_finite vx && PrimFloat.is_finite vy) eqn:E.
    + destruct (IH (welford_step st (vx, vy))) as [Hm Hn]. rewrite Hm, Hn.
      unfold welford_step. rewrite E. simpl. split; [reflexivity|lia].
    + assert (Es : welford_step st (vx, vy) = st)
        by (unfold welford_step; now rewrite E).
      rewrite Es. apply IH.
Qed.

(** The kernel of [corr()] is Pearson's coefficient of the complete rows. *)
Lemma nancorr_pair_pearson (x y : list float) :
  nancorr_pair x y = pearson (complete_rows x y).
Proof.
  unfold nancorr_pair, pearson, welford.
  destruct (welford_fold_moments (combine x y) welford_init) as [Hm Hn].
  fold (complete_rows x y) in Hm, Hn. simpl in Hm, Hn.
  destruct (complete_rows x y) as [|r rows] eqn:Er.
  - simpl in Hn. now rewrite Hn.
  - simpl in Hn. rewrite Hn. simpl Nat.ltb. cbv iota.
    rewrite <- Hm.
    now destruct (PrimFloat.sqrt _ =? 0)%float.
Qed.

(** C3. With fewer than 2 numeric columns [analyze_correlations] returns
    [None]; with 2 or more it returns a matrix labelled by the numeric
    columns in their order, square, each cell holding Pearson's
    coefficient of the two numeric columns it stands for, taken over the
    rows in which both columns have a finite cell. *)
Theorem analyze_correlations_presence (df : DataFrame) :
  unique_labels df ->
  let numeric := numeric_part df in
  let n := List.length numeric in
  (n < 2 -> analyze_correlations df = None) /\
  (2 <= n ->
   exists m,
     analyze_correlations df = Some m /\
     corr_index m = map fst numeric /\
     List.length (corr_values m) = n /\
     Forall (fun row => List.length row = n) (corr_values m) /\
     forall i j, i < n -> j < n ->
       corr_at m i j
       = pearson
           (complete_rows
              (to_floats (snd (nth (Nat.max i j) numeric ("", Int64 []))))
              (to_floats (snd (nth (Nat.min i j) numeric ("", Int64 [])))))).
Proof.
  intros Hnd numeric n. subst numeric n.
  unfold analyze_correlations.
  assert (El : List.length (numeric_columns df) = List.length (numeric_part df))
    by (unfold numeric_columns; now rewrite length_map).
  rewrite El. split.
  - intros Hlt. apply Nat.ltb_lt in Hlt. now rewrite Hlt.
  - intros Hge. apply Nat.ltb_ge in Hge. rewrite Hge.
    rewrite (getitems_numeric df Hnd).
    set (sub := {| nrows := nrows df; columns := numeric_part df |}).
    exists (corr sub). split; [reflexivity|].
    split; [reflexivity|].
    split; [unfold corr; simpl; now rewrite !length_map, length_seq|].
    split.
    + unfold corr. simpl. apply Forall_forall. intros row Hrow.
      apply in_map_iff in Hrow as (i & <- & _).
      now rewrite !length_map, length_seq.
    + intros i j Hi Hj. rewrite corr_at_entry by exact Hi || exact Hj.
      unfold corr_entry. simpl. rewrite !nth_numeric_floats.
      apply nancorr_pair_pearson.
Qed.

Lemma analyze_correlations_presence_witness :
  unique_labels linear_frame /\
  exists m,
    analyze_correlations linear_frame = Some m /\
    corr_index m = ["x"; "up"; "down"; "w"] /\
    corr_at m 1 0 = 1%float /\
    corr_at m 2 0 = (-1)%float /\
    corr_at m 3 0 = 0.8%float /\
    corr_at m 2 3 = (-0.8)%float.
Proof.
  assert (H : unique_labels linear_frame) by distinct_labels.
  split; [exact H|].
  destruct (proj2 (analyze_correlations_presence linear_frame H))
    as (m & Hm & Hidx & _ & _ & Hcell).
  - simpl. lia.
  - exists m. split; [exact Hm|]. split; [exact Hidx|].
    repeat split; rewrite Hcell by (simpl; lia); vm_compute; reflexivity.
Defined.

Lemma welford_step_diagonal (st : Welford) (v : float) :
  welford_diagonal st -> welford_diagonal (welford_step st (v, v)).
Proof.
  intros (Hm & Hs & Hc). unfold welford_step.
  destruct (PrimFloat.is_finite v && PrimFloat.is_finite v);
    [|now repeat split].
  unfold welford_diagonal. simpl. rewrite Hm, Hs, Hc. now repeat split.
Qed.

Lemma welford_fold_diagonal (rows : list (float * float)) (st : Welford) :
  Forall (fun r => fst r = snd r) rows ->
  welford_diagonal st ->
  welford_diagonal (fold_left welford_step rows st).
Proof.
  revert st. induction rows as [|[a b] rows IH]; intros st Hrows Hst; simpl;
    [exact Hst|].
  inversion Hrows as [|? ? Hab Hrest]; subst. simpl in Hab. subst b.
  apply IH; [exact Hrest|]. now apply welford_step_diagonal.
Qed.

Lemma combine_diagonal {A} (x : list A) :
  Forall (fun r => fst r = snd r) (combine x x).
Proof. induction x as [|a x IH]; simpl; constructor; auto. Qed.

Lemma welford_self_diagonal (x : list float) : welford_diagonal (welford x x).
Proof.
  apply welford_fold_diagonal; [apply combine_diagonal|].
  now repeat split.
Qed.

(** While no row has been counted the accumulators are untouched. *)
Lemma welford_fold_untouched (rows : list (float * float)) (st : Welford) :
  nobs (fold_left welford_step rows st) = 0 ->
  fold_left welford_step rows st = st.
Proof.
  revert st. induction rows as [|[a b] rows IH]; intros st H; simpl in *;
    [reflexivity|].
  rewrite (IH _ H). rewrite (IH _ H) in H.
  unfold welford_step in *.
  destruct (PrimFloat.is_finite a && PrimFloat.is_finite b);
    [discriminate H|reflexivity].
Qed.

(** A column against itself: the rows that count are its finite cells. *)
Lemma complete_rows_self (x : list float) :
  List.length (complete_rows x x) = List.length (filter PrimFloat.is_finite x).
Proof.
  unfold complete_rows. induction x as [|a x IH]; simpl; [reflexivity|].
  destruct (PrimFloat.is_finite a); simpl; now rewrite IH.
Qed.

Lemma existsb_filter {A} (f : A -> bool) (l : list A) :
  existsb f l = negb (List.length (filter f l) <? 1)%nat.
Proof.
  induction l as [|a l IH]; simpl; [reflexivity|].
  destruct (f a); simpl; [reflexivity|exact IH].
Qed.

Lemma welford_self_moments (x : list float) :
  ssqdm_x (welford x x) = squared_deviations x /\
  nobs (welford x x) = List.length (filter PrimFloat.is_finite x).
Proof.
  unfold welford, squared_deviations.
  destruct (welford_fold_moments (combine x x) welford_init) as [Hm Hn].
  fold (complete_rows x x) in Hm, Hn. simpl in Hm, Hn.
  rewrite <- Hm, Hn. split; [reflexivity|apply complete_rows_self].
Qed.

Lemma nancorr_pair_diagonal (x : list float) :
  nancorr_pair x x = diagonal_value x.
Proof.
  unfold nancorr_pair, diagonal_value.
  destruct (welford_self_diagonal x) as (_ & Hs & Hc).
  destruct (welford_self_moments x) as [Hsq Hn].
  rewrite Hs, Hc, Hsq, Hn, existsb_filter.
  destruct (List.length _ <? 1)%nat; simpl; [reflexivity|].
  now destruct (PrimFloat.sqrt _ =? 0)%float.
Qed.

Lemma diagonal_value_one (x : list float) :
  let s := squared_deviations x in
  PrimFloat.is_finite s = true -> PrimFloat.is_zero s = false ->
  PrimFloat.sqrt (s * s) = s ->
  diagonal_value x = 1%float.
Proof.
  intros s Hfin Hz Hsqrt. unfold diagonal_value. fold s.
  destruct (existsb PrimFloat.is_finite x) eqn:En.
  - rewrite Hsqrt. unfold PrimFloat.is_zero in Hz.
    change zero with 0%float in Hz. rewrite Hz.
    now rewrite (div_self s Hfin Hz).
  - exfalso. rewrite existsb_filter, <- complete_rows_self in En.
    subst s. unfold squared_deviations in Hz.
    destruct (complete_rows x x); [discriminate Hz|discriminate En].
Qed.

(** A column whose values are all equal has no variance to divide by:
    its diagonal cell is NaN. *)
Lemma constant_column_diagonal :
  analyze_correlations constant_column_frame
  = Some {| corr_index := ["a"; "b"];
            corr_values := [[nan; nan]; [nan; 1]]%float |}.
Proof. reflexivity. Qed.

(** C6, as stated, fails, also for columns of nonzero variance: the
    diagonal cell is the quotient [s / sqrt(s * s)], and when [s * s]
    leaves the range of binary64 it is not 1.0.  For the column
    [0, 1e200] the sum [s] is infinite and the cell is NaN; for
    [0, 7e-81] the product [s * s] is subnormal and the cell is
    1.0020307996937119. *)
Lemma extreme_column_diagonal_not_one :
  analyze_correlations extreme_frame
  = Some {| corr_index := ["tiny"; "huge"];
            corr_values := [[1.0020307996937119; 0]; [0; nan]]%float |} /\
  varies [0; 7e-81]%float /\
  varies [0; 1e200]%float /\
  ~ unit_diagonal_claim extreme_frame.
Proof.
  assert (Hv : varies [0; 1e200]%float).
  { exists 0%float, 1e200%float. simpl. repeat split; auto. }
  split; [vm_compute; reflexivity|].
  split; [exists 0%float, 7e-81%float; simpl; repeat split; auto|].
  split; [exact Hv|].
  intros H. specialize (H _ eq_refl 1 (Nat.lt_succ_diag_r 1) Hv).
  apply (f_equal PrimFloat.is_nan) in H. vm_compute in H. discriminate H.
Qed.

(** C6, amended. A matrix that [analyze_correlations] returns is symmetric,
    and the diagonal cell of a column is computed from that column alone:
    with [s] the sum of the squared deviations of its finite cells, the
    cell is NaN when the column has no finite cell or when [sqrt(s * s)]
    is zero (a constant column), and the quotient [s / sqrt(s * s)]
    otherwise, as it comes; it is exactly 1.0, with nothing rounded,
    whenever [s] is finite, not zero and [sqrt(s * s)] gives [s] back. *)
Theorem correlation_matrix_symmetric_diagonal (df : DataFrame) (m : CorrMatrix) :
  unique_labels df ->
  analyze_correlations df = Some m ->
  (forall i j, corr_at m i j = corr_at m j i) /\
  (forall i, i < List.length (corr_index m) ->
     let x := to_floats (snd (nth i (numeric_part df) ("", Int64 []))) in
     let s := squared_deviations x in
     corr_at m i i = diagonal_value x /\
     (PrimFloat.is_finite s = true -> PrimFloat.is_zero s = false ->
      PrimFloat.sqrt (s * s) = s -> corr_at m i i = 1%float)).
Proof.
  intros Hnd Hm. unfold analyze_correlations in Hm.
  destruct (List.length (numeric_columns df) <? 2)%nat; [discriminate Hm|].
  injection Hm as <-. rewrite (getitems_numeric df Hnd).
  set (sub := {| nrows := nrows df; columns := numeric_part df |}).
  split; [apply corr_symmetric|].
  intros i Hi x s.
  assert (Hi' : i < ncols sub).
  { unfold corr, labels in Hi. simpl in Hi. now rewrite length_map in Hi. }
  assert (E : corr_at (corr sub) i i = diagonal_value x).
  { rewrite corr_at_entry by exact Hi'. unfold corr_entry. simpl.
    rewrite Nat.max_id, Nat.min_id, nth_numeric_floats.
    apply nancorr_pair_diagonal. }
  split; [exact E|].
  intros Hfin Hz Hsqrt. rewrite E. now apply diagonal_value_one.
Qed.

Lemma correlation_matrix_symmetric_diagonal_witness :
  unique_labels numeric_only_frame /\
  unique_labels extreme_frame /\
  (exists m, analyze_correlations numeric_only_frame = Some m /\
             corr_at m 0 2 = corr_at m 2 0 /\
             squared_deviations [1; 2; 3]%float = 2%float /\
             corr_at m 0 0 = 1%float) /\
  (exists m, analyze_correlations extreme_frame = Some m /\
             corr_at m 0 0 = 1.0020307996937119%float /\
             PrimFloat.is_nan (corr_at m 1 1) = true).
Proof.
  assert (H : unique_labels numeric_only_frame) by distinct_labels.
  assert (H' : unique_labels extreme_frame) by distinct_labels.
  split; [exact H|]. split; [exact H'|]. split.
  - exists (corr (getitems numeric_only_frame
                    (numeric_columns numeric_only_frame))).
    split; [reflexivity|].
    destruct (correlation_matrix_symmetric_diagonal numeric_only_frame _ H eq_refl)
      as [Hsym Hdiag].
    split; [apply Hsym|]. split; [reflexivity|].
    destruct (Hdiag 0) as [_ Hone]; [simpl; lia|].
    apply Hone; reflexivity.
  - exists (corr (getitems extreme_frame (numeric_columns extreme_frame))).
    split; [reflexivity|].
    destruct (correlation_matrix_symmetric_diagonal extreme_frame _ H' eq_refl)
      as [_ Hdiag].
    split.
    + destruct (Hdiag 0) as [E _]; [simpl; lia|].
      rewrite E. vm_compute. reflexivity.
    + destruct (Hdiag 1) as [E _]; [simpl; lia|].
      rewrite E. vm_compute. reflexivity.
Defined.

(** ** Substrings *)

Lemma prefix_split (sub s : string) :
  String.prefix sub s = true <-> exists after, s = (sub ++ after)%string.
Proof.
  revert s. induction sub as [|c sub IH]; intros s; simpl.
  - split; [intros _; now exists s|intros _; now destruct s].
  - destruct s as [|c' s]; [split; [discriminate|intros [? [=]]]|].
    simpl. destruct (Ascii.ascii_dec c c') as [Eq|Hne].
    + subst c'. rewrite IH. split; intros [after E]; exists after; congruence.
    + split; [discriminate|]. intros [after [= E _]]. congruence.
Qed.

Lemma contains_occurs (sub s : string) :
  contains sub s = true <-> occurs_in sub s.
Proof.
  unfold occurs_in. induction s as [|c s IH].
  - cbn [contains]. rewrite orb_false_r, prefix_split. split.
    + intros [after E]. now exists EmptyString, after.
    + intros ([|c b] & after & E); [now exists after|discriminate E].
  - cbn [contains]. rewrite orb_true_iff, prefix_split, IH. split.
    + intros [[after E]|(b & after & E)].
      * now exists EmptyString, after.
      * exists (String c b), after. simpl. now rewrite E.
    + intros ([|c' b] & after & E).
      * left. now exists after.
      * right. injection E as -> E. now exists b, after.
Qed.

Lemma lower_app (a b : string) :
  lower (a ++ b) = (lower a ++ lower b)%string.
Proof. induction a as [|c a IH]; simpl; [reflexivity|now rewrite IH]. Qed.

Lemma lower_app_inv (s x y : string) :
  lower s = (x ++ y)%string ->
  exists s1 s2, s = (s1 ++ s2)%string /\ lower s1 = x /\ lower s2 = y.
Proof.
  revert s. induction x as [|c x IH]; intros s H.
  - now exists EmptyString, s.
  - destruct s as [|c' s]; [discriminate H|].
    simpl in H. injection H as Hc H.
    destruct (IH s H) as (s1 & s2 & -> & <- & <-).
    exists (String c' s1), s2. simpl. now rewrite Hc.
Qed.

(** What [lower] makes of a character is that character, or the small
    letter of a capital. *)
Lemma lower_ascii_letter (l c : ascii) : lower_ascii c = l -> letter_of l c.
Proof.
  unfold lower_ascii, letter_of. intros H.
  destruct ((65 <=? nat_of_ascii c) && (nat_of_ascii c <=? 90))%nat eqn:E.
  - right. apply andb_true_iff in E as [E1 E2].
    apply Nat.leb_le in E1, E2. split; [lia|].
    rewrite <- H. apply nat_ascii_embedding. lia.
  - now left.
Qed.

Lemma letter_lower_ascii (l c : ascii) :
  lower_ascii l = l -> letter_of l c -> lower_ascii c = l.
Proof.
  intros Hl [->|[Hc Hn]]; [exact Hl|].
  unfold lower_ascii.
  assert (E : ((65 <=? nat_of_ascii c) && (nat_of_ascii c <=? 90))%nat = true).
  { apply andb_true_iff. split; apply Nat.leb_le; lia. }
  rewrite E, <- Hn. apply ascii_nat_embedding.
Qed.

(** A text spells a word without a capital exactly when [lower] turns it
    into that word. *)
Lemma spells_lower (word text : string) :
  lower word = word -> (spells word text <-> lower text = word).
Proof.
  revert text. induction word as [|l word IH]; intros text Hw.
  - destruct text; simpl; split; intros H; auto; try contradiction;
      discriminate H.
  - simpl in Hw. injection Hw as Hl Hw.
    destruct text as [|c text]; simpl; [split; [contradiction|discriminate]|].
    rewrite (IH text Hw). split.
    + intros [Hc Ht]. now rewrite (letter_lower_ascii l c Hl Hc), Ht.
    + intros [= Hc Ht]. split; [now apply lower_ascii_letter|exact Ht].
Qed.

(** The test of the code, [word in s.lower()], finds the word in whatever
    case it is written. *)
Lemma contains_lower_occurs (word s : string) :
  lower word = word ->
  (contains word (lower s) = true <-> occurs_ci word s).
Proof.
  intros Hw. rewrite contains_occurs. unfold occurs_in, occurs_ci. split.
  - intros (before & after & E).
    apply lower_app_inv in E as (s1 & s23 & -> & <- & E).
    apply lower_app_inv in E as (s2 & s3 & -> & E & <-).
    exists s1, s2, s3. split; [reflexivity|]. now apply spells_lower.
  - intros (before & mid & after & -> & Hsp).
    apply (spells_lower word mid Hw) in Hsp.
    exists (lower before), (lower after).
    now rewrite !lower_app, Hsp.
Qed.

(** ** value_counts *)

Lemma tally_add_get (u v : string) (t : list (string * nat)) :
  tally_get v (tally_add u t)
  = if String.eqb v u then S (tally_get v t) else tally_get v t.
Proof.
  unfold tally_get. induction t as [|[k n] t IH]; simpl.
  - now destruct (String.eqb v u).
  - destruct (String.eqb u k) eqn:Euk; simpl.
    + apply String.eqb_eq in Euk. subst k.
      now destruct (String.eqb v u).
    + destruct (String.eqb v k) eqn:Evk; [|exact IH].
      apply String.eqb_eq in Evk. subst k.
      rewrite String.eqb_sym in Euk. now rewrite Euk.
Qed.

Lemma tally_fold_get (v : string) (vals : list string) (t : list (string * nat)) :
  tally_get v (fold_left (fun t u => tally_add u t) vals t)
  = tally_get v t + value_occurrences v vals.
Proof.
  unfold value_occurrences. revert t. induction vals as [|u vals IH]; intros t; simpl.
  - lia.
  - rewrite IH, tally_add_get. destruct (String.eqb v u); simpl; lia.
Qed.

Lemma tally_add_keys (u : string) (t : list (string * nat)) (k : string) :
  In k (keys (tally_add u t)) <-> k = u \/ In k (keys t).
Proof.
  unfold keys. induction t as [|[k' n] t IH]; simpl.
  - intuition congruence.
  - destruct (String.eqb u k') eqn:E; simpl.
    + apply String.eqb_eq in E. subst k'. intuition congruence.
    + rewrite IH. intuition congruence.
Qed.

Lemma tally_add_ok (u : string) (t : list (string * nat)) :
  tally_ok t -> tally_ok (tally_add u t).
Proof.
  unfold tally_ok. induction t as [|[k n] t IH]; simpl; intros [Hnd Hpos].
  - split; repeat constructor; auto.
  - apply NoDup_cons_iff in Hnd as [Hk Hnd].
    apply Forall_cons_iff in Hpos as [Hn Hpos].
    destruct (String.eqb u k) eqn:E; simpl.
    + split; constructor; simpl; auto; lia.
    + destruct (IH (conj Hnd Hpos)) as [Hnd' Hpos'].
      split; constructor; auto.
      intros Hin. apply tally_add_keys in Hin as [->|Hin]; [|contradiction].
      now rewrite String.eqb_refl in E.
Qed.

Lemma tally_is_ok (vals : list string) : tally_ok (tally vals).
Proof.
  unfold tally.
  assert (H : tally_ok []) by (split; constructor).
  revert H. generalize (@nil (string * nat)).
  induction vals as [|u vals IH]; intros t Ht; simpl; [exact Ht|].
  apply IH. now apply tally_add_ok.
Qed.

(** The tally holds each value of the column with the number of its
    occurrences, and nothing else. *)
Lemma tally_counts (vals : list string) (v : string) (n : nat) :
  In (v, n) (tally vals) <-> n = value_occurrences v vals /\ 0 < n.
Proof.
  destruct (tally_is_ok vals) as [Hnd Hpos].
  pose proof (tally_fold_get v vals []) as Hget.
  fold (tally vals) in Hget. unfold tally_get at 2 in Hget. simpl in Hget.
  unfold tally_get in Hget. split.
  - intros Hin. rewrite (assoc_NoDup v _ n Hnd Hin) in Hget.
    split; [exact Hget|].
    rewrite Forall_forall in Hpos. exact (Hpos _ Hin).
  - intros [-> Hn]. apply assoc_In.
    destruct (assoc v (tally vals)) as [k|]; [now rewrite Hget|lia].
Qed.

Lemma insert_desc_perm (x : string * nat) (l : list (string * nat)) :
  Permutation (insert_desc x l) (x :: l).
Proof.
  induction l as [|y l IH]; simpl; [reflexivity|].
  destruct (snd y <=? snd x)%nat; [reflexivity|].
  rewrite IH. apply perm_swap.
Qed.

Lemma sort_desc_perm (l : list (string * nat)) : Permutation (sort_desc l) l.
Proof.
  unfold sort_desc. induction l as [|x l IH]; simpl; [reflexivity|].
  rewrite insert_desc_perm. now constructor.
Qed.

Lemma insert_desc_descending (x : string * nat) (l : list (string * nat)) :
  descending l -> descending (insert_desc x l).
Proof.
  unfold descending. induction l as [|y l IH]; simpl; intros Hl.
  - repeat constructor.
  - inversion Hl as [|? ? Hrest Hy]; subst.
    destruct (snd y <=? snd x)%nat eqn:E.
    + apply Nat.leb_le in E. constructor; [exact Hl|].
      constructor; [exact E|].
      eapply Forall_impl; [|exact Hy]. simpl. intros z Hz. lia.
    + apply Nat.leb_gt in E. constructor; [now apply IH|].
      apply (Permutation_Forall (Permutation_sym (insert_desc_perm x l))).
      constructor; [lia|exact Hy].
Qed.

Lemma sort_desc_descending (l : list (string * nat)) : descending (sort_desc l).
Proof.
  unfold sort_desc. induction l as [|x l IH]; simpl.
  - constructor.
  - now apply insert_desc_descending.
Qed.

(** The occurrences of a value among the cells are its occurrences among
    the cells that are not null. *)
Lemma occurrences_some (v : string) (cells : list (option string)) :
  occurrences v cells = value_occurrences v (some_values cells).
Proof.
  unfold occurrences, value_occurrences.
  induction cells as [|[x|] cells IH]; simpl; [reflexivity| |exact IH].
  destruct (String.eqb v x); simpl; now rewrite IH.
Qed.

(** What [value_counts()] holds for an object column: each non-null value
    once, with the number of its occurrences, the most frequent first. *)
Lemma value_counts_spec (cells : list (option string)) :
  let vc := value_counts (Object cells) in
  (forall v n, In (v, n) vc <->
               n = occurrences v cells /\ 0 < n) /\
  NoDup (keys vc) /\
  descending vc.
Proof.
  simpl. split; [|split].
  - intros v n. rewrite occurrences_some, <- tally_counts.
    split; apply Permutation_in;
      [apply sort_desc_perm|apply Permutation_sym, sort_desc_perm].
  - destruct (tally_is_ok (some_values cells)) as [Hnd _].
    unfold keys in *.
    eapply Permutation_NoDup; [|exact Hnd].
    apply Permutation_map, Permutation_sym, sort_desc_perm.
  - apply sort_desc_descending.
Qed.

(** The head of a descending list is a top list: nothing that was cut off
    is more frequent than something that was kept. *)
Lemma descending_head (k : nat) (l : list (string * nat)) :
  descending l ->
  descending (firstn k l) /\
  forall kept cut, In kept (firstn k l) -> In cut (skipn k l) ->
                   snd cut <= snd kept.
Proof.
  unfold descending. revert k. induction l as [|x l IH]; intros k Hl.
  - rewrite firstn_nil, skipn_nil. split; [constructor|contradiction].
  - destruct k as [|k]; simpl; [split; [constructor|contradiction]|].
    inversion Hl as [|? ? Hrest Hx]; subst.
    destruct (IH k Hrest) as [Hs Hcut]. split.
    + constructor; [exact Hs|].
      rewrite Forall_forall in *. intros y Hy. apply Hx.
      rewrite <- (firstn_skipn k l). apply in_or_app. now left.
    + intros kept cut [<-|Hk] Hc; [|now apply Hcut].
      rewrite Forall_forall in Hx. apply Hx.
      rewrite <- (firstn_skipn k l). apply in_or_app. now right.
Qed.

Lemma NoDup_firstn {A} (k : nat) (l : list A) : NoDup l -> NoDup (firstn k l).
Proof.
  intros H. rewrite <- (firstn_skipn k l) in H. now apply NoDup_app_remove_r in H.
Qed.

Lemma value_counts_head (k : nat) (cells : list (option string)) :
  top_counts k cells (firstn k (value_counts (Object cells))).
Proof.
  destruct (value_counts_spec cells) as (Hin & Hnd & Hdesc).
  set (vc := value_counts (Object cells)) in *.
  destruct (descending_head k vc Hdesc) as [Hhead Hcut].
  unfold top_counts, top_by. split; [apply firstn_le_length|].
  split; [exact Hhead|]. split; [|split].
  - unfold keys in *. rewrite <- firstn_map. now apply NoDup_firstn.
  - intros v n Hvn. apply Hin.
    rewrite <- (firstn_skipn k vc). apply in_or_app. now left.
  - intros v Hv Hnot.
    assert (Hvc : In (v, occurrences v cells) vc) by now apply Hin.
    rewrite <- (firstn_skipn k vc) in Hvc. apply in_app_or in Hvc as [Hk|Hs].
    + exfalso. apply Hnot. unfold keys.
      change v with (fst (v, occurrences v cells)). now apply in_map.
    + split.
      * destruct (Nat.le_gt_cases (List.length vc) k) as [Hle|Hgt].
        -- rewrite skipn_all2 in Hs by exact Hle. contradiction.
        -- rewrite length_firstn. lia.
      * intros kept Hkept. exact (Hcut kept _ Hkept Hs).
Qed.

(** ** The chart branches *)

(** The grid of the categorical chart: the bar charts of the first four
    candidates, in order, then hidden cells up to four. *)
Lemma categorical_figure_axes (df : DataFrame) (cats : list string) :
  fig_axes (categorical_figure df cats)
  = map (categorical_axes df) (firstn 4 cats)
    ++ repeat hidden_axes (4 - List.length (firstn 4 cats)).
Proof. destruct cats as [|c1 [|c2 [|c3 [|c4 rest]]]]; reflexivity. Qed.

Lemma distribution_figure_axes (df : DataFrame) (cols : list string) :
  fig_axes (distribution_figure df cols)
  = map (distribution_axes df) (firstn 4 cols)
    ++ repeat hidden_axes (4 - List.length (firstn 4 cols)).
Proof. destruct cols as [|c1 [|c2 [|c3 [|c4 rest]]]]; reflexivity. Qed.

Lemma time_series_figure_axes (df_copy : DataFrame) (date_col : string)
    (cols : list string) :
  fig_axes (time_series_figure df_copy date_col cols)
  = map (time_series_axes df_copy date_col) (firstn 3 cols) /\
  fig_rows (time_series_figure df_copy date_col cols)
  = List.length (firstn 3 cols) /\
  fig_cols (time_series_figure df_copy date_col cols) = 1.
Proof. destruct cols as [|c1 [|c2 [|c3 rest]]]; repeat split; reflexivity. Qed.

(** A filter over the labels that looks at the column of each label is a
    filter over the columns. *)
Lemma filter_labels (df : DataFrame) (keep : string -> option Series -> bool) :
  unique_labels df ->
  filter (fun c => keep c (getitem df c)) (labels df)
  = map fst (filter (fun c => keep (fst c) (Some (snd c))) (columns df)).
Proof.
  intros Hnd. unfold labels.
  assert (H : forall cs, incl cs (columns df) ->
              filter (fun c => keep c (getitem df c)) (map fst cs)
              = map fst (filter (fun c => keep (fst c) (Some (snd c))) cs)).
  { induction cs as [|c cs IH]; intros Hincl; simpl; [reflexivity|].
    rewrite (getitem_column df c Hnd (Hincl c (or_introl eq_refl))).
    rewrite IH by (intros x Hx; apply Hincl; now right).
    now destruct (keep (fst c) (Some (snd c))). }
  apply H, incl_refl.
Qed.

Lemma categorical_columns_filter (df : DataFrame) :
  unique_labels df ->
  categorical_columns df
  = filter (fun c => is_categorical c (getitem df c)) (labels df).
Proof.
  intros Hnd. rewrite (filter_labels df is_categorical Hnd).
  unfold categorical_columns, object_columns.
  induction (columns df) as [|[k s] cs IH]; simpl; [reflexivity|].
  destruct (is_object s); simpl; [|exact IH].
  destruct (contains "id" (lower k)); simpl; [exact IH|now rewrite IH].
Qed.

Lemma categorical_columns_In (df : DataFrame) (c : string) :
  unique_labels df ->
  In c (categorical_columns df) <->
  exists cells, getitem df c = Some (Object cells) /\
                ~ occurs_ci "id" c.
Proof.
  intros Hnd. rewrite (categorical_columns_filter df Hnd), filter_In.
  unfold is_categorical. split.
  - intros [_ H]. destruct (getitem df c) as [s|]; [|discriminate].
    apply andb_true_iff in H as [Hobj Hid].
    destruct s as [v|v|v|cells|v]; try discriminate. exists cells.
    split; [reflexivity|]. intros Hocc.
    apply (contains_lower_occurs "id" c eq_refl) in Hocc.
    now rewrite Hocc in Hid.
  - intros (cells & Hget & Hid). split.
    + unfold labels. change c with (fst (c, Object cells)).
      apply in_map. now apply getitem_In.
    + rewrite Hget. simpl.
      destruct (contains "id" (lower c)) eqn:E; [|reflexivity].
      exfalso. apply Hid. now apply (contains_lower_occurs "id" c eq_refl).
Qed.

Lemma Forall2_map_In {A B} (R : A -> B -> Prop) (f : A -> B) (l : list A) :
  (forall a, In a l -> R a (f a)) -> Forall2 R l (map f l).
Proof.
  induction l as [|a l IH]; intros H; simpl; constructor.
  - apply H. now left.
  - apply IH. intros b Hb. apply H. now right.
Qed.

Lemma categorical_figure_grid (df : DataFrame) (cats : list string) :
  categorical_figure df cats
  = {| fig_rows := 2; fig_cols := 2;
       fig_axes :=
         map (categorical_axes df) (firstn 4 cats)
         ++ repeat hidden_axes
              (4 - List.length (map (categorical_axes df) (firstn 4 cats))) |}.
Proof. destruct cats as [|c1 [|c2 [|c3 [|c4 rest]]]]; reflexivity. Qed.

Lemma distribution_figure_grid (df : DataFrame) (cols : list string) :
  distribution_figure df cols
  = {| fig_rows := 2; fig_cols := 2;
       fig_axes :=
         map (distribution_axes df) (firstn 4 cols)
         ++ repeat hidden_axes
              (4 - List.length (map (distribution_axes df) (firstn 4 cols))) |}.
Proof. destruct cols as [|c1 [|c2 [|c3 [|c4 rest]]]]; reflexivity. Qed.

(** C8. The categorical branch.  Its candidates are the object columns
    whose label does not contain "id", in whatever case it is written,
    in column order.  Without a candidate it returns nothing and writes
    nothing.  Otherwise it builds one 2 x 2 figure: the first (at most
    four) candidates, in order, each a visible chart titled after the
    column with the bars of its ten most frequent values, the most
    frequent first, and after them the cells left over, empty and not
    visible; when the backend renders the figure, the branch returns the
    one path [categorical_distributions.png] and that file is the one
    thing added to the output directory. *)
Theorem categorical_branch
    (backend : Figure -> string -> option exn)
    (df : DataFrame) (output_dir : string) (w : World) :
  unique_labels df ->
  let cats := categorical_columns df in
  let path := (output_dir ++ "/categorical_distributions.png")%string in
  let fig := categorical_figure df cats in
  let run := create_categorical_plots backend df output_dir w in
  (forall c, In c cats <->
             exists cells, getitem df c = Some (Object cells) /\
                           ~ occurs_ci "id" c) /\
  cats = filter (fun c => is_categorical c (getitem df c)) (labels df) /\
  (cats = [] -> run = (Ok [], w)) /\
  (cats <> [] ->
   (exists charts,
      fig = {| fig_rows := 2; fig_cols := 2;
               fig_axes :=
                 charts
                 ++ repeat {| plot := NoPlot; title := ""; xlabel := "";
                              ylabel := ""; visible := false |}
                           (4 - List.length charts) |} /\
      Forall2
        (fun c ax =>
           exists cells bars,
             getitem df c = Some (Object cells) /\
             ax = {| plot := Barh bars;
                     title := ("Top Values in " ++ c)%string;
                     xlabel := "Count"; ylabel := ""; visible := true |} /\
             top_counts 10 cells bars)
        (firstn 4 cats) charts) /\
   (backend fig path = None -> run = (Ok [path], (path, fig) :: w)) /\
   (forall e, backend fig path = Some e -> run = (Raise e, w))).
Proof.
  intros Hnd cats path fig run. subst run.
  split; [intros c; now apply categorical_columns_In|].
  split; [now apply categorical_columns_filter|].
  split.
  - intros E. unfold create_categorical_plots. fold cats. now rewrite E.
  - intros Hne. split; [|split].
    + exists (map (categorical_axes df) (firstn 4 cats)).
      split; [apply categorical_figure_grid|].
      apply Forall2_map_In. intros c Hc.
      assert (Hin : In c cats).
      { rewrite <- (firstn_skipn 4 cats). apply in_or_app. now left. }
      apply (categorical_columns_In df c Hnd) in Hin as (cells & Hget & _).
      exists cells, (firstn 10 (value_counts (Object cells))).
      split; [exact Hget|]. unfold categorical_axes. rewrite Hget.
      split; [reflexivity|]. apply value_counts_head.
    + intros Hok. unfold create_categorical_plots. fold cats.
      destruct cats as [|c cs]; [contradiction|].
      unfold bind, savefig, ret. fold path. subst fig. now rewrite Hok.
    + intros e Herr. unfold create_categorical_plots. fold cats.
      destruct cats as [|c cs]; [contradiction|].
      unfold bind, savefig, ret. fold path. subst fig. now rewrite Herr.
Qed.

Lemma categorical_branch_witness :
  unique_labels orders_frame /\
  categorical_columns orders_frame = ["Status"; "Order_Date"] /\
  create_categorical_plots always_renders orders_frame "out" []
  = (Ok ["out/categorical_distributions.png"],
     [("out/categorical_distributions.png",
       {| fig_rows := 2; fig_cols := 2;
          fig_axes :=
            [ {| plot := Barh [("open", 3); ("closed", 2)];
                 title := "Top Values in Status";
                 xlabel := "Count"; ylabel := ""; visible := true |};
              {| plot := Barh [("2024-01-01", 3); ("2024-01-02", 2);
                               ("soon", 1)];
                 title := "Top Values in Order_Date";
                 xlabel := "Count"; ylabel := ""; visible := true |};
              {| plot := NoPlot; title := ""; xlabel := ""; ylabel := "";
                 visible := false |};
              {| plot := NoPlot; title := ""; xlabel := ""; ylabel := "";
                 visible := false |} ] |})]).
Proof.
  assert (H : unique_labels orders_frame) by distinct_labels.
  split; [exact H|]. split; [reflexivity|].
  destruct (proj2 (proj2 (proj2
              (categorical_branch always_renders orders_frame "out" [] H))))
    as (_ & Hok & _).
  - discriminate.
  - rewrite (Hok eq_refl). vm_compute. reflexivity.
Defined.

(** *** Dates and groups *)

Lemma some_values_In {A} (a : A) (l : list (option A)) :
  In a (some_values l) <-> In (Some a) l.
Proof.
  induction l as [|[b|] l IH]; simpl.
  - reflexivity.
  - rewrite IH. split; intros [H|H]; auto; left; congruence.
  - rewrite IH. split; [auto|]. intros [H|H]; [discriminate|exact H].
Qed.

Lemma insert_key_In (k x : Z) (l : list Z) :
  In x (insert_key k l) <-> x = k \/ In x l.
Proof.
  induction l as [|k' l IH]; simpl; [intuition|].
  destruct (k <? k')%Z; simpl; [intuition|].
  destruct (k =? k')%Z eqn:E; simpl.
  - apply Z.eqb_eq in E. subst k'. intuition.
  - rewrite IH. intuition.
Qed.

Lemma insert_key_ascending (k : Z) (l : list Z) :
  StronglySorted Z.lt l -> StronglySorted Z.lt (insert_key k l).
Proof.
  induction l as [|k' l IH]; simpl; intros Hl; [repeat constructor|].
  inversion Hl as [|? ? Hrest Hk']; subst.
  destruct (k <? k')%Z eqn:Elt.
  - apply Z.ltb_lt in Elt. constructor; [exact Hl|].
    constructor; [exact Elt|].
    eapply Forall_impl; [|exact Hk']. simpl. intros z Hz. lia.
  - destruct (k =? k')%Z eqn:Eeq; [exact Hl|].
    apply Z.ltb_ge in Elt. apply Z.eqb_neq in Eeq.
    constructor; [now apply IH|].
    apply Forall_forall. intros x Hx. apply insert_key_In in Hx as [->|Hx].
    + lia.
    + rewrite Forall_forall in Hk'. now apply Hk'.
Qed.

(** The keys of a [groupby]: the non-null dates, each once, ascending. *)
Lemma group_keys_spec (dates : list (option Z)) :
  StronglySorted Z.lt (group_keys dates) /\
  forall k, In k (group_keys dates) <-> In (Some k) dates.
Proof.
  unfold group_keys. split.
  - induction (some_values dates) as [|k l IH]; simpl; [constructor|].
    now apply insert_key_ascending.
  - intros k. rewrite <- some_values_In.
    induction (some_values dates) as [|k' l IH]; simpl; [reflexivity|].
    rewrite insert_key_In, IH. intuition.
Qed.

(** The sum [group_mean] keeps is the compensated sum. *)
Lemma kahan_fold_compensated (xs : list float) (sum err : float) :
  fst (fold_left kahan_step xs (sum, err)) = compensated_sum xs sum err.
Proof.
  revert sum err. induction xs as [|x xs IH]; intros sum err; [reflexivity|].
  cbn [fold_left compensated_sum]. unfold kahan_step at 2. apply IH.
Qed.

Lemma kahan_mean_compensated (xs : list float) :
  kahan_mean xs = compensated_mean xs.
Proof.
  unfold kahan_mean, compensated_mean. destruct xs as [|x xs]; [reflexivity|].
  now rewrite kahan_fold_compensated.
Qed.

(** The values [group_mean] counts in a group are the non-null cells of
    the rows of that date. *)
Lemma group_rows_cells (dates : list (option Z)) (vals : list float) (k : Z) :
  filter (fun x => negb (PrimFloat.is_nan x)) (group_rows dates vals k)
  = cells_of_date dates vals k.
Proof.
  unfold group_rows, cells_of_date.
  induction (combine dates vals) as [|[[d|] x] rows IH]; simpl;
    [reflexivity| |exact IH].
  destruct (d =? k)%Z; simpl; [|exact IH].
  destruct (PrimFloat.is_nan x); simpl; now rewrite IH.
Qed.

Lemma groupby_mean_daily (dates : list (option Z)) (vals : list float) :
  daily_means dates vals
    (map (fun k => (k, group_mean dates vals k)) (group_keys dates)).
Proof.
  destruct (group_keys_spec dates) as [Hsorted Hin].
  unfold daily_means. rewrite map_map. simpl. rewrite map_id.
  split; [exact Hsorted|]. split; [exact Hin|].
  intros k m Hkm. apply in_map_iff in Hkm as (k' & [= <- <-] & _).
  unfold group_mean. now rewrite group_rows_cells, kahan_mean_compensated.
Qed.

(** The first element a filter keeps: nothing before it is kept. *)
Lemma filter_first {A} (keep : A -> bool) (l : list A) (x : A) (rest : list A) :
  filter keep l = x :: rest ->
  keep x = true /\
  exists before after,
    l = before ++ x :: after /\ forall y, In y before -> keep y = false.
Proof.
  induction l as [|a l IH]; simpl; [discriminate|].
  destruct (keep a) eqn:Ea.
  - intros [= -> _]. split; [exact Ea|].
    exists [], l. split; [reflexivity|contradiction].
  - intros H. destruct (IH H) as (Hx & before & after & -> & Hb).
    split; [exact Hx|]. exists (a :: before), after.
    split; [reflexivity|]. intros y [<-|Hy]; auto.
Qed.

Lemma setitem_labels (df : DataFrame) (col : string) (s : Series) :
  labels (setitem df col s) = labels df.
Proof.
  unfold labels, setitem. simpl. rewrite map_map. apply map_ext.
  intros c. now destruct (String.eqb col (fst c)).
Qed.

Lemma getitem_setitem_same (df : DataFrame) (col : string) (s : Series) :
  In col (labels df) -> getitem (setitem df col s) col = Some s.
Proof.
  unfold labels, getitem, setitem. simpl.
  induction (columns df) as [|[k a] cs IH]; simpl; [contradiction|].
  destruct (String.eqb col k) eqn:E; simpl; rewrite E; [reflexivity|].
  intros [->|H]; [now rewrite String.eqb_refl in E|now apply IH].
Qed.

Lemma getitem_setitem_other (df : DataFrame) (col c : string) (s : Series) :
  c <> col -> getitem (setitem df col s) c = getitem df c.
Proof.
  intros Hne. unfold getitem, setitem. simpl.
  induction (columns df) as [|[k a] cs IH]; simpl; [reflexivity|].
  destruct (String.eqb col k) eqn:E; simpl; [|now rewrite IH].
  apply String.eqb_eq in E. subst k.
  apply String.eqb_neq in Hne. now rewrite Hne.
Qed.

(** Once a column holds dates it is not a number: the numeric columns
    that remain are the others, in their order. *)
Lemma numeric_columns_setitem (df : DataFrame) (col : string) (s : Series) :
  is_number s = false ->
  numeric_columns (setitem df col s)
  = filter (fun c => negb (String.eqb c col)) (numeric_columns df).
Proof.
  intros Hs. unfold numeric_columns, setitem. simpl.
  induction (columns df) as [|[k a] cs IH]; simpl; [reflexivity|].
  destruct (String.eqb col k) eqn:E; simpl.
  - rewrite Hs. apply String.eqb_eq in E. subst k.
    destruct (is_number a); simpl; [|exact IH].
    now rewrite String.eqb_refl.
  - destruct (is_number a); simpl; [|exact IH].
    rewrite String.eqb_sym, E. simpl. now rewrite IH.
Qed.

Lemma getitem_label (df : DataFrame) (c : string) :
  In c (labels df) -> exists s, getitem df c = Some s.
Proof.
  unfold labels, getitem.
  induction (columns df) as [|[k a] cs IH]; simpl; [contradiction|].
  destruct (String.eqb c k) eqn:E; [eauto|].
  intros [->|H]; [now rewrite String.eqb_refl in E|now apply IH].
Qed.

Lemma numeric_columns_In (df : DataFrame) (c : string) :
  unique_labels df -> In c (numeric_columns df) ->
  exists col, getitem df c = Some col /\ is_number col = true.
Proof.
  intros Hnd Hin. unfold numeric_columns in Hin.
  apply in_map_iff in Hin as ([k col] & <- & Hin).
  apply filter_In in Hin as [Hin Hnum]. exists col.
  split; [exact (getitem_column df (k, col) Hnd Hin)|exact Hnum].
Qed.

Lemma names_a_date_test (c : string) :
  contains "date" (lower c) || contains "time" (lower c) = true
  <-> names_a_date c.
Proof.
  unfold names_a_date.
  now rewrite orb_true_iff,
    (contains_lower_occurs "date" c eq_refl),
    (contains_lower_occurs "time" c eq_refl).
Qed.

Lemma time_series_figure_grid (df_copy : DataFrame) (date_col : string)
    (cols : list string) :
  time_series_figure df_copy date_col cols
  = {| fig_rows := List.length (map (time_series_axes df_copy date_col)
                                    (firstn 3 cols));
       fig_cols := 1;
       fig_axes := map (time_series_axes df_copy date_col) (firstn 3 cols) |}.
Proof. destruct cols as [|c1 [|c2 [|c3 rest]]]; reflexivity. Qed.

(** C7. The time-series branch.  The date columns are the labels that
    contain "date" or "time", in whatever case they are written; without
    one the branch returns nothing and writes nothing.  Otherwise the
    first such label, in column order, is the date column: each of its
    cells goes through the date parser, a cell that does not parse
    becoming null; the numeric columns that remain, in column order, are
    plotted; if none remains the branch returns nothing.  Otherwise it
    builds one figure with one subplot per column for the first (at most
    three) of them, each titled after its column with one point per date,
    the dates ascending, holding the mean of the non-null cells of the
    column in the rows of that date; when the backend renders the figure
    the branch returns the one path [time_series_analysis.png] and that
    file is the one thing added to the output directory. *)
Theorem time_series_branch
    (backend : Figure -> string -> option exn)
    (parse : Cell -> option Z)
    (df : DataFrame) (output_dir : string) (w : World) :
  unique_labels df ->
  let path := (output_dir ++ "/time_series_analysis.png")%string in
  let run := create_time_series_plots backend parse df output_dir w in
  (forall c, In c (date_columns df) <-> In c (labels df) /\ names_a_date c) /\
  (date_columns df = [] -> run = (Ok [], w)) /\
  (forall date_col rest,
     date_columns df = date_col :: rest ->
     (exists before after,
        labels df = before ++ date_col :: after /\
        forall c, In c before -> ~ names_a_date c) /\
     exists s,
       getitem df date_col = Some s /\
       let dates := map (coerce_datetime parse) (cells s) in
       let df_copy := with_parsed_dates parse df date_col in
       let numeric_cols := numeric_columns df_copy in
       let fig := time_series_figure df_copy date_col numeric_cols in
       getitem df_copy date_col = Some (Datetime64 dates) /\
       numeric_cols
       = filter (fun c => negb (String.eqb c date_col)) (numeric_columns df) /\
       (numeric_cols = [] -> run = (Ok [], w)) /\
       (numeric_cols <> [] ->
        (exists charts,
           fig = {| fig_rows := List.length charts; fig_cols := 1;
                    fig_axes := charts |} /\
           Forall2
             (fun c ax =>
                exists col points,
                  getitem df c = Some col /\ is_number col = true /\
                  ax = {| plot := Line points;
                          title := (c ++ " Over Time")%string;
                          xlabel := "Date"; ylabel := c; visible := true |} /\
                  daily_means dates (to_floats col) points)
             (firstn 3 numeric_cols) charts) /\
        (backend fig path = None -> run = (Ok [path], (path, fig) :: w)) /\
        (forall e, backend fig path = Some e -> run = (Raise e, w)))).
Proof.
  intros Hnd path run. subst run.
  split.
  { intros c. unfold date_columns. rewrite filter_In.
    now rewrite names_a_date_test. }
  split.
  { intros E. unfold create_time_series_plots. now rewrite E. }
  intros date_col rest Hdc.
  assert (Hfirst := Hdc). unfold date_columns in Hfirst.
  apply filter_first in Hfirst as (Hmatch & before & after & Hlab & Hbefore).
  split.
  { exists before, after. split; [exact Hlab|].
    intros c Hc Hn. apply names_a_date_test in Hn.
    now rewrite (Hbefore c Hc) in Hn. }
  assert (Hin : In date_col (labels df)).
  { rewrite Hlab. apply in_or_app. right. now left. }
  destruct (getitem_label df date_col Hin) as [s Hs].
  exists s. split; [exact Hs|].
  intros dates df_copy numeric_cols fig.
  assert (Ecopy : df_copy = setitem df date_col (Datetime64 dates)).
  { subst df_copy. unfold with_parsed_dates. now rewrite Hs. }
  assert (Enum : numeric_cols
                 = filter (fun c => negb (String.eqb c date_col))
                          (numeric_columns df)).
  { subst numeric_cols. rewrite Ecopy. now apply numeric_columns_setitem. }
  assert (Hdate : getitem df_copy date_col = Some (Datetime64 dates)).
  { rewrite Ecopy. now apply getitem_setitem_same. }
  split; [exact Hdate|]. split; [exact Enum|].
  unfold create_time_series_plots. rewrite Hdc.
  fold df_copy. fold numeric_cols. split.
  { intros E. now rewrite E. }
  intros Hne. split; [|split].
  - exists (map (time_series_axes df_copy date_col) (firstn 3 numeric_cols)).
    split; [apply time_series_figure_grid|].
    apply Forall2_map_In. intros c Hc.
    assert (Hc' : In c numeric_cols).
    { rewrite <- (firstn_skipn 3 numeric_cols). apply in_or_app. now left. }
    rewrite Enum in Hc'. apply filter_In in Hc' as [Hnumc Hneq].
    apply negb_true_iff, String.eqb_neq in Hneq.
    destruct (numeric_columns_In df c Hnd Hnumc) as (col & Hcol & Hnumber).
    exists col, (map (fun k => (k, group_mean dates (to_floats col) k))
                     (group_keys dates)).
    split; [exact Hcol|]. split; [exact Hnumber|]. split.
    + unfold time_series_axes, groupby_mean. rewrite Hdate.
      rewrite Ecopy, (getitem_setitem_other df date_col c _ Hneq), Hcol.
      reflexivity.
    + apply groupby_mean_daily.
  - intros Hok. destruct numeric_cols as [|c cs]; [contradiction|].
    unfold bind, savefig, ret. fold path. fold fig. now rewrite Hok.
  - intros e Herr. destruct numeric_cols as [|c cs]; [contradiction|].
    unfold bind, savefig, ret. fold path. fold fig. now rewrite Herr.
Qed.

Lemma time_series_branch_witness :
  unique_labels orders_frame /\
  date_columns orders_frame = ["Order_Date"] /\
  create_time_series_plots always_renders sample_parse orders_frame "out" []
  = (Ok ["out/time_series_analysis.png"],
     [("out/time_series_analysis.png",
       {| fig_rows := 1; fig_cols := 1;
          fig_axes :=
            [ {| plot := Line [(1%Z, 0.19999999999999998%float);
                               (2%Z, 1.5%float)];
                 title := "Score Over Time";
                 xlabel := "Date"; ylabel := "Score"; visible := true |} ] |})]).
Proof.
  assert (H : unique_labels orders_frame) by distinct_labels.
  split; [exact H|]. split; [reflexivity|].
  destruct (proj2 (proj2
              (time_series_branch always_renders sample_parse orders_frame "out" [] H))
              "Order_Date" [] eq_refl)
    as (_ & s & Hs & _ & _ & _ & Hplot).
  destruct Hplot as (_ & Hok & _).
  - injection Hs as <-. discriminate.
  - injection Hs as <-. rewrite (Hok eq_refl). vm_compute. reflexivity.
Defined.

(** ** The visualization stage *)

Section Rendering.

Variable backend : Figure -> string -> option exn.

Lemma render_all_app (a b : list (Figure * string)) (w : World) :
  render_all backend (a ++ b) w
  = (xs <- render_all backend a ;;
     ys <- render_all backend b ;;
     ret (xs ++ ys)) w.
Proof.
  revert w. induction a as [|job a IH]; intros w; simpl.
  - unfold bind, ret. simpl. now destruct (render_all backend b w) as [[ys|e] w'].
  - unfold bind, savefig, ret in *.
    destruct (backend (fst job) (snd job)); [reflexivity|].
    rewrite IH.
    destruct (render_all backend a ((snd job, fst job) :: w)) as [[xs|e] w1];
      [|reflexivity].
    now destruct (render_all backend b w1) as [[ys|e] w2].
Qed.

Lemma render_all_rendered (jobs : list (Figure * string)) (w : World) :
  Forall (renders backend) jobs ->
  render_all backend jobs w = (Ok (map snd jobs), written jobs ++ w).
Proof.
  unfold written. revert w. induction jobs as [|job jobs IH]; intros w H; simpl.
  - reflexivity.
  - inversion H as [|? ? Hjob Hrest]; subst. unfold renders in Hjob.
    unfold bind, savefig, ret. rewrite Hjob, (IH _ Hrest).
    now rewrite <- app_assoc.
Qed.

Lemma render_all_failed (done rest : list (Figure * string))
    (job : Figure * string) (e : exn) (w : World) :
  Forall (renders backend) done ->
  backend (fst job) (snd job) = Some e ->
  render_all backend (done ++ job :: rest) w = (Raise e, written done ++ w).
Proof.
  intros Hdone Hjob. rewrite render_all_app.
  unfold bind. rewrite (render_all_rendered done w Hdone).
  simpl. unfold bind, savefig. now rewrite Hjob.
Qed.

(** Every chart renders, or there is a first one that does not. *)
Lemma first_failure (jobs : list (Figure * string)) :
  Forall (renders backend) jobs \/
  exists done job rest e,
    jobs = done ++ job :: rest /\
    Forall (renders backend) done /\
    backend (fst job) (snd job) = Some e.
Proof.
  induction jobs as [|job jobs IH]; [left; constructor|].
  destruct (backend (fst job) (snd job)) as [e|] eqn:E.
  - right. exists [], job, jobs, e. repeat split; auto.
  - destruct IH as [Hall|(done & j & rest & e & -> & Hdone & Hj)].
    + left. now constructor.
    + right. exists (job :: done), j, rest, e. repeat split; auto.
Qed.

End Rendering.

Lemma bind_run {A B} (m : M A) (k : A -> M B) (w : World) :
  bind m k w
  = match m w with
    | (Ok a, w') => k a w'
    | (Raise e, w') => (Raise e, w')
    end.
Proof. reflexivity. Qed.

Section Stage.

Variable backend : Figure -> string -> option exn.
Variable parse : Cell -> option Z.

Lemma heatmap_as_job (corr_matrix : option CorrMatrix)
    (output_dir : string) (w : World) :
  match corr_matrix with
  | Some m =>
      create_correlation_heatmap backend m
        (output_dir ++ "/correlation_heatmap.png")%string ;;;
      ret [(output_dir ++ "/correlation_heatmap.png")%string]
  | None => ret []
  end w
  = render_all backend (heatmap_job corr_matrix output_dir) w.
Proof.
  destruct corr_matrix as [m|]; [|reflexivity].
  simpl. unfold create_correlation_heatmap, bind, savefig, ret.
  now destruct (backend _ _).
Qed.

Lemma time_series_as_job (df : DataFrame) (output_dir : string) (w : World) :
  create_time_series_plots backend parse df output_dir w
  = render_all backend (time_series_job parse df output_dir) w.
Proof.
  unfold create_time_series_plots, time_series_job.
  destruct (date_columns df) as [|date_col rest]; [reflexivity|].
  destruct (numeric_columns (with_parsed_dates parse df date_col)) as [|c cs];
    [reflexivity|].
  simpl. unfold bind, savefig, ret. now destruct (backend _ _).
Qed.

Lemma distribution_as_job (df : DataFrame) (output_dir : string) (w : World) :
  create_distribution_plots backend df output_dir w
  = render_all backend (distribution_job df output_dir) w.
Proof.
  unfold create_distribution_plots, distribution_job.
  destruct (numeric_columns df) as [|c cs]; [reflexivity|].
  simpl. unfold bind, savefig, ret. now destruct (backend _ _).
Qed.

Lemma categorical_as_job (df : DataFrame) (output_dir : string) (w : World) :
  create_categorical_plots backend df output_dir w
  = render_all backend (categorical_job df output_dir) w.
Proof.
  unfold create_categorical_plots, categorical_job.
  destruct (categorical_columns df) as [|c cs]; [reflexivity|].
  simpl. unfold bind, savefig, ret. now destruct (backend _ _).
Qed.

(** The visualization stage renders the attempted charts one after the
    other, and does nothing else. *)
Lemma visualize_render_all (df : DataFrame) (output_dir : string) (w : World) :
  visualize backend parse df (analyze_correlations df) output_dir w
  = render_all backend (attempted_charts parse df output_dir) w.
Proof.
  unfold attempted_charts, visualize. cbv zeta.
  rewrite render_all_app, !bind_run, heatmap_as_job.
  destruct (render_all backend (heatmap_job _ _) w) as [[hs|e] w1]; [|reflexivity].
  rewrite !bind_run, time_series_as_job, render_all_app, bind_run.
  destruct (render_all backend (time_series_job _ _ _) w1) as [[ts|e] w2];
    [|reflexivity].
  rewrite !bind_run, distribution_as_job, render_all_app, bind_run.
  destruct (render_all backend (distribution_job _ _) w2) as [[ds|e] w3];
    [|reflexivity].
  rewrite !bind_run, categorical_as_job.
  destruct (render_all backend (categorical_job _ _) w3) as [[cs|e] w4];
    [|reflexivity].
  unfold ret. now rewrite <- !app_assoc.
Qed.

End Stage.

(** ** The orchestrator *)

(** C1, as stated, fails: no branch is guarded.  With a backend that fails
    on the histograms the run on the sales table writes the heat map and
    the time series, raises the backend's exception and returns no report;
    the categorical branch is not attempted. *)
Lemma render_failure_aborts_run :
  load_csv sales_reader sales_fs "sales.csv" = Ok sales_frame /\
  (forall fmt_fixed str_float str_frame,
     exists w',
       summarize_csv sales_reader sales_fs no_histograms sample_parse
         fmt_fixed str_float str_frame "sales.csv" "out" []
       = (Raise (RenderError "backend fault"), w') /\
       map fst w' = ["out/time_series_analysis.png";
                     "out/correlation_heatmap.png"]) /\
  ~ branch_failures_contained sales_reader sales_fs no_histograms sample_parse
      "sales.csv" "out" [].
Proof.
  split; [reflexivity|]. split.
  - intros fmt_fixed str_float str_frame.
    exists (snd (summarize_csv sales_reader sales_fs no_histograms sample_parse
                   fmt_fixed str_float str_frame "sales.csv" "out" [])).
    split; vm_compute; reflexivity.
  - intros H.
    destruct (H (fun _ _ => EmptyString) (fun _ => EmptyString)
                (fun _ => EmptyString) sales_frame eq_refl)
      as (report & w' & Hrun).
    vm_compute in Hrun. discriminate Hrun.
Qed.

(** C1, amended.  Once the dataset is loaded, [summarize_csv] returns a
    report exactly when every chart it attempts renders; the report then
    lists the artifacts of all attempted branches, in order, and the
    output directory holds their files.  When a branch fails to render,
    its exception leaves [summarize_csv]: no report is returned, no later
    branch is attempted, and the files written before it stay. *)
Theorem summarize_csv_rendering
    (read_csv : string -> ReadResult) (fs : FileSystem)
    (backend : Figure -> string -> option exn) (parse : Cell -> option Z)
    (fmt_fixed : nat -> float -> string) (str_float : float -> string)
    (str_frame : CorrMatrix -> string)
    (file_path output_dir : string) (w : World) (df : DataFrame) :
  load_csv read_csv fs file_path = Ok df ->
  let jobs := attempted_charts parse df output_dir in
  let run :=
    summarize_csv read_csv fs backend parse fmt_fixed str_float str_frame
      file_path output_dir w in
  let report charts :=
    format_summary_report fmt_fixed str_float str_frame df
      (analyze_data_quality df) (compute_statistics df)
      (analyze_correlations df) charts in
  (Forall (renders backend) jobs ->
   run = (Ok (report (map snd jobs)), written jobs ++ w)) /\
  (forall done job rest e,
     jobs = done ++ job :: rest ->
     Forall (renders backend) done ->
     backend (fst job) (snd job) = Some e ->
     run = (Raise e, written done ++ w)) /\
  (forall text w', run = (Ok text, w') -> Forall (renders backend) jobs).
Proof.
  intros Hload jobs run report.
  assert (Erun : run
                 = match render_all backend jobs w with
                   | (Ok charts, w') => (Ok (report charts), w')
                   | (Raise e, w') => (Raise e, w')
                   end).
  { subst run. unfold summarize_csv. rewrite bind_run. unfold lift.
    rewrite Hload. cbv zeta. rewrite bind_run, visualize_render_all.
    reflexivity. }
  assert (Hfail : forall done job rest e,
             jobs = done ++ job :: rest ->
             Forall (renders backend) done ->
             backend (fst job) (snd job) = Some e ->
             run = (Raise e, written done ++ w)).
  { intros done job rest e Hjobs Hdone Hjob. rewrite Erun, Hjobs.
    now rewrite (render_all_failed backend done rest job e w Hdone Hjob). }
  split; [|split; [exact Hfail|]].
  - intros Hall. rewrite Erun. now rewrite (render_all_rendered backend jobs w Hall).
  - intros text w' Hok.
    destruct (first_failure backend jobs)
      as [Hall|(done & job & rest & e & Hjobs & Hdone & Hjob)]; [exact Hall|].
    rewrite (Hfail done job rest e Hjobs Hdone Hjob) in Hok. discriminate Hok.
Qed.

Lemma summarize_csv_rendering_witness :
  load_csv sales_reader sales_fs "sales.csv" = Ok sales_frame /\
  map snd (attempted_charts sample_parse sales_frame "out")
  = ["out/correlation_heatmap.png"; "out/time_series_analysis.png";
     "out/distributions.png"; "out/categorical_distributions.png"] /\
  exists text w',
    summarize_csv sales_reader sales_fs always_renders sample_parse
      (fun _ _ => EmptyString) (fun _ => EmptyString) (fun _ => EmptyString)
      "sales.csv" "out" []
    = (Ok text, w') /\
    map fst w' = ["out/categorical_distributions.png"; "out/distributions.png";
                  "out/time_series_analysis.png"; "out/correlation_heatmap.png"].
Proof.
  split; [reflexivity|]. split; [reflexivity|].
  destruct (summarize_csv_rendering sales_reader sales_fs always_renders
              sample_parse (fun _ _ => EmptyString) (fun _ => EmptyString)
              (fun _ => EmptyString) "sales.csv" "out" [] sales_frame eq_refl)
    as (Hok & _).
  eexists. eexists. split.
  - apply Hok. repeat constructor.
  - vm_compute. reflexivity.
Defined.

(** ** The histograms *)

(** X1. The distribution branch.  Without a numeric column it returns
    nothing and writes nothing.  Otherwise it builds one 2 x 2 figure: the
    first (at most four) numeric columns, in column order, each a visible
    histogram of 30 bins over the non-null cells of the column, in their
    order, and after them the cells left over, empty and not visible; when
    the backend renders the figure the branch returns the one path
    [distributions.png] and that file is the one thing added to the output
    directory, and when the backend raises, the exception leaves the
    branch and nothing is written. *)
Theorem distribution_branch
    (backend : Figure -> string -> option exn)
    (df : DataFrame) (output_dir : string) (w : World) :
  unique_labels df ->
  let cols := numeric_columns df in
  let path := (output_dir ++ "/distributions.png")%string in
  let fig := distribution_figure df cols in
  let run := create_distribution_plots backend df output_dir w in
  (cols = [] -> run = (Ok [], w)) /\
  (cols <> [] ->
   (exists charts,
      fig = {| fig_rows := 2; fig_cols := 2;
               fig_axes :=
                 charts
                 ++ repeat {| plot := NoPlot; title := ""; xlabel := "";
                              ylabel := ""; visible := false |}
                           (4 - List.length charts) |} /\
      Forall2
        (fun c ax =>
           exists s data,
             getitem df c = Some s /\ is_number s = true /\
             ax = {| plot := Hist data 30;
                     title := ("Distribution of " ++ c)%string;
                     xlabel := c; ylabel := "Frequency"; visible := true |} /\
             data = filter (fun x => negb (PrimFloat.is_nan x)) (to_floats s) /\
             Forall (fun x => PrimFloat.is_nan x = false) data /\
             (forall v, s = Float64 v ->
                List.length data + null_count s = series_len s))
        (firstn 4 cols) charts) /\
   (backend fig path = None -> run = (Ok [path], (path, fig) :: w)) /\
   (forall e, backend fig path = Some e -> run = (Raise e, w))).
Proof.
  intros Hnd cols path fig run. subst run. split.
  - intros E. unfold create_distribution_plots. fold cols. now rewrite E.
  - intros Hne. split; [|split].
    + exists (map (distribution_axes df) (firstn 4 cols)).
      split; [apply distribution_figure_grid|].
      apply Forall2_map_In. intros c Hc.
      assert (Hin : In c cols).
      { rewrite <- (firstn_skipn 4 cols). apply in_or_app. now left. }
      destruct (numeric_columns_In df c Hnd Hin) as (s & Hget & Hnum).
      exists s, (valid_values s).
      split; [exact Hget|]. split; [exact Hnum|].
      unfold distribution_axes. rewrite Hget.
      split; [reflexivity|]. split; [reflexivity|].
      split; [apply valid_values_defined|].
      intros v ->. apply valid_values_float_count.
    + intros Hok. unfold create_distribution_plots. fold cols.
      destruct cols as [|c cs]; [contradiction|].
      unfold bind, savefig, ret. fold path. subst fig. now rewrite Hok.
    + intros e Herr. unfold create_distribution_plots. fold cols.
      destruct cols as [|c cs]; [contradiction|].
      unfold bind, savefig, ret. fold path. subst fig. now rewrite Herr.
Qed.

Lemma distribution_branch_witness :
  unique_labels orders_frame /\
  numeric_columns orders_frame = ["Score"] /\
  create_distribution_plots always_renders orders_frame "out" []
  = (Ok ["out/distributions.png"],
     [("out/distributions.png",
       {| fig_rows := 2; fig_cols := 2;
          fig_axes :=
            [ {| plot := Hist [0.1; 0.2; 0.3; 1.5; 2.5]%float 30;
                 title := "Distribution of Score";
                 xlabel := "Score"; ylabel := "Frequency"; visible := true |};
              {| plot := NoPlot; title := ""; xlabel := ""; ylabel := "";
                 visible := false |};
              {| plot := NoPlot; title := ""; xlabel := ""; ylabel := "";
                 visible := false |};
              {| plot := NoPlot; title := ""; xlabel := ""; ylabel := "";
                 visible := false |} ] |})]).
Proof.
  assert (H : unique_labels orders_frame) by distinct_labels.
  split; [exact H|]. split; [reflexivity|].
  destruct (proj2 (distribution_branch always_renders orders_frame "out" [] H))
    as (_ & Hok & _).
  - discriminate.
  - rewrite (Hok eq_refl). vm_compute. reflexivity.
Defined.

(** ** The files of a run *)

Lemma filter_none_existsb {A B} (keep : A -> bool) (l : list A) (some : list B) :
  match filter keep l with [] => [] | _ :: _ => some end
  = if existsb keep l then some else [].
Proof.
  induction l as [|a l IH]; simpl; [reflexivity|].
  now destruct (keep a).
Qed.

Lemma date_columns_labels (df : DataFrame) (c : string) :
  In c (date_columns df) -> In c (labels df).
Proof. unfold date_columns. intros H. now apply filter_In in H. Qed.

(** Whether dates can be read plays no part in what remains to plot: the
    numeric columns beside the date column. *)
Lemma numeric_columns_beside_dates
    (parse : Cell -> option Z) (df : DataFrame) (date_col : string) :
  In date_col (labels df) ->
  numeric_columns (with_parsed_dates parse df date_col)
  = filter (fun c => negb (String.eqb c date_col)) (numeric_columns df).
Proof.
  intros Hin. destruct (getitem_label df date_col Hin) as [s Hs].
  unfold with_parsed_dates. rewrite Hs.
  now apply numeric_columns_setitem.
Qed.

Lemma attempted_charts_plan
    (parse : Cell -> option Z) (df : DataFrame) (output_dir : string) :
  map snd (attempted_charts parse df output_dir)
  = map (in_dir output_dir) (chart_plan df).
Proof.
  unfold attempted_charts, chart_plan. rewrite !map_app. f_equal; [|f_equal; [|f_equal]].
  - unfold heatmap_job, analyze_correlations.
    destruct (List.length (numeric_columns df)) as [|[|n]]; reflexivity.
  - unfold time_series_job.
    destruct (date_columns df) as [|date_col rest] eqn:E; [reflexivity|].
    rewrite numeric_columns_beside_dates
      by (apply date_columns_labels; rewrite E; now left).
    rewrite <- (filter_none_existsb _ _ ["time_series_analysis.png"]).
    now destruct (filter _ (numeric_columns df)).
  - unfold distribution_job. now destruct (numeric_columns df).
  - unfold categorical_job. now destruct (categorical_columns df).
Qed.

Lemma summarize_csv_run
    (read_csv : string -> ReadResult) (fs : FileSystem)
    (backend : Figure -> string -> option exn) (parse : Cell -> option Z)
    (fmt_fixed : nat -> float -> string) (str_float : float -> string)
    (str_frame : CorrMatrix -> string)
    (file_path output_dir : string) (w : World) :
  summarize_csv read_csv fs backend parse fmt_fixed str_float str_frame
    file_path output_dir w
  = match load_csv read_csv fs file_path with
    | Ok df =>
        match render_all backend (attempted_charts parse df output_dir) w with
        | (Ok charts, w') =>
            (Ok (format_summary_report fmt_fixed str_float str_frame df
                   (analyze_data_quality df) (compute_statistics df)
                   (analyze_correlations df) charts), w')
        | (Raise e, w') => (Raise e, w')
        end
    | Raise e => (Raise e, w)
    end.
Proof.
  unfold summarize_csv. rewrite bind_run. unfold lift.
  destruct (load_csv read_csv fs file_path) as [df|e]; [|reflexivity].
  cbv zeta. rewrite bind_run, visualize_render_all. reflexivity.
Qed.

(** What a run of the charts leaves, however it ends: the files of the
    charts up to the first that failed, and the paths of all of them when
    none failed. *)
Lemma render_all_outcome
    (backend : Figure -> string -> option exn)
    (jobs : list (Figure * string)) (w : World) :
  exists done rest,
    jobs = done ++ rest /\
    snd (render_all backend jobs w) = written done ++ w /\
    forall charts, fst (render_all backend jobs w) = Ok charts ->
                   rest = [] /\ charts = map snd jobs.
Proof.
  destruct (first_failure backend jobs)
    as [Hall|(done & job & rest & e & -> & Hdone & Hjob)].
  - exists jobs, []. rewrite app_nil_r.
    rewrite (render_all_rendered backend jobs w Hall). simpl.
    split; [reflexivity|]. split; [reflexivity|].
    intros charts [= <-]. now split.
  - exists done, (job :: rest).
    rewrite (render_all_failed backend done rest job e w Hdone Hjob). simpl.
    split; [reflexivity|]. split; [reflexivity|]. discriminate.
Qed.

Lemma written_paths (jobs : list (Figure * string)) :
  map fst (written jobs) = rev (map snd jobs).
Proof. unfold written. now rewrite map_rev, map_map. Qed.

(** X2. The files of a successful run depend on the columns of the
    dataset alone.  When [summarize_csv] returns a report, the files it
    added to the output directory are, in the order they were written:
    [correlation_heatmap.png] when there are two numeric columns or more,
    [time_series_analysis.png] when a label names a date and there is a
    numeric column other than the first such label,
    [distributions.png] when there is a numeric column, and
    [categorical_distributions.png] when there is a categorical candidate;
    and the report was formatted with exactly these paths.  Neither the
    cells nor the date parser play a part in which files are written. *)
Theorem successful_run_files
    (read_csv : string -> ReadResult) (fs : FileSystem)
    (backend : Figure -> string -> option exn) (parse : Cell -> option Z)
    (fmt_fixed : nat -> float -> string) (str_float : float -> string)
    (str_frame : CorrMatrix -> string)
    (file_path output_dir : string) (w w' : World) (df : DataFrame)
    (report : string) :
  load_csv read_csv fs file_path = Ok df ->
  summarize_csv read_csv fs backend parse fmt_fixed str_float str_frame
    file_path output_dir w = (Ok report, w') ->
  let charts := map (in_dir output_dir) (chart_plan df) in
  (exists added, w' = added ++ w /\ map fst added = rev charts) /\
  report = format_summary_report fmt_fixed str_float str_frame df
             (analyze_data_quality df) (compute_statistics df)
             (analyze_correlations df) charts.
Proof.
  intros Hload Hrun charts. rewrite summarize_csv_run, Hload in Hrun.
  destruct (render_all_outcome backend (attempted_charts parse df output_dir) w)
    as (done & rest & Hjobs & Hw & Hok).
  destruct (render_all backend (attempted_charts parse df output_dir) w)
    as [[paths|e] w1] eqn:E; [|discriminate Hrun].
  injection Hrun as <- <-. simpl in Hw, Hok.
  destruct (Hok paths eq_refl) as [-> ->]. rewrite app_nil_r in Hjobs. subst done.
  subst charts. rewrite <- (attempted_charts_plan parse). split; [|reflexivity].
  exists (written (attempted_charts parse df output_dir)).
  split; [exact Hw|apply written_paths].
Qed.

Lemma successful_run_files_witness :
  chart_plan sales_frame = chart_names /\
  exists report w',
    summarize_csv sales_reader sales_fs always_renders sample_parse
      (fun _ _ => EmptyString) (fun _ => EmptyString) (fun _ => EmptyString)
      "sales.csv" "out" [] = (Ok report, w') /\
    map fst w'
    = ["out/categorical_distributions.png"; "out/distributions.png";
       "out/time_series_analysis.png"; "out/correlation_heatmap.png"].
Proof.
  split; [reflexivity|].
  pose (run := summarize_csv sales_reader sales_fs always_renders sample_parse
                 (fun _ _ => EmptyString) (fun _ => EmptyString)
                 (fun _ => EmptyString) "sales.csv" "out" []).
  assert (Hrun : run = (Ok (match fst run with
                            | Ok text => text
                            | Raise _ => EmptyString
                            end), snd run))
    by (vm_compute; reflexivity).
  destruct (successful_run_files sales_reader sales_fs always_renders
              sample_parse (fun _ _ => EmptyString) (fun _ => EmptyString)
              (fun _ => EmptyString) "sales.csv" "out" [] (snd run) sales_frame
              _ eq_refl Hrun)
    as [(added & Hw & Hadded) _].
  eexists. exists (snd run). split; [exact Hrun|].
  rewrite Hw, app_nil_r. exact Hadded.
Defined.

Lemma in_dir_inj (output_dir a b : string) :
  in_dir output_dir a = in_dir output_dir b -> a = b.
Proof.
  unfold in_dir. induction output_dir as [|c d IH]; simpl.
  - now intros [= ->].
  - intros [= H]. now apply IH.
Qed.

(** The plan of a dataset picks among the four charts, keeps their order,
    and never asks for the heat map or the time series without the
    histograms. *)
Lemma chart_plan_shape (df : DataFrame) :
  NoDup (chart_plan df) /\
  incl (chart_plan df) chart_names /\
  (In "correlation_heatmap.png" (chart_plan df) \/
   In "time_series_analysis.png" (chart_plan df) ->
   In "distributions.png" (chart_plan df)) /\
  (numeric_columns df = [] ->
   incl (chart_plan df) ["categorical_distributions.png"]).
Proof.
  unfold chart_plan, chart_names, incl.
  destruct (date_columns df) as [|d ds];
    [|destruct (existsb _ (numeric_columns df)) eqn:Ex];
    destruct (numeric_columns df) as [|a [|b l]]; try discriminate Ex;
    destruct (categorical_columns df) as [|c cs]; simpl;
    (split; [repeat (constructor; [simpl; intuition discriminate|]); constructor|]);
    (split; [intros x; intuition|]);
    (split; [intuition discriminate|]);
    intros E x; try discriminate E; intuition.
Qed.

Lemma in_dir_plan (output_dir name : string) (plan : list string) :
  In (in_dir output_dir name) (map (in_dir output_dir) plan) <-> In name plan.
Proof.
  rewrite in_map_iff. split.
  - intros (n & E & Hn). apply in_dir_inj in E. now subst n.
  - intros H. now exists name.
Qed.

Lemma in_dir_distinct (output_dir : string) (plan : list string) :
  NoDup plan -> NoDup (map (in_dir output_dir) plan).
Proof.
  induction plan as [|name plan IH]; simpl; intros H; [constructor|].
  apply NoDup_cons_iff in H as [Hname Hplan].
  constructor; [|now apply IH]. now rewrite in_dir_plan.
Qed.

Lemma visualize_returns
    (backend : Figure -> string -> option exn) (parse : Cell -> option Z)
    (df : DataFrame) (output_dir : string) (w w' : World) (charts : list string) :
  visualize backend parse df (analyze_correlations df) output_dir w
  = (Ok charts, w') ->
  charts = map (in_dir output_dir) (chart_plan df).
Proof.
  rewrite visualize_render_all. intros Hrun.
  destruct (render_all_outcome backend (attempted_charts parse df output_dir) w)
    as (done & rest & _ & _ & Hok).
  rewrite Hrun in Hok. destruct (Hok charts eq_refl) as [_ ->].
  apply attempted_charts_plan.
Qed.

(** X3. The list of charts the visualization stage returns.  No path
    occurs twice in it, so no chart of a run overwrites another; every
    path is one of the four chart files, directly under the output
    directory; the heat map and the time series never come without the
    histograms; and for a dataset without a numeric column the one chart
    there can be is the categorical one. *)
Theorem visualize_charts
    (backend : Figure -> string -> option exn) (parse : Cell -> option Z)
    (df : DataFrame) (output_dir : string) (w w' : World) (charts : list string) :
  visualize backend parse df (analyze_correlations df) output_dir w
  = (Ok charts, w') ->
  NoDup charts /\
  List.length charts <= 4 /\
  (forall p, In p charts ->
     exists name, In name chart_names /\ p = (output_dir ++ "/" ++ name)%string) /\
  (In (output_dir ++ "/correlation_heatmap.png")%string charts \/
   In (output_dir ++ "/time_series_analysis.png")%string charts ->
   In (output_dir ++ "/distributions.png")%string charts) /\
  (numeric_columns df = [] ->
   forall p, In p charts ->
     p = (output_dir ++ "/categorical_distributions.png")%string).
Proof.
  intros Hrun. apply visualize_returns in Hrun. subst charts.
  destruct (chart_plan_shape df) as (Hnd & Hincl & Hdep & Hcat).
  split; [|split; [|split; [|split]]].
  - now apply in_dir_distinct.
  - rewrite length_map.
    apply (NoDup_incl_length Hnd Hincl).
  - intros p Hp. apply in_map_iff in Hp as (name & <- & Hname).
    exists name. split; [now apply Hincl|reflexivity].
  - change (In (in_dir output_dir "correlation_heatmap.png")
               (map (in_dir output_dir) (chart_plan df)) \/
            In (in_dir output_dir "time_series_analysis.png")
               (map (in_dir output_dir) (chart_plan df)) ->
            In (in_dir output_dir "distributions.png")
               (map (in_dir output_dir) (chart_plan df))).
    rewrite !in_dir_plan. exact Hdep.
  - intros E p Hp. apply in_map_iff in Hp as (name & <- & Hname).
    destruct (Hcat E name Hname) as [<-|[]]. reflexivity.
Qed.

Lemma visualize_charts_witness :
  exists charts w',
    visualize always_renders sample_parse customer_frame
      (analyze_correlations customer_frame) "out" [] = (Ok charts, w') /\
    charts = ["out/distributions.png"; "out/categorical_distributions.png"] /\
    NoDup charts /\ List.length charts <= 4.
Proof.
  pose (run := visualize always_renders sample_parse customer_frame
                 (analyze_correlations customer_frame) "out" []).
  assert (Hrun : run = (Ok ["out/distributions.png";
                            "out/categorical_distributions.png"], snd run))
    by (vm_compute; reflexivity).
  eexists. exists (snd run). split; [exact Hrun|]. split; [reflexivity|].
  destruct (visualize_charts always_renders sample_parse customer_frame "out"
              [] _ _ Hrun) as (Hnd & Hlen & _).
  split; [exact Hnd|exact Hlen].
Defined.

(** X4. What a run can write.  However [summarize_csv] ends, with a
    report or with an exception of the loader or of the backend, the
    output directory afterwards is the one before with files added in front:
    at most four, all different, each one of the four chart files directly
    under [output_dir].  When the loader fails nothing is added. *)
Theorem summarize_csv_writes
    (read_csv : string -> ReadResult) (fs : FileSystem)
    (backend : Figure -> string -> option exn) (parse : Cell -> option Z)
    (fmt_fixed : nat -> float -> string) (str_float : float -> string)
    (str_frame : CorrMatrix -> string)
    (file_path output_dir : string) (w : World) :
  let run :=
    summarize_csv read_csv fs backend parse fmt_fixed str_float str_frame
      file_path output_dir w in
  exists added,
    snd run = added ++ w /\
    NoDup (map fst added) /\
    List.length added <= 4 /\
    (forall p, In p (map fst added) ->
       exists name, In name chart_names /\ p = (output_dir ++ "/" ++ name)%string) /\
    ((exists e, load_csv read_csv fs file_path = Raise e) -> added = []).
Proof.
  intros run. subst run. rewrite summarize_csv_run.
  destruct (load_csv read_csv fs file_path) as [df|e].
  - destruct (render_all_outcome backend (attempted_charts parse df output_dir) w)
      as (done & rest & Hjobs & Hw & _).
    exists (written done).
    assert (Hpaths : map snd done ++ map snd rest
                     = map (in_dir output_dir) (chart_plan df)).
    { now rewrite <- map_app, <- Hjobs, attempted_charts_plan. }
    destruct (chart_plan_shape df) as (Hnd & Hincl & _).
    assert (Hall : NoDup (map snd done ++ map snd rest)).
    { rewrite Hpaths. now apply in_dir_distinct. }
    split; [|split; [|split; [|split]]].
    + now destruct (render_all backend _ w) as [[charts|e] w1].
    + rewrite written_paths. apply NoDup_rev.
      now apply NoDup_app_remove_r in Hall.
    + assert (Hlen : List.length (map snd done ++ map snd rest) <= 4).
      { rewrite Hpaths, length_map. apply (NoDup_incl_length Hnd Hincl). }
      rewrite length_app, !length_map in Hlen.
      unfold written. rewrite length_rev, length_map. lia.
    + intros p Hp. rewrite written_paths in Hp. apply in_rev in Hp.
      assert (Hin : In p (map (in_dir output_dir) (chart_plan df))).
      { rewrite <- Hpaths. apply in_or_app. now left. }
      apply in_map_iff in Hin as (name & <- & Hname).
      exists name. split; [now apply Hincl|reflexivity].
    + intros [e He]. discriminate He.
  - exists []. simpl. split; [reflexivity|]. split; [constructor|].
    split; [lia|]. split; [contradiction|reflexivity].
Qed.

(** ** The exceptions of a run *)

(** X5. The exceptions of [summarize_csv].  An exception of the loader
    leaves [summarize_csv] as it is, before anything is analysed or
    drawn, and the output directory is untouched: the not-found error for
    a path that does not exist, the empty-file error for a file of zero
    bytes.  And an exception that leaves [summarize_csv] is either the
    loader's or the one the backend raised on a chart of the run: the
    analysis between the two raises nothing. *)
Theorem summarize_csv_exceptions
    (read_csv : string -> ReadResult) (fs : FileSystem)
    (backend : Figure -> string -> option exn) (parse : Cell -> option Z)
    (fmt_fixed : nat -> float -> string) (str_float : float -> string)
    (str_frame : CorrMatrix -> string)
    (file_path output_dir : string) (w : World) :
  let run :=
    summarize_csv read_csv fs backend parse fmt_fixed str_float str_frame
      file_path output_dir w in
  (forall e, load_csv read_csv fs file_path = Raise e -> run = (Raise e, w)) /\
  (fs file_path = None ->
   run = (Raise (FileNotFoundError ("CSV file not found: " ++ file_path)), w)) /\
  (fs file_path = Some EmptyString ->
   run = (Raise (ValueError "CSV file is empty"), w)) /\
  (forall e w', run = (Raise e, w') ->
     (load_csv read_csv fs file_path = Raise e /\ w' = w) \/
     exists df job,
       load_csv read_csv fs file_path = Ok df /\
       In job (attempted_charts parse df output_dir) /\
       backend (fst job) (snd job) = Some e).
Proof.
  intros run. subst run. rewrite summarize_csv_run.
  split; [|split; [|split]].
  - intros e He. now rewrite He.
  - intros Hfs. unfold load_csv. now rewrite Hfs.
  - intros Hfs. unfold load_csv. now rewrite Hfs.
  - intros e w'. destruct (load_csv read_csv fs file_path) as [df|e0].
    + intros Hrun. right. exists df.
      destruct (first_failure backend (attempted_charts parse df output_dir))
        as [Hall|(done & job & rest & e1 & Hjobs & Hdone & Hjob)].
      * rewrite (render_all_rendered backend _ w Hall) in Hrun. discriminate Hrun.
      * rewrite Hjobs in Hrun.
        rewrite (render_all_failed backend done rest job e1 w Hdone Hjob) in Hrun.
        injection Hrun as -> _. exists job.
        split; [reflexivity|]. split; [|exact Hjob].
        rewrite Hjobs. apply in_or_app. right. now left.
    + intros [= -> ->]. now left.
Qed.

(** ** The command line *)

(** X6. The script.  The usage line is what it prints, with status 1 and
    nothing read or written, exactly when no CSV path is given.  With a
    path, it runs [summarize_csv] on it, with the second argument as the
    output directory or the current directory when there is none, and
    ignores further arguments: it prints the report and ends with status 0
    when [summarize_csv] returns, and lets the exception through, with
    nothing printed, when [summarize_csv] raises; so a path that does
    not exist ends in the not-found error with nothing written. *)
Theorem main_outcomes
    (read_csv : string -> ReadResult) (fs : FileSystem)
    (backend : Figure -> string -> option exn) (parse : Cell -> option Z)
    (fmt_fixed : nat -> float -> string) (str_float : float -> string)
    (str_frame : CorrMatrix -> string)
    (argv : list string) (w : World) :
  let run := main read_csv fs backend parse fmt_fixed str_float str_frame in
  let summarize :=
    summarize_csv read_csv fs backend parse fmt_fixed str_float str_frame in
  (List.length argv <= 1 <-> fst (run argv w) = Exited 1 [USAGE]) /\
  (List.length argv <= 1 -> snd (run argv w) = w) /\
  (forall prog csv_path rest,
     argv = prog :: csv_path :: rest ->
     let output := hd "." rest in
     run argv w = run [prog; csv_path; output] w /\
     (forall report w', summarize csv_path output w = (Ok report, w') ->
                        run argv w = (Exited 0 [report], w')) /\
     (forall e w', summarize csv_path output w = (Raise e, w') ->
                   run argv w = (Uncaught e, w')) /\
     (fs csv_path = None ->
      run argv w
      = (Uncaught (FileNotFoundError ("CSV file not found: " ++ csv_path)), w))).
Proof.
  intros run summarize. subst run summarize.
  split; [|split].
  - destruct argv as [|prog [|csv_path rest]]; simpl; split; auto; try lia.
    destruct (summarize_csv _ _ _ _ _ _ _ _ _ _) as [[report|e] w'];
      discriminate.
  - destruct argv as [|prog [|csv_path rest]]; simpl; auto; lia.
  - intros prog csv_path rest -> output.
    assert (E : forall r,
               main read_csv fs backend parse fmt_fixed str_float str_frame
                 (prog :: csv_path :: r) w
               = match summarize_csv read_csv fs backend parse fmt_fixed
                         str_float str_frame csv_path (hd "." r) w with
                 | (Ok report, w') => (Exited 0 [report], w')
                 | (Raise e, w') => (Uncaught e, w')
                 end).
    { intros r. now destruct r. }
    split; [|split; [|split]].
    + now rewrite !E.
    + intros report w' H. rewrite E. fold output. now rewrite H.
    + intros e w' H. rewrite E. fold output. now rewrite H.
    + intros Hfs. rewrite E, summarize_csv_run. unfold load_csv. now rewrite Hfs.
Qed.

(** ** The report *)

Lemma str_app_assoc (a b c : string) :
  ((a ++ b) ++ c = a ++ (b ++ c))%string.
Proof. induction a as [|x a IH]; simpl; [reflexivity|]. now rewrite IH. Qed.

Lemma occurs_in_refl (s : string) : occurs_in s s.
Proof.
  exists EmptyString, EmptyString. simpl.
  induction s as [|c s IH]; simpl; [reflexivity|]. now rewrite <- IH.
Qed.

Lemma occurs_in_inside (sub s before after : string) :
  occurs_in sub s -> occurs_in sub (before ++ s ++ after).
Proof.
  intros (b & a & ->). exists (before ++ b)%string, (a ++ after)%string.
  now rewrite !str_app_assoc.
Qed.

Lemma occurs_in_after (sub s before : string) :
  occurs_in sub s -> occurs_in sub (before ++ s).
Proof.
  intros (b & a & ->). exists (before ++ b)%string, a.
  now rewrite !str_app_assoc.
Qed.

Lemma occurs_in_before (sub s after : string) :
  occurs_in sub s -> occurs_in sub (s ++ after).
Proof.
  intros (b & a & ->). exists b, (a ++ after)%string.
  now rewrite !str_app_assoc.
Qed.

(** A line of the report occurs in the report. *)
Lemma occurs_in_join (sep line : string) (lines : list string) :
  In line lines -> occurs_in line (join sep lines).
Proof.
  induction lines as [|s lines IH]; [contradiction|].
  intros Hin. destruct lines as [|s' lines].
  - destruct Hin as [->|[]]. apply occurs_in_refl.
  - change (join sep (s :: s' :: lines))
      with (s ++ sep ++ join sep (s' :: lines))%string.
    destruct Hin as [->|Hin].
    + apply occurs_in_before, occurs_in_refl.
    + apply occurs_in_after, occurs_in_after, IH, Hin.
Qed.

Lemma occurs_in_line (sep sub line : string) (lines : list string) :
  In line lines -> occurs_in sub line -> occurs_in sub (join sep lines).
Proof.
  intros Hin (b & a & ->).
  destruct (occurs_in_join sep _ lines Hin) as (b' & a' & ->).
  exists (b' ++ b)%string, (a ++ a')%string. now rewrite !str_app_assoc.
Qed.

Lemma occurs_in_trans (a b c : string) :
  occurs_in a b -> occurs_in b c -> occurs_in a c.
Proof. intros Hab (before & after & ->). now apply occurs_in_inside. Qed.

Lemma join_app (sep : string) (l1 l2 : list string) :
  l1 <> [] -> l2 <> [] ->
  join sep (l1 ++ l2) = (join sep l1 ++ sep ++ join sep l2)%string.
Proof.
  intros H1 H2. induction l1 as [|a l1 IH]; [contradiction|].
  destruct l1 as [|b l1].
  - simpl. now destruct l2.
  - change (join sep ((a :: b :: l1) ++ l2))
      with (a ++ sep ++ join sep ((b :: l1) ++ l2))%string.
    rewrite IH by discriminate.
    change (join sep (a :: b :: l1)) with (a ++ sep ++ join sep (b :: l1))%string.
    now rewrite !str_app_assoc.
Qed.

(** Consecutive lines of the report occur in it as they are, one under
    the other. *)
Lemma occurs_in_join_block (sep : string) (l1 block l2 : list string) :
  occurs_in (join sep block) (join sep (l1 ++ block ++ l2)).
Proof.
  destruct block as [|b block].
  - exists EmptyString, (join sep (l1 ++ l2)). reflexivity.
  - assert (H : occurs_in (join sep (b :: block))
                          (join sep ((b :: block) ++ l2))).
    { destruct l2 as [|c l2].
      - rewrite app_nil_r. apply occurs_in_refl.
      - rewrite join_app by discriminate. apply occurs_in_before, occurs_in_refl. }
    destruct l1 as [|a l1]; [exact H|].
    rewrite join_app by discriminate.
    now apply occurs_in_after, occurs_in_after.
Qed.

Lemma path_components_slash (cur a b : string) :
  path_components cur (a ++ String "/" b)
  = path_components cur a ++ path_components EmptyString b.
Proof.
  revert cur. induction a as [|c a IH]; intros cur; simpl; [reflexivity|].
  destruct (Ascii.eqb c "/"); simpl; now rewrite IH.
Qed.

(** [Path(dir + "/" + name).name] is [name], for a name that is a path
    part by itself. *)
Lemma basename_in_dir (output_dir name : string) :
  path_parts name = [name] -> basename (in_dir output_dir name) = name.
Proof.
  unfold basename, path_parts, in_dir. intros Hname.
  change ("/" ++ name)%string with (String "/" name).
  rewrite path_components_slash, filter_app, Hname.
  apply last_last.
Qed.

Lemma str_app_empty (a : string) : (a ++ EmptyString)%string = a.
Proof. induction a as [|c a IH]; simpl; [reflexivity|now rewrite IH]. Qed.

Lemma path_components_plain (cur name : string) :
  ~ occurs_in "/" name -> path_components cur name = [(cur ++ name)%string].
Proof.
  revert cur. induction name as [|c name IH]; intros cur Hno; simpl.
  - now rewrite str_app_empty.
  - destruct (Ascii.eqb c "/") eqn:E.
    + exfalso. apply Ascii.eqb_eq in E. subst c. apply Hno.
      now exists EmptyString, name.
    + rewrite IH.
      * now rewrite str_app_assoc.
      * intros (before & after & ->). apply Hno.
        now exists (String c before), after.
Qed.

(** [Path(dir + "/" + name).name] is [name], for every file name
    proper. *)
Lemma basename_plain (dir name : string) :
  plain_name name -> basename (dir ++ "/" ++ name) = name.
Proof.
  intros (Hne & Hdot & Hslash). apply (basename_in_dir dir name).
  unfold path_parts. rewrite (path_components_plain EmptyString name Hslash).
  simpl. apply String.eqb_neq in Hne, Hdot. now rewrite Hne, Hdot.
Qed.

Section ReportText.

Variable fmt_fixed : nat -> float -> string.
Variable str_float : float -> string.
Variable str_frame : CorrMatrix -> string.

(** The sections of the report, line by line. *)
Lemma report_sections
    (df : DataFrame) (quality : QualityReport)
    (stats : list (string * Stats)) (corr_matrix : option CorrMatrix)
    (charts : list string) :
  let report :=
    format_summary_report fmt_fixed str_float str_frame
      df quality stats corr_matrix charts in
  let rule := str_repeat "=" 60 in
  (exists body,
     report = (rule ++ newline ++ "📊 DATA OVERVIEW" ++ newline ++ rule
               ++ newline ++ body ++ newline ++ rule)%string) /\
  occurs_in "DATA OVERVIEW" report /\
  occurs_in "DATA QUALITY" report /\
  occurs_in "COMPREHENSIVE ANALYSIS COMPLETE" report /\
  occurs_in ("Rows: " ++ fmt_commas (nrows df) ++ " | Columns: "
             ++ str_nat (ncols df)) report /\
  (forall c s, In (c, s) (columns df) ->
     occurs_in ("  • " ++ c ++ ": " ++ dtype_name s) report) /\
  (is_complete quality = true ->
   occurs_in "No missing values - dataset is complete!" report) /\
  (is_complete quality = false ->
   occurs_in ("Missing values: " ++ fmt_commas (total_missing quality)) report /\
   forall col info, In (col, info) (missing_by_column quality) ->
     occurs_in (col ++ ": " ++ fmt_commas (count info)) report) /\
  (stats <> [] ->
   occurs_in "NUMERICAL ANALYSIS" report /\
   forall col st, In (col, st) stats ->
     occurs_in (col ++ ":" ++ newline ++ "  • Mean: " ++ str_float (s_mean st))
               report) /\
  (forall m, corr_matrix = Some m ->
   occurs_in "CORRELATIONS" report /\ occurs_in (str_frame m) report) /\
  (charts <> [] ->
   occurs_in "VISUALIZATIONS CREATED" report /\
   forall chart, In chart charts ->
     occurs_in ("  ✓ " ++ basename chart) report).
Proof.
  intros report rule. subst report. unfold format_summary_report.
  set (types := map (fun c => ("  • " ++ fst c ++ ": " ++ dtype_name (snd c))%string)
                    (columns df)).
  set (foot := [(newline ++ str_repeat "=" 60)%string;
                "✅ COMPREHENSIVE ANALYSIS COMPLETE"; str_repeat "=" 60]).
  set (head := [str_repeat "=" 60; "📊 DATA OVERVIEW"; str_repeat "=" 60;
                ("Rows: " ++ fmt_commas (nrows df) ++ " | Columns: "
                 ++ str_nat (ncols df))%string;
                (newline ++ "Columns: " ++ join ", " (labels df))%string;
                (newline ++ "📋 DATA TYPES:")%string]).
  set (qtitle := [(newline ++ "🔍 DATA QUALITY:")%string]).
  set (summary := head ++ types ++ qtitle ++ quality_lines fmt_fixed quality
                  ++ stats_lines str_float stats ++ corr_lines str_frame corr_matrix
                  ++ chart_lines charts ++ foot).
  assert (Hline : forall sub line,
             In line summary -> occurs_in sub line ->
             occurs_in sub (join newline summary)).
  { intros sub line. apply occurs_in_line. }
  assert (Hin : forall line,
             In line head \/ In line types \/ In line qtitle \/
             In line (quality_lines fmt_fixed quality) \/
             In line (stats_lines str_float stats) \/
             In line (corr_lines str_frame corr_matrix) \/
             In line (chart_lines charts) \/ In line foot ->
             In line summary).
  { intros line. unfold summary. now rewrite !in_app_iff. }
  split; [|split; [|split; [|split; [|split; [|split; [|split; [|split;
    [|split; [|split]]]]]]]]].
  - set (mid := tl (tl (tl head))
                ++ (types ++ qtitle ++ quality_lines fmt_fixed quality
                    ++ stats_lines str_float stats
                    ++ corr_lines str_frame corr_matrix ++ chart_lines charts)
                ++ [(newline ++ str_repeat "=" 60)%string;
                    "✅ COMPREHENSIVE ANALYSIS COMPLETE"]).
    assert (Es : summary = [rule; "📊 DATA OVERVIEW"; rule] ++ mid ++ [rule]).
    { unfold summary, mid, head, foot. cbn [tl app].
      rewrite <- !app_assoc. reflexivity. }
    exists (join newline mid). rewrite Es.
    rewrite join_app; [|discriminate|now destruct mid].
    rewrite join_app; [|unfold mid, head; discriminate|discriminate].
    cbn [join]. now rewrite !str_app_assoc.
  - apply (Hline _ "📊 DATA OVERVIEW"); [apply Hin; left; simpl; auto|].
    now exists "📊 ", EmptyString.
  - apply (Hline _ (newline ++ "🔍 DATA QUALITY:")%string);
      [apply Hin; do 2 right; left; simpl; auto|].
    now exists (newline ++ "🔍 ")%string, ":".
  - apply (Hline _ "✅ COMPREHENSIVE ANALYSIS COMPLETE");
      [apply Hin; do 7 right; simpl; auto|].
    now exists "✅ ", EmptyString.
  - apply (Hline _ ("Rows: " ++ fmt_commas (nrows df) ++ " | Columns: "
                    ++ str_nat (ncols df))%string);
      [apply Hin; left; simpl; auto|apply occurs_in_refl].
  - intros c s Hc.
    apply (Hline _ ("  • " ++ c ++ ": " ++ dtype_name s)%string).
    + apply Hin. right. left. unfold types. apply in_map_iff. now exists (c, s).
    + apply occurs_in_refl.
  - intros Hq.
    apply (Hline _ "✓ No missing values - dataset is complete!").
    + apply Hin. do 3 right. left. unfold quality_lines. rewrite Hq. now left.
    + now exists "✓ ", EmptyString.
  - intros Hq. split.
    + eapply Hline.
      * apply Hin. do 3 right. left. unfold quality_lines. rewrite Hq. now left.
      * exists EmptyString. eexists. rewrite !str_app_assoc. reflexivity.
    + intros col info Hinfo. eapply Hline.
      * apply Hin. do 3 right. left. unfold quality_lines. rewrite Hq.
        apply in_or_app. right. apply in_map_iff. exists (col, info).
        split; [reflexivity|exact Hinfo].
      * exists "  • ". eexists. rewrite !str_app_assoc. reflexivity.
  - intros Hs.
    pose (entry := fun cs : string * Stats =>
            [(newline ++ fst cs ++ ":")%string;
             ("  • Mean: " ++ str_float (s_mean (snd cs)))%string;
             ("  • Std Dev: " ++ str_float (s_std (snd cs)))%string;
             ("  • Range: " ++ str_float (s_min (snd cs)) ++ " - "
              ++ str_float (s_max (snd cs)))%string;
             ("  • Median: " ++ str_float (s_50 (snd cs)))%string]).
    assert (E : stats_lines str_float stats
                = [(newline ++ "📈 NUMERICAL ANALYSIS:")%string]
                  ++ flat_map entry stats).
    { unfold stats_lines. now destruct stats. }
    split.
    + apply (Hline _ (newline ++ "📈 NUMERICAL ANALYSIS:")%string).
      * apply Hin. do 4 right. left. rewrite E. now left.
      * now exists (newline ++ "📈 ")%string, ":".
    + intros col st Hst. apply in_split in Hst as (s1 & s2 & ->).
      apply (occurs_in_trans _ (join newline (entry (col, st)))).
      * exists newline. eexists. unfold entry. cbn [join fst snd].
        rewrite !str_app_assoc. reflexivity.
      * assert (Es : summary
                     = (head ++ types ++ qtitle ++ quality_lines fmt_fixed quality
                        ++ [(newline ++ "📈 NUMERICAL ANALYSIS:")%string]
                        ++ flat_map entry s1)
                       ++ entry (col, st)
                       ++ (flat_map entry s2
                           ++ corr_lines str_frame corr_matrix
                           ++ chart_lines charts ++ foot)).
        { unfold summary. rewrite E, flat_map_app. cbn [flat_map].
          rewrite <- !app_assoc. reflexivity. }
        rewrite Es. apply occurs_in_join_block.
  - intros m ->. split.
    + apply (Hline _ (newline ++ "🔗 CORRELATIONS:")%string);
        [apply Hin; do 5 right; left; simpl; auto|].
      now exists (newline ++ "🔗 ")%string, ":".
    + apply (Hline _ (str_frame m)); [apply Hin; do 5 right; left; simpl; auto|].
      apply occurs_in_refl.
  - intros Hc.
    assert (E : chart_lines charts
                = [(newline ++ "📊 VISUALIZATIONS CREATED:")%string]
                  ++ map (fun chart => ("  ✓ " ++ basename chart)%string) charts).
    { unfold chart_lines. now destruct charts. }
    split.
    + apply (Hline _ (newline ++ "📊 VISUALIZATIONS CREATED:")%string).
      * apply Hin. do 6 right. left. rewrite E. now left.
      * now exists (newline ++ "📊 ")%string, ":".
    + intros chart Hchart. apply (Hline _ ("  ✓ " ++ basename chart)%string).
      * apply Hin. do 6 right. left. rewrite E. right.
        apply in_map_iff. now exists chart.
      * apply occurs_in_refl.
Qed.

(** X7. What the report holds.  Whatever it is given,
    [format_summary_report] returns a text that opens with the rule of 60
    [=] and the overview title and closes with the rule; that names the
    row count with thousands separators and the column count; that has a
    line for every column with its label and its type ([int64],
    [float64], [bool], [object] or [datetime64[ns]]); that says the
    dataset is complete when the quality report says so, and otherwise
    gives the total of missing values and a count for every column of
    [missing_by_column]; that has the numerical section, with the mean of
    every column of the table, when the table is not empty; the
    correlation section, with the matrix, when there is a matrix; and the
    visualization section when there is a chart, with a line for every
    chart that holds its file name: what follows the last slash of its
    path. *)
Theorem report_contents
    (df : DataFrame) (quality : QualityReport)
    (stats : list (string * Stats)) (corr_matrix : option CorrMatrix)
    (charts : list string) :
  let report :=
    format_summary_report fmt_fixed str_float str_frame
      df quality stats corr_matrix charts in
  (exists body,
     report = (rule60 ++ newline ++ "📊 DATA OVERVIEW" ++ newline ++ rule60
               ++ newline ++ body ++ newline ++ rule60)%string) /\
  occurs_in "DATA OVERVIEW" report /\
  occurs_in "DATA QUALITY" report /\
  occurs_in "COMPREHENSIVE ANALYSIS COMPLETE" report /\
  occurs_in ("Rows: " ++ fmt_commas (nrows df) ++ " | Columns: "
             ++ str_nat (ncols df)) report /\
  (forall c s, In (c, s) (columns df) ->
     occurs_in ("  • " ++ c ++ ": "
                ++ match s with
                   | Int64 _ => "int64"
                   | Float64 _ => "float64"
                   | Boolean _ => "bool"
                   | Object _ => "object"
                   | Datetime64 _ => "datetime64[ns]"
                   end) report) /\
  (is_complete quality = true ->
   occurs_in "No missing values - dataset is complete!" report) /\
  (is_complete quality = false ->
   occurs_in ("Missing values: " ++ fmt_commas (total_missing quality)) report /\
   forall col info, In (col, info) (missing_by_column quality) ->
     occurs_in (col ++ ": " ++ fmt_commas (count info)) report) /\
  (stats <> [] ->
   occurs_in "NUMERICAL ANALYSIS" report /\
   forall col st, In (col, st) stats ->
     occurs_in (col ++ ":" ++ newline ++ "  • Mean: " ++ str_float (s_mean st))
               report) /\
  (forall m, corr_matrix = Some m ->
   occurs_in "CORRELATIONS" report /\ occurs_in (str_frame m) report) /\
  (charts <> [] ->
   occurs_in "VISUALIZATIONS CREATED" report /\
   forall dir name, In (dir ++ "/" ++ name)%string charts -> plain_name name ->
     occurs_in ("  ✓ " ++ name) report).
Proof.
  intros report.
  destruct (report_sections df quality stats corr_matrix charts)
    as (Hrule & Hov & Hq & Hend & Hrows & Htypes & Hcomplete & Hmissing
        & Hstats & Hcorr & Hcharts).
  fold report in Hrule, Hov, Hq, Hend, Hrows, Htypes, Hcomplete, Hmissing,
    Hstats, Hcorr, Hcharts.
  split; [exact Hrule|]. split; [exact Hov|]. split; [exact Hq|].
  split; [exact Hend|]. split; [exact Hrows|]. split.
  { intros c s Hc. specialize (Htypes c s Hc). now destruct s. }
  split; [exact Hcomplete|]. split; [exact Hmissing|].
  split; [exact Hstats|]. split; [exact Hcorr|].
  intros Hne. destruct (Hcharts Hne) as [Htitle Hnames].
  split; [exact Htitle|]. intros dir name Hin Hname.
  rewrite <- (basename_plain dir name Hname). now apply Hnames.
Qed.

(** A line of one of the sections is a line of the report. *)
Lemma report_line_occurs
    (df : DataFrame) (quality : QualityReport)
    (stats : list (string * Stats)) (corr_matrix : option CorrMatrix)
    (charts : list string) (sub line : string) :
  In line ["📊 DATA OVERVIEW"; (newline ++ "🔍 DATA QUALITY:")%string] \/
  In line (quality_lines fmt_fixed quality) \/
  In line (stats_lines str_float stats) \/
  In line (corr_lines str_frame corr_matrix) \/
  In line (chart_lines charts) ->
  occurs_in sub line ->
  occurs_in sub (format_summary_report fmt_fixed str_float str_frame
                   df quality stats corr_matrix charts).
Proof.
  intros Hin. unfold format_summary_report. apply occurs_in_line.
  rewrite !in_app_iff. simpl In in *. intuition.
Qed.

End ReportText.

(** The report names a chart by its file name, whatever the directory. *)
Lemma basename_chart (output_dir name : string) :
  In name chart_names -> basename (in_dir output_dir name) = name.
Proof.
  intros Hname. apply basename_in_dir.
  destruct Hname as [<-|[<-|[<-|[<-|[]]]]]; reflexivity.
Qed.

Lemma chart_lines_plan (output_dir : string) (plan : list string) :
  incl plan chart_names ->
  chart_lines (map (in_dir output_dir) plan)
  = match plan with
    | [] => []
    | _ => (newline ++ "📊 VISUALIZATIONS CREATED:")%string
           :: map (fun name => ("  ✓ " ++ name)%string) plan
    end.
Proof.
  intros Hincl. destruct plan as [|n plan]; [reflexivity|].
  unfold chart_lines. cbn [map app]. f_equal.
  rewrite (basename_chart output_dir n) by (apply Hincl; now left).
  f_equal. rewrite map_map. apply map_ext_in. intros name Hname.
  rewrite (basename_chart output_dir name) by (apply Hincl; now right).
  reflexivity.
Qed.

(** With a numeric column the table of statistics is not empty. *)
Lemma compute_statistics_some (df : DataFrame) :
  numeric_columns df <> [] -> compute_statistics df <> [].
Proof.
  intros Hne.
  assert (Hkeep : forall cols d,
             d <> [] -> fold_left (stats_step df) cols d <> []).
  { induction cols as [|c cols IH]; intros d Hd; simpl; [exact Hd|].
    apply IH. unfold stats_step. destruct (getitem df c); [|exact Hd].
    destruct d as [|[k a] d]; [contradiction|].
    simpl. now destruct (String.eqb c k). }
  unfold compute_statistics.
  destruct (numeric_columns df) as [|c cols] eqn:E; [contradiction|].
  assert (Hc : In c (labels df)).
  { assert (H : In c (numeric_columns df)) by (rewrite E; now left).
    unfold numeric_columns in H. apply in_map_iff in H as (x & <- & Hx).
    apply filter_In in Hx as [Hx _]. now apply in_map. }
  destruct (getitem_label df c Hc) as [s Hs].
  simpl. unfold stats_step at 2. rewrite Hs. apply Hkeep. discriminate.
Qed.

(** X8. The report of a run.  When [summarize_csv] returns, its report
    has the overview and the data quality sections; with a numeric column
    in the dataset it has the numerical analysis section and the
    visualization section; with two numeric columns or more it has the
    correlation section; and it names every chart file the run wrote, by
    its file name. *)
Theorem summarize_csv_report
    (read_csv : string -> ReadResult) (fs : FileSystem)
    (backend : Figure -> string -> option exn) (parse : Cell -> option Z)
    (fmt_fixed : nat -> float -> string) (str_float : float -> string)
    (str_frame : CorrMatrix -> string)
    (file_path output_dir : string) (w w' : World) (df : DataFrame)
    (report : string) :
  load_csv read_csv fs file_path = Ok df ->
  summarize_csv read_csv fs backend parse fmt_fixed str_float str_frame
    file_path output_dir w = (Ok report, w') ->
  occurs_in "DATA OVERVIEW" report /\
  occurs_in "DATA QUALITY" report /\
  (numeric_columns df <> [] ->
   occurs_in "NUMERICAL ANALYSIS" report /\
   occurs_in "VISUALIZATIONS CREATED" report /\
   occurs_in "distributions.png" report) /\
  (2 <= List.length (numeric_columns df) ->
   occurs_in "CORRELATIONS" report /\
   occurs_in "correlation_heatmap.png" report) /\
  (forall name, In (output_dir ++ "/" ++ name)%string (map fst w') ->
     ~ In (output_dir ++ "/" ++ name)%string (map fst w) ->
     occurs_in name report).
Proof.
  intros Hload Hrun. rewrite summarize_csv_run, Hload in Hrun.
  destruct (render_all_outcome backend (attempted_charts parse df output_dir) w)
    as (done & rest & Hjobs & Hw & Hok).
  destruct (render_all backend (attempted_charts parse df output_dir) w)
    as [[paths|e] w1] eqn:E; [|discriminate Hrun].
  injection Hrun as <- <-. simpl in Hw, Hok.
  destruct (Hok paths eq_refl) as [-> ->]. rewrite app_nil_r in Hjobs. subst done.
  rewrite attempted_charts_plan.
  destruct (chart_plan_shape df) as (_ & Hincl & _).
  set (text := format_summary_report _ _ _ _ _ _ _ _).
  assert (Hline : forall sub line,
             In line ["📊 DATA OVERVIEW"; (newline ++ "🔍 DATA QUALITY:")%string] \/
             In line (quality_lines fmt_fixed (analyze_data_quality df)) \/
             In line (stats_lines str_float (compute_statistics df)) \/
             In line (corr_lines str_frame (analyze_correlations df)) \/
             In line (chart_lines (map (in_dir output_dir) (chart_plan df))) ->
             occurs_in sub line -> occurs_in sub text).
  { intros sub line. apply report_line_occurs. }
  assert (Hchart : forall name, In name (chart_plan df) ->
             occurs_in "VISUALIZATIONS CREATED" text /\ occurs_in name text).
  { intros name Hname. rewrite (chart_lines_plan output_dir _ Hincl) in Hline.
    destruct (chart_plan df) as [|n plan] eqn:Ep; [contradiction|]. split.
    - apply (Hline _ (newline ++ "📊 VISUALIZATIONS CREATED:")%string).
      + do 4 right. now left.
      + now exists (newline ++ "📊 ")%string, ":".
    - apply (Hline _ ("  ✓ " ++ name)%string).
      + do 4 right. right. apply in_map_iff. now exists name.
      + apply (occurs_in_after _ _ "  ✓ "), occurs_in_refl. }
  split; [|split; [|split; [|split]]].
  - apply (Hline _ "📊 DATA OVERVIEW"); [left; now left|].
    now exists "📊 ", EmptyString.
  - apply (Hline _ (newline ++ "🔍 DATA QUALITY:")%string); [left; right; now left|].
    now exists (newline ++ "🔍 ")%string, ":".
  - intros Hnum.
    assert (Hplan : In "distributions.png" (chart_plan df)).
    { unfold chart_plan. rewrite !in_app_iff. do 2 right. left.
      destruct (numeric_columns df); [contradiction|now left]. }
    split; [|exact (Hchart _ Hplan)].
    apply compute_statistics_some in Hnum.
    apply (Hline _ (newline ++ "📈 NUMERICAL ANALYSIS:")%string).
    + do 2 right. left. unfold stats_lines.
      destruct (compute_statistics df); [contradiction|now left].
    + now exists (newline ++ "📈 ")%string, ":".
  - intros Hnum.
    assert (Hplan : In "correlation_heatmap.png" (chart_plan df)).
    { unfold chart_plan. rewrite !in_app_iff. left.
      apply Nat.leb_le in Hnum. rewrite Hnum. now left. }
    split; [|exact (proj2 (Hchart _ Hplan))].
    apply (Hline _ (newline ++ "🔗 CORRELATIONS:")%string).
    + do 3 right. left. unfold analyze_correlations.
      apply Nat.ltb_ge in Hnum. rewrite Hnum. now left.
    + now exists (newline ++ "🔗 ")%string, ":".
  - intros name Hin Hnew. apply Hchart.
    rewrite Hw, map_app, written_paths, attempted_charts_plan in Hin.
    apply in_app_or in Hin as [Hin|Hin]; [|contradiction].
    apply in_rev in Hin. now apply in_dir_plan in Hin.
Qed.

Lemma summarize_csv_report_witness :
  exists report w',
    summarize_csv sales_reader sales_fs always_renders sample_parse
      (fun _ _ => EmptyString) (fun _ => EmptyString) (fun _ => EmptyString)
      "sales.csv" "out" [] = (Ok report, w') /\
    occurs_in "NUMERICAL ANALYSIS" report /\
    occurs_in "CORRELATIONS" report /\
    occurs_in "time_series_analysis.png" report.
Proof.
  pose (run := summarize_csv sales_reader sales_fs always_renders sample_parse
                 (fun _ _ => EmptyString) (fun _ => EmptyString)
                 (fun _ => EmptyString) "sales.csv" "out" []).
  assert (Hrun : run = (Ok (match fst run with
                            | Ok text => text
                            | Raise _ => EmptyString
                            end), snd run))
    by (vm_compute; reflexivity).
  destruct (summarize_csv_report sales_reader sales_fs always_renders
              sample_parse (fun _ _ => EmptyString) (fun _ => EmptyString)
              (fun _ => EmptyString) "sales.csv" "out" [] (snd run) sales_frame
              _ eq_refl Hrun)
    as (_ & _ & Hnum & Hcorr & Hfiles).
  eexists. exists (snd run). split; [exact Hrun|].
  split; [apply Hnum; discriminate|].
  split; [apply Hcorr; simpl; lia|].
  apply Hfiles; [vm_compute; auto|intros []].
Defined.

(** X9. The report does not depend on where the charts go.  Two runs of
    [summarize_csv] on the same file that both return, with whatever
    output directories, backends and date parsers, return the same
    report: a chart is listed by its file name, and neither the directory
    nor the dates that could be read decide which charts there are. *)
Theorem report_ignores_output_dir
    (read_csv : string -> ReadResult) (fs : FileSystem)
    (backend1 backend2 : Figure -> string -> option exn)
    (parse1 parse2 : Cell -> option Z)
    (fmt_fixed : nat -> float -> string) (str_float : float -> string)
    (str_frame : CorrMatrix -> string)
    (file_path dir1 dir2 : string) (w1 w2 w1' w2' : World)
    (report1 report2 : string) :
  summarize_csv read_csv fs backend1 parse1 fmt_fixed str_float str_frame
    file_path dir1 w1 = (Ok report1, w1') ->
  summarize_csv read_csv fs backend2 parse2 fmt_fixed str_float str_frame
    file_path dir2 w2 = (Ok report2, w2') ->
  report1 = report2.
Proof.
  rewrite !summarize_csv_run.
  destruct (load_csv read_csv fs file_path) as [df|e]; [|discriminate].
  destruct (render_all_outcome backend1 (attempted_charts parse1 df dir1) w1)
    as (done1 & rest1 & _ & _ & Hok1).
  destruct (render_all_outcome backend2 (attempted_charts parse2 df dir2) w2)
    as (done2 & rest2 & _ & _ & Hok2).
  destruct (render_all backend1 _ w1) as [[charts1|e1] x1]; [|discriminate].
  destruct (render_all backend2 _ w2) as [[charts2|e2] x2]; [|discriminate].
  intros [= <- _] [= <- _].
  destruct (Hok1 charts1 eq_refl) as [_ ->].
  destruct (Hok2 charts2 eq_refl) as [_ ->].
  rewrite !attempted_charts_plan.
  destruct (chart_plan_shape df) as (_ & Hincl & _).
  unfold format_summary_report.
  now rewrite !(chart_lines_plan _ _ Hincl).
Qed.

Lemma report_ignores_output_dir_witness :
  exists report w1 w2,
    summarize_csv sales_reader sales_fs always_renders sample_parse
      (fun _ _ => EmptyString) (fun _ => EmptyString) (fun _ => EmptyString)
      "sales.csv" "out" [] = (Ok report, w1) /\
    summarize_csv sales_reader sales_fs always_renders (fun _ => None)
      (fun _ _ => EmptyString) (fun _ => EmptyString) (fun _ => EmptyString)
      "sales.csv" "charts/today" [] = (Ok report, w2).
Proof.
  pose (run1 := summarize_csv sales_reader sales_fs always_renders sample_parse
                  (fun _ _ => EmptyString) (fun _ => EmptyString)
                  (fun _ => EmptyString) "sales.csv" "out" []).
  pose (run2 := summarize_csv sales_reader sales_fs always_renders (fun _ => None)
                  (fun _ _ => EmptyString) (fun _ => EmptyString)
                  (fun _ => EmptyString) "sales.csv" "charts/today" []).
  assert (H1 : run1 = (Ok (match fst run1 with
                           | Ok text => text
                           | Raise _ => EmptyString
                           end), snd run1))
    by (vm_compute; reflexivity).
  assert (H2 : run2 = (Ok (match fst run2 with
                           | Ok text => text
                           | Raise _ => EmptyString
                           end), snd run2))
    by (vm_compute; reflexivity).
  eexists. exists (snd run1), (snd run2). split; [exact H1|].
  rewrite (report_ignores_output_dir sales_reader sales_fs
             always_renders always_renders sample_parse (fun _ => None)
             (fun _ _ => EmptyString) (fun _ => EmptyString)
             (fun _ => EmptyString) "sales.csv" "out" "charts/today"
             [] [] (snd run1) (snd run2) _ _ H1 H2).
  exact H2.
Defined.


(** ** Binary64: counts and order

    A count below [2 ** 53] is a binary64 value as it is, and the binary64
    values other than NaN are totally ordered. *)

Lemma bounded_intro (m : positive) (e : Z) :
  Z.max (Zpos (digits2_pos m) + e - 53) (-1074) = e -> (e <= 971)%Z ->
  bounded prec emax m e = true.
Proof.
  intros H1 H2. unfold bounded, canonical_mantissa, fexp.
  change emin with (-1074)%Z. change prec with 53%Z. change emax with 1024%Z.
  apply andb_true_iff. split; [apply Z.eqb_eq|apply Z.leb_le]; lia.
Qed.

Lemma digits2_iter (k m : positive) :
  digits2_pos (Pos.iter xO m k) = (digits2_pos m + k)%positive.
Proof.
  induction k as [|k IH] using Pos.peano_ind.
  - simpl. lia.
  - rewrite Pos.iter_succ. simpl. rewrite IH. lia.
Qed.

Lemma digits2_lower (m : positive) :
  (2 ^ (Zpos (digits2_pos m) - 1) <= Zpos m)%Z.
Proof.
  induction m as [m IH|m IH|]; simpl digits2_pos.
  - rewrite Pos2Z.inj_succ.
    replace (Z.succ (Z.pos (digits2_pos m)) - 1)%Z
      with (Z.succ (Z.pos (digits2_pos m) - 1))%Z by lia.
    rewrite Z.pow_succ_r by lia. lia.
  - rewrite Pos2Z.inj_succ.
    replace (Z.succ (Z.pos (digits2_pos m)) - 1)%Z
      with (Z.succ (Z.pos (digits2_pos m) - 1))%Z by lia.
    rewrite Z.pow_succ_r by lia. lia.
  - simpl. lia.
Qed.

Lemma digits2_small (m : positive) :
  (Zpos m < 2 ^ 53)%Z -> (Zpos (digits2_pos m) <= 53)%Z.
Proof.
  intros H. pose proof (digits2_lower m) as Hl.
  destruct (Z.le_gt_cases (Zpos (digits2_pos m)) 53) as [Hle|Hgt]; [exact Hle|].
  exfalso.
  assert (2 ^ 53 <= 2 ^ (Zpos (digits2_pos m) - 1))%Z
    by (apply Z.pow_le_mono_r; lia).
  lia.
Qed.

(** An integer below [2 ** 53] is a binary64 value as it is. *)
Lemma binary_round_integer (m : positive) :
  (Zpos m < 2 ^ 53)%Z ->
  exists m' e', binary_round prec emax false m 0 = S754_finite false m' e'.
Proof.
  intros H. pose proof (digits2_small m H) as Hd.
  unfold binary_round, shl_align, fexp.
  change emin with (-1074)%Z. change prec with 53%Z.
  set (d := Zpos (digits2_pos m)) in *.
  replace (Z.max (d + 0 - 53) (-1074) - 0)%Z with (d - 53)%Z by lia.
  destruct (d - 53)%Z as [|p|p] eqn:E; [| lia |].
  - exists m, 0%Z. apply round_aux_canonical, bounded_intro; fold d; lia.
  - exists (Pos.iter xO m p), (Z.max (d + 0 - 53) (-1074)).
    apply round_aux_canonical, bounded_intro.
    + rewrite digits2_iter, Pos2Z.inj_add. fold d. lia.
    + lia.
Qed.

Lemma float_of_nat_shape (n : nat) :
  0 < n -> (Z.of_nat n < 2 ^ 53)%Z ->
  exists m e, Prim2SF (float_of_nat n) = S754_finite false m e.
Proof.
  intros Hpos Hlt. unfold float_of_nat.
  rewrite of_uint63_spec, Uint63.of_Z_spec.
  rewrite Z.mod_small
    by (split; [lia|]; change Uint63Axioms.wB with (2 ^ 63)%Z;
        assert (2 ^ 53 < 2 ^ 63)%Z by (apply Z.pow_lt_mono_r; lia); lia).
  destruct (Z.of_nat n) as [|p|p] eqn:E; [lia| |lia].
  simpl. now apply binary_round_integer.
Qed.

Lemma zero_div_positive (x : float) (m : positive) (e : Z) :
  Prim2SF x = S754_finite false m e -> (0 / x = 0)%float.
Proof.
  intros Hx. apply Prim2SF_inj. rewrite FloatAxioms.div_spec, Hx. reflexivity.
Qed.

(** *** The order of binary64 *)

Lemma SFcompare_refl (x : spec_float) :
  x <> S754_nan -> SFcompare x x = Some Eq.
Proof.
  destruct x as [[]|[]| |[] m e]; intros H; try reflexivity; try congruence;
    simpl; rewrite Z.compare_refl, Pos.compare_cont_refl; reflexivity.
Qed.

Lemma SFcompare_antisym (x y : spec_float) :
  SFcompare y x = option_map CompOpp (SFcompare x y).
Proof.
  destruct x as [[]|[]| |[] m1 e1], y as [[]|[]| |[] m2 e2]; try reflexivity;
    simpl; rewrite (Z.compare_antisym e1 e2);
    destruct (e1 ?= e2)%Z; simpl; try reflexivity;
    rewrite (Pos.compare_cont_antisym m1 m2 Eq); simpl;
    now rewrite ?CompOpp_involutive.
Qed.

Lemma SFleb_total (x y : spec_float) :
  x <> S754_nan -> y <> S754_nan -> SFltb y x = false -> SFleb x y = true.
Proof.
  intros Hx Hy. unfold SFltb, SFleb. rewrite (SFcompare_antisym x y).
  destruct (SFcompare x y) as [[]|] eqn:E; simpl; try reflexivity; try discriminate.
  destruct x as [[]|[]| |[] m1 e1], y as [[]|[]| |[] m2 e2];
    try discriminate E; congruence.
Qed.

Lemma SFleb_trans (x y z : spec_float) :
  SFleb x y = true -> SFleb y z = true -> SFleb x z = true.
Proof.
  unfold SFleb.
  destruct x as [[]|[]| |[] m1 e1], y as [[]|[]| |[] m2 e2],
           z as [[]|[]| |[] m3 e3];
    simpl; try discriminate; try reflexivity;
    change (Pos.compare_cont Eq) with Pos.compare;
    destruct (Z.compare_spec e1 e2), (Z.compare_spec e2 e3),
             (Z.compare_spec e1 e3); simpl;
    try discriminate; try reflexivity; try lia; subst;
    destruct (Pos.compare_spec m1 m2), (Pos.compare_spec m2 m3),
             (Pos.compare_spec m1 m3); simpl;
    try discriminate; try reflexivity; try lia.
Qed.

Lemma not_nan_spec (x : float) :
  PrimFloat.is_nan x = false <-> Prim2SF x <> S754_nan.
Proof.
  rewrite is_nan_spec. destruct (Prim2SF x); split; congruence.
Qed.

Lemma leb_refl (x : float) :
  PrimFloat.is_nan x = false -> (x <=? x)%float = true.
Proof.
  intros Hx. apply not_nan_spec in Hx. rewrite leb_spec. unfold SFleb.
  now rewrite SFcompare_refl.
Qed.

Lemma leb_total (x y : float) :
  PrimFloat.is_nan x = false -> PrimFloat.is_nan y = false ->
  (y <? x)%float = false -> (x <=? y)%float = true.
Proof.
  rewrite !not_nan_spec, ltb_spec, leb_spec. apply SFleb_total.
Qed.

Lemma ltb_leb (x y : float) :
  (x <? y)%float = true -> (x <=? y)%float = true.
Proof.
  rewrite ltb_spec, leb_spec. unfold SFltb, SFleb.
  now destruct (SFcompare _ _) as [[]|].
Qed.

Lemma leb_trans (x y z : float) :
  (x <=? y)%float = true -> (y <=? z)%float = true -> (x <=? z)%float = true.
Proof. rewrite !leb_spec. apply SFleb_trans. Qed.

(** ** The statistics table, as a whole *)

Lemma assoc_missing {A} (k : string) (l : list (string * A)) :
  ~ In k (keys l) -> assoc k l = None.
Proof.
  unfold keys. induction l as [|[k' a] l IH]; simpl; [reflexivity|].
  intros H. destruct (String.eqb k k') eqn:E.
  - apply String.eqb_eq in E. subst k'. exfalso. apply H. now left.
  - apply IH. intros Hin. apply H. now right.
Qed.

(** X10. The table of [compute_statistics].  Its keys are the numeric
    columns of the dataset, each once and in column order; the entry of a
    numeric column holds the seven statistics of [describe()] on that
    column, each rounded to 2 decimals; and a column that is not numeric
    (text, booleans, dates) has no entry. *)
Theorem statistics_table (df : DataFrame) :
  unique_labels df ->
  keys (compute_statistics df) = numeric_columns df /\
  NoDup (keys (compute_statistics df)) /\
  (forall col st,
     In (col, st) (compute_statistics df) <->
     exists s, getitem df col = Some s /\ is_number s = true /\
               st = stats_of (describe s)) /\
  (forall col s, getitem df col = Some s -> is_number s = false ->
                 assoc col (compute_statistics df) = None).
Proof.
  intros Hnd. rewrite (compute_statistics_columns df Hnd).
  assert (Hkeys : keys (map (fun c => (fst c, stats_of (describe (snd c))))
                            (numeric_part df))
                  = numeric_columns df).
  { unfold keys. now rewrite map_map. }
  split; [exact Hkeys|]. split; [|split].
  - rewrite Hkeys. now apply numeric_part_labels.
  - intros col st. rewrite in_map_iff. split.
    + intros ([k s] & [= <- <-] & Hin).
      apply filter_In in Hin as [Hin Hnum]. exists s.
      split; [exact (getitem_column df (k, s) Hnd Hin)|]. now split.
    + intros (s & Hget & Hnum & ->). exists (col, s).
      split; [reflexivity|]. apply filter_In.
      split; [now apply getitem_In|exact Hnum].
  - intros col s Hget Hnum. apply assoc_missing. rewrite Hkeys.
    intros Hin. destruct (numeric_columns_In df col Hnd Hin) as (s' & Hs' & Hn').
    rewrite Hget in Hs'. injection Hs' as <-. congruence.
Qed.

Lemma statistics_table_witness :
  unique_labels measurements_frame /\
  keys (compute_statistics measurements_frame) = ["reading"; "offset"] /\
  In ("reading",
      {| s_mean := 1.82; s_std := 0.95; s_min := 0.7;
         s_25 := 1.4; s_50 := 1.7; s_75 := 1.9; s_max := 3.9 |}%float)
     (compute_statistics measurements_frame) /\
  In ("offset",
      {| s_mean := -1152921504606846976; s_std := 3260954456333195776;
         s_min := -9223372036854775808;
         s_25 := 0.75; s_50 := 2.5; s_75 := 4.25; s_max := 6 |}%float)
     (compute_statistics measurements_frame) /\
  assoc "tag" (compute_statistics measurements_frame) = None.
Proof.
  assert (H : unique_labels measurements_frame) by distinct_labels.
  destruct (statistics_table measurements_frame H) as (Hkeys & _ & Hin & Hnone).
  split; [exact H|]. split; [exact Hkeys|]. split; [|split].
  - apply Hin.
    exists (Float64 [1.7; 1.5; 1.7; 0.7; 3.9; 1.1; 2.2; 1.8]%float).
    split; [reflexivity|]. split; [reflexivity|]. vm_compute. reflexivity.
  - apply Hin.
    exists (Int64 [-9223372036854775808; 0; 1; 2; 3; 4; 5; 6]%Z).
    split; [reflexivity|]. split; [reflexivity|]. vm_compute. reflexivity.
  - exact (Hnone "tag" _ eq_refl eq_refl).
Defined.

(** The least and the greatest of a list of values: one of them, below
    (above) the first and all the others. *)
Lemma fold_fmin_least (vs : list float) (v : float) :
  Forall (fun x => PrimFloat.is_nan x = false) (v :: vs) ->
  In (fold_left fmin vs v) (v :: vs) /\
  forall x, In x (v :: vs) -> (fold_left fmin vs v <=? x)%float = true.
Proof.
  revert v. induction vs as [|b vs IH]; intros v Hall.
  - simpl. split; [now left|]. intros x [<-|[]].
    apply leb_refl. now inversion Hall.
  - inversion Hall as [|? ? Hv Hrest]; subst.
    inversion Hrest as [|? ? Hb Hvs]; subst.
    assert (Hm : PrimFloat.is_nan (fmin v b) = false)
      by (unfold fmin; now destruct (b <? v)%float).
    assert (Hmv : (fmin v b <=? v)%float = true /\ (fmin v b <=? b)%float = true).
    { unfold fmin. destruct (b <? v)%float eqn:E.
      - split; [now apply ltb_leb|now apply leb_refl].
      - split; [now apply leb_refl|now apply leb_total]. }
    destruct (IH (fmin v b) (Forall_cons _ Hm Hvs)) as [Hin Hle].
    change (fold_left fmin (b :: vs) v) with (fold_left fmin vs (fmin v b)).
    pose proof (Hle (fmin v b) (or_introl eq_refl)) as Hr.
    split.
    + destruct Hin as [E|Hin]; [|right; now right].
      rewrite <- E. unfold fmin. destruct (b <? v)%float; [right|]; now left.
    + intros x [<-|[<-|Hx]].
      * exact (leb_trans _ _ _ Hr (proj1 Hmv)).
      * exact (leb_trans _ _ _ Hr (proj2 Hmv)).
      * apply Hle. now right.
Qed.

Lemma fold_fmax_greatest (vs : list float) (v : float) :
  Forall (fun x => PrimFloat.is_nan x = false) (v :: vs) ->
  In (fold_left fmax vs v) (v :: vs) /\
  forall x, In x (v :: vs) -> (x <=? fold_left fmax vs v)%float = true.
Proof.
  revert v. induction vs as [|b vs IH]; intros v Hall.
  - simpl. split; [now left|]. intros x [<-|[]].
    apply leb_refl. now inversion Hall.
  - inversion Hall as [|? ? Hv Hrest]; subst.
    inversion Hrest as [|? ? Hb Hvs]; subst.
    assert (Hm : PrimFloat.is_nan (fmax v b) = false)
      by (unfold fmax; now destruct (v <? b)%float).
    assert (Hmv : (v <=? fmax v b)%float = true /\ (b <=? fmax v b)%float = true).
    { unfold fmax. destruct (v <? b)%float eqn:E.
      - split; [now apply ltb_leb|now apply leb_refl].
      - split; [now apply leb_refl|now apply leb_total]. }
    destruct (IH (fmax v b) (Forall_cons _ Hm Hvs)) as [Hin Hle].
    change (fold_left fmax (b :: vs) v) with (fold_left fmax vs (fmax v b)).
    pose proof (Hle (fmax v b) (or_introl eq_refl)) as Hr.
    split.
    + destruct Hin as [E|Hin]; [|right; now right].
      rewrite <- E. unfold fmax. destruct (v <? b)%float; [right|]; now left.
    + intros x [<-|[<-|Hx]].
      * exact (leb_trans _ _ _ (proj1 Hmv) Hr).
      * exact (leb_trans _ _ _ (proj2 Hmv) Hr).
      * apply Hle. now right.
Qed.

(** X11. The extremes of the table.  For a numeric column with a non-null
    cell, the [min] of its entry is the least of its non-null cells and
    the [max] the greatest, each rounded to 2 decimals: the value that is
    rounded is a cell of the column, no non-null cell is below the one
    behind [min] and none is above the one behind [max]. *)
Theorem statistics_extremes (df : DataFrame) (col : string) (s : Series) :
  unique_labels df ->
  getitem df col = Some s ->
  is_number s = true ->
  valid_values s <> [] ->
  exists st lo hi,
    assoc col (compute_statistics df) = Some st /\
    In lo (valid_values s) /\ In hi (valid_values s) /\
    (forall v, In v (valid_values s) ->
       (lo <=? v)%float = true /\ (v <=? hi)%float = true) /\
    s_min st = NumPy.round lo 2 /\
    s_max st = NumPy.round hi 2.
Proof.
  intros Hnd Hget Hnum Hne.
  pose proof (valid_values_defined s) as Hdef.
  destruct (valid_values s) as [|v vs] eqn:E; [contradiction|].
  destruct (fold_fmin_least vs v Hdef) as [Hlo Hleast].
  destruct (fold_fmax_greatest vs v Hdef) as [Hhi Hgreatest].
  exists (stats_of (describe s)), (fold_left fmin vs v), (fold_left fmax vs v).
  split; [exact (compute_statistics_entry df col s Hnd Hget Hnum)|].
  split; [exact Hlo|]. split; [exact Hhi|]. split.
  - intros x Hx. split; [now apply Hleast|now apply Hgreatest].
  - unfold describe. rewrite E. split; reflexivity.
Qed.

Lemma statistics_extremes_witness :
  unique_labels measurements_frame /\
  exists st,
    assoc "offset" (compute_statistics measurements_frame) = Some st /\
    s_min st = (-9223372036854775808)%float /\ s_max st = 6%float.
Proof.
  assert (H : unique_labels measurements_frame) by distinct_labels.
  split; [exact H|].
  destruct (statistics_extremes measurements_frame "offset"
              (Int64 [-9223372036854775808; 0; 1; 2; 3; 4; 5; 6]%Z)
              H eq_refl eq_refl)
    as (st & lo & hi & Hst & _ & _ & _ & Hmin & Hmax); [discriminate|].
  exists st. split; [exact Hst|].
  vm_compute in Hst. injection Hst as <-. split; reflexivity.
Defined.

(** ** The quality report, continued *)

Lemma null_count_le (s : Series) : null_count s <= series_len s.
Proof.
  unfold null_count, count_true.
  assert (H : List.length (isnull s) = series_len s)
    by (destruct s; simpl; apply length_map).
  rewrite <- H. apply filter_length_le.
Qed.

Lemma list_sum_zero (l : list nat) :
  list_sum l = 0 <-> Forall (fun n => n = 0) l.
Proof.
  induction l as [|n l IH]; simpl.
  - split; [constructor|reflexivity].
  - split.
    + intros H. constructor; [lia|apply IH; lia].
    + intros H. inversion H; subst. simpl. now apply IH.
Qed.

Lemma missing_entries_none (df : DataFrame) (cs : list (string * Series)) :
  flat_map (missing_entry df) cs = [] <->
  Forall (fun n => n = 0) (map (fun c => null_count (snd c)) cs).
Proof.
  induction cs as [|c cs IH]; simpl; [split; [constructor|reflexivity]|].
  unfold missing_entry at 1.
  destruct (0 <? null_count (snd c))%nat eqn:E.
  - apply Nat.ltb_lt in E. split; [discriminate|].
    intros H. inversion H; subst. lia.
  - apply Nat.ltb_ge in E. simpl. rewrite IH. split.
    + intros H. constructor; [lia|exact H].
    + intros H. now inversion H.
Qed.

Lemma total_missing_bound (n : nat) (cs : list (string * Series)) :
  Forall (fun c => series_len (snd c) = n) cs ->
  list_sum (map (fun c => null_count (snd c)) cs) <= n * List.length cs.
Proof.
  induction 1 as [|c cs Hc _ IH]; simpl; [lia|].
  pose proof (null_count_le (snd c)). lia.
Qed.

(** X13. The bounds of the quality report.  In the report of a dataset
    whose columns are as long as its index, [total_missing] is at most the
    number of cells, and the count stored for a column is at least 1 and
    at most the number of rows.  The report says [is_complete] exactly
    when [missing_by_column] is empty, which is exactly when no column has
    a null cell; and a dataset without rows is complete, with a missing
    percentage of [0.0]. *)
Theorem quality_report_bounds (df : DataFrame) :
  unique_labels df ->
  aligned df ->
  let q := analyze_data_quality df in
  total_missing q <= nrows df * ncols df /\
  (forall col info, In (col, info) (missing_by_column q) ->
     1 <= count info <= nrows df) /\
  (is_complete q = true <-> missing_by_column q = []) /\
  (is_complete q = true <->
   forall col s, In (col, s) (columns df) -> null_count s = 0) /\
  (nrows df = 0 ->
   is_complete q = true /\ missing_percentage q = 0%float).
Proof.
  intros Hnd Hal q. subst q. rewrite (missing_by_column_columns df Hnd).
  assert (Hc : is_complete (analyze_data_quality df) = true <->
               Forall (fun n => n = 0)
                      (map (fun c => null_count (snd c)) (columns df))).
  { unfold analyze_data_quality. simpl. rewrite Nat.eqb_eq.
    apply list_sum_zero. }
  split; [|split; [|split; [|split]]].
  - apply total_missing_bound, Hal.
  - intros col info Hin.
    apply In_missing_entries in Hin as (s & Hs & Hpos & ->). simpl.
    unfold aligned in Hal. rewrite Forall_forall in Hal.
    specialize (Hal _ Hs). simpl in Hal. rewrite <- Hal.
    split; [lia|apply null_count_le].
  - rewrite Hc. symmetry. apply missing_entries_none.
  - rewrite Hc, Forall_forall. split.
    + intros H col s Hin. apply H. apply in_map_iff. now exists (col, s).
    + intros H n Hn. apply in_map_iff in Hn as ([col s] & <- & Hin).
      exact (H col s Hin).
  - intros Hz. split.
    + apply Hc. apply Forall_forall. intros n Hn.
      apply in_map_iff in Hn as (c & <- & Hin).
      unfold aligned in Hal. rewrite Forall_forall in Hal.
      specialize (Hal _ Hin). pose proof (null_count_le (snd c)). lia.
    + unfold analyze_data_quality. simpl. now rewrite Hz.
Qed.

Lemma quality_report_bounds_witness :
  unique_labels customer_frame /\ aligned customer_frame /\
  total_missing (analyze_data_quality customer_frame) <= 4 * 3 /\
  is_complete (analyze_data_quality customer_frame) = false.
Proof.
  assert (H : unique_labels customer_frame) by distinct_labels.
  assert (Ha : aligned customer_frame) by (repeat constructor).
  split; [exact H|]. split; [exact Ha|].
  split; [exact (proj1 (quality_report_bounds customer_frame H Ha))|].
  reflexivity.
Defined.

Lemma div_same_count (n : nat) :
  0 < n -> (Z.of_nat n < 2 ^ 53)%Z ->
  (float_of_nat n / float_of_nat n = 1)%float.
Proof.
  intros Hpos Hlt. destruct (float_of_nat_shape n Hpos Hlt) as (m & e & Hx).
  apply Prim2SF_inj. rewrite FloatAxioms.div_spec, Hx.
  unfold SF64div. rewrite SFdiv_self. reflexivity.
Qed.

Lemma div_zero_count (n : nat) :
  0 < n -> (Z.of_nat n < 2 ^ 53)%Z ->
  (float_of_nat 0 / float_of_nat n = 0)%float.
Proof.
  intros Hpos Hlt. destruct (float_of_nat_shape n Hpos Hlt) as (m & e & Hx).
  exact (zero_div_positive _ m e Hx).
Qed.

(** X14. Two percentages that are exact.  For a dataset of fewer than
    [2 ** 53] cells whose columns are as long as its index: when no cell
    is missing, [missing_percentage] is exactly [0.0]; and a column whose
    every cell is missing is listed with a percentage of exactly
    [100.0]. *)
Theorem quality_exact_percentages (df : DataFrame) :
  unique_labels df ->
  aligned df ->
  (Z.of_nat (nrows df * ncols df) < 2 ^ 53)%Z ->
  let q := analyze_data_quality df in
  (is_complete q = true -> missing_percentage q = 0%float) /\
  (forall col s,
     getitem df col = Some s -> 0 < nrows df -> null_count s = series_len s ->
     assoc col (missing_by_column q)
     = Some {| count := nrows df; percentage := 100%float |}).
Proof.
  intros Hnd Hal Hsmall q. subst q. split.
  - unfold analyze_data_quality. simpl. intros Hc. apply Nat.eqb_eq in Hc.
    rewrite Hc. destruct (0 <? nrows df * ncols df)%nat eqn:E; [|reflexivity].
    apply Nat.ltb_lt in E. rewrite (div_zero_count _ E Hsmall). reflexivity.
  - intros col s Hget Hrows Hnull.
    assert (Hin : In (col, s) (columns df)) by now apply getitem_In.
    assert (Hlen : series_len s = nrows df).
    { unfold aligned in Hal. rewrite Forall_forall in Hal. exact (Hal _ Hin). }
    rewrite (missing_by_column_columns df Hnd).
    apply assoc_NoDup.
    + fold (keys (flat_map (missing_entry df) (columns df))).
      rewrite keys_missing_entries. now apply distinct_keys_filter.
    + apply In_missing_entries. exists s. split; [exact Hin|].
      split; [lia|]. unfold missing_info. rewrite Hnull, Hlen. f_equal.
      assert (Hn : (Z.of_nat (nrows df) < 2 ^ 53)%Z).
      { assert (1 <= ncols df).
        { unfold ncols. destruct (columns df); [contradiction|simpl; lia]. }
        nia. }
      rewrite (div_same_count _ Hrows Hn). reflexivity.
Qed.

Lemma quality_exact_percentages_witness :
  unique_labels all_missing_frame /\ aligned all_missing_frame /\
  assoc "col_b" (missing_by_column (analyze_data_quality all_missing_frame))
  = Some {| count := 3; percentage := 100%float |}.
Proof.
  assert (H : unique_labels all_missing_frame) by distinct_labels.
  assert (Ha : aligned all_missing_frame) by (repeat constructor).
  split; [exact H|]. split; [exact Ha|].
  refine (proj2 (quality_exact_percentages all_missing_frame H Ha _)
            "col_b" (Object [None; None; None]) eq_refl _ eq_refl).
  - reflexivity.
  - simpl. lia.
Defined.

(** ** The heat map *)

Lemma heatmap_planned (df : DataFrame) :
  In "correlation_heatmap.png" (chart_plan df) ->
  analyze_correlations df <> None.
Proof.
  unfold chart_plan, analyze_correlations. rewrite !in_app_iff.
  destruct (List.length (numeric_columns df)) as [|[|n]]; simpl;
    try discriminate.
  - destruct (date_columns df) as [|d ds]; [|destruct (existsb _ _)];
      destruct (numeric_columns df); destruct (categorical_columns df);
      simpl; intuition discriminate.
  - destruct (date_columns df) as [|d ds]; [|destruct (existsb _ _)];
      destruct (numeric_columns df); destruct (categorical_columns df);
      simpl; intuition discriminate.
Qed.

(** X15. The heat map branch.  Without a matrix the visualization stage
    never lists [correlation_heatmap.png].  With a matrix it draws one
    figure with one subplot, the heat map of that very matrix under the
    title "Correlation Heatmap", and saves it first: when the backend
    raises on it, the exception leaves the stage with nothing written
    and no other chart attempted; and when the stage returns, the heat map
    is the first path of its list and the first file it wrote. *)
Theorem heatmap_branch
    (backend : Figure -> string -> option exn) (parse : Cell -> option Z)
    (df : DataFrame) (output_dir : string) (w : World) :
  let path := (output_dir ++ "/correlation_heatmap.png")%string in
  let run := visualize backend parse df (analyze_correlations df) output_dir w in
  (analyze_correlations df = None ->
   forall charts w', run = (Ok charts, w') -> ~ In path charts) /\
  (forall m, analyze_correlations df = Some m ->
     let fig := heatmap_figure m in
     fig_axes fig = [ {| plot := Heatmap m; title := "Correlation Heatmap";
                         xlabel := ""; ylabel := ""; visible := true |} ] /\
     (forall e, backend fig path = Some e -> run = (Raise e, w)) /\
     (forall charts w', run = (Ok charts, w') ->
        backend fig path = None /\
        hd_error charts = Some path /\
        exists later, w' = later ++ (path, fig) :: w)).
Proof.
  intros path run. subst run. split.
  - intros Hnone charts w' Hrun Hin.
    apply visualize_returns in Hrun. subst charts.
    apply (in_dir_plan output_dir "correlation_heatmap.png") in Hin.
    now apply heatmap_planned in Hin.
  - intros m Hm fig. split; [reflexivity|].
    rewrite visualize_render_all. unfold attempted_charts. rewrite Hm.
    cbn [heatmap_job app]. fold path. fold fig.
    set (rest := time_series_job parse df output_dir
                 ++ distribution_job df output_dir
                 ++ categorical_job df output_dir).
    split.
    + intros e He.
      exact (render_all_failed backend [] rest (fig, path) e w
               (Forall_nil _) He).
    + intros charts w' Hrun.
      destruct (render_all_outcome backend ((fig, path) :: rest) w)
        as (done & left_over & Hjobs & Hw & Hok).
      rewrite Hrun in Hw, Hok. simpl in Hw.
      destruct (Hok charts eq_refl) as [-> ->].
      rewrite app_nil_r in Hjobs. subst done.
      split; [|split; [reflexivity|]].
      * destruct (backend fig path) as [e|] eqn:He; [|reflexivity].
        assert (Hf : render_all backend ((fig, path) :: rest) w = (Raise e, w))
          by exact (render_all_failed backend [] rest (fig, path) e w
                      (Forall_nil _) He).
        rewrite Hf in Hrun. discriminate Hrun.
      * exists (written rest). rewrite Hw. unfold written. simpl.
        now rewrite <- app_assoc.
Qed.

(** ** Counts with thousands separators *)

Lemma strip_rev_onto (s acc : string) :
  strip_commas (str_rev_onto s acc)
  = str_rev_onto (strip_commas s) (strip_commas acc).
Proof.
  revert acc. induction s as [|c s IH]; intros acc; simpl; [reflexivity|].
  rewrite IH. simpl. now destruct (Ascii.eqb c ",").
Qed.

Lemma strip_group3 (r : string) (k : nat) :
  comma_free r -> strip_commas (group3 r k) = r.
Proof.
  revert k. induction r as [|c r IH]; intros k; simpl; [reflexivity|].
  intros [Hc Hr]. apply Ascii.eqb_neq in Hc.
  destruct k; simpl; rewrite Hc, IH by exact Hr; reflexivity.
Qed.

Lemma comma_free_rev_onto (s acc : string) :
  comma_free s -> comma_free acc -> comma_free (str_rev_onto s acc).
Proof.
  revert acc. induction s as [|c s IH]; intros acc; simpl; [auto|].
  intros [Hc Hs] Hacc. apply IH; [exact Hs|]. now split.
Qed.

Lemma append_empty (s : string) : (s ++ EmptyString)%string = s.
Proof. induction s as [|c s IH]; simpl; [reflexivity|]. now rewrite IH. Qed.

Lemma rev_onto_twice (s a b : string) :
  str_rev_onto (str_rev_onto s a) b = str_rev_onto a (s ++ b)%string.
Proof.
  revert a b. induction s as [|c s IH]; intros a b; simpl; [reflexivity|].
  now rewrite IH.
Qed.

Lemma digits_comma_free (u : Decimal.uint) :
  comma_free (DecimalString.NilEmpty.string_of_uint u).
Proof. induction u; simpl; repeat split; try discriminate; assumption. Qed.

Lemma str_nat_comma_free (n : nat) : comma_free (str_nat n).
Proof.
  unfold str_nat, DecimalString.NilZero.string_of_uint.
  destruct (Nat.to_uint n) eqn:E; try apply (digits_comma_free (Nat.to_uint n)) ;
  try (rewrite <- E; apply digits_comma_free).
  simpl. split; [discriminate|exact I].
Qed.

Lemma strip_fmt_commas (n : nat) : strip_commas (fmt_commas n) = str_nat n.
Proof.
  unfold fmt_commas. rewrite strip_rev_onto. simpl strip_commas at 2.
  rewrite strip_group3
    by (apply comma_free_rev_onto; [apply str_nat_comma_free|exact I]).
  rewrite rev_onto_twice. simpl. apply append_empty.
Qed.

Lemma rev_onto_length (s acc : string) :
  String.length (str_rev_onto s acc) = String.length s + String.length acc.
Proof.
  revert acc. induction s as [|c s IH]; intros acc; simpl; [reflexivity|].
  rewrite IH. simpl. lia.
Qed.

Lemma rev_onto_get (s acc : string) (i : nat) :
  String.get i (str_rev_onto s acc)
  = if (i <? String.length s)%nat
    then String.get (String.length s - 1 - i) s
    else String.get (i - String.length s) acc.
Proof.
  revert acc i. induction s as [|c s IH]; intros acc i; simpl str_rev_onto.
  - simpl. now rewrite Nat.sub_0_r.
  - rewrite IH. cbn [String.length].
    destruct (i <? String.length s)%nat eqn:E1.
    + apply Nat.ltb_lt in E1.
      assert (E2 : (i <? S (String.length s))%nat = true) by (apply Nat.ltb_lt; lia).
      rewrite E2.
      replace (S (String.length s) - 1 - i) with (S (String.length s - 1 - i)) by lia.
      reflexivity.
    + apply Nat.ltb_ge in E1.
      destruct (Nat.eq_dec i (String.length s)) as [->|Hne].
      * rewrite Nat.sub_diag.
        assert (E2 : (String.length s <? S (String.length s))%nat = true)
          by (apply Nat.ltb_lt; lia).
        rewrite E2.
        replace (S (String.length s) - 1 - String.length s) with 0 by lia.
        reflexivity.
      * assert (E2 : (i <? S (String.length s))%nat = false)
          by (apply Nat.ltb_ge; lia).
        rewrite E2.
        replace (i - String.length s) with (S (i - S (String.length s))) by lia.
        reflexivity.
Qed.

(** In the grouped digits, read from the right, a comma stands exactly
    where [k] digits, or [k] and a multiple of four characters, came
    before, and never at the end. *)
Lemma group3_commas (r : string) (k i : nat) :
  comma_free r -> k <= 3 ->
  (String.get i (group3 r k) = Some ","%char <->
   S i < String.length (group3 r k) /\ i mod 4 = k).
Proof.
  revert k i. induction r as [|c r IH]; intros k i Hr Hk.
  - simpl. split; [discriminate|]. simpl. lia.
  - destruct Hr as [Hc Hr]. destruct k as [|k].
    + cbn [group3 String.length].
      destruct i as [|[|j]].
      * simpl. split; [intros _; split; [lia|reflexivity]|reflexivity].
      * simpl. split; [intros [= E]; congruence|intros [_ E]; discriminate E].
      * cbn [String.get]. rewrite (IH 2 j Hr) by lia.
        replace (S (S j)) with (j + 2) at 2 by lia.
        assert (E : (j + 2) mod 4 = 0 <-> j mod 4 = 2).
        { pose proof (Nat.Div0.div_mod j 4). pose proof (Nat.mod_upper_bound j 4).
          pose proof (Nat.Div0.div_mod (j + 2) 4).
          pose proof (Nat.mod_upper_bound (j + 2) 4). lia. }
        rewrite E. lia.
    + cbn [group3 String.length].
      destruct i as [|j].
      * simpl. split; [intros [= E]; congruence|intros [_ E]; discriminate E].
      * cbn [String.get]. rewrite (IH k j Hr) by lia.
        assert (E : S j mod 4 = S k <-> j mod 4 = k).
        { pose proof (Nat.Div0.div_mod j 4). pose proof (Nat.mod_upper_bound j 4).
          pose proof (Nat.Div0.div_mod (S j) 4).
          pose proof (Nat.mod_upper_bound (S j) 4). lia. }
        rewrite E. lia.
Qed.

(** X16. The thousands separators of the report.  [f"{n:,}"], as the
    report prints its row count and its missing counts, is the digits of
    [n] with commas put in; counted from the right end, a comma stands at
    every fourth place, as long as a digit is left to stand before it. *)
Theorem fmt_commas_grouping (n : nat) :
  let s := fmt_commas n in
  strip_commas s = str_nat n /\
  forall i, i < String.length s ->
    (String.get (String.length s - 1 - i) s = Some ","%char <->
     i mod 4 = 3 /\ S i < String.length s).
Proof.
  intros s. split; [apply strip_fmt_commas|].
  intros i Hi. subst s. unfold fmt_commas in *.
  set (g := group3 (str_rev_onto (str_nat n) EmptyString) 3) in *.
  rewrite rev_onto_length in *. simpl String.length in *.
  rewrite Nat.add_0_r in *.
  rewrite rev_onto_get.
  assert (E : (String.length g - 1 - i <? String.length g)%nat = true)
    by (apply Nat.ltb_lt; lia).
  rewrite E.
  replace (String.length g - 1 - (String.length g - 1 - i)) with i by lia.
  unfold g. rewrite group3_commas; [|
    apply comma_free_rev_onto; [apply str_nat_comma_free|exact I] | lia].
  fold g. tauto.
Qed.

(** ** Rows with a missing value *)

Lemma drop_nth_map {A B} (f : A -> B) (k : nat) (l : list A) :
  drop_nth k (map f l) = map f (drop_nth k l).
Proof.
  revert k. induction l as [|a l IH]; intros k; simpl; [reflexivity|].
  destruct k; simpl; [reflexivity|]. now rewrite IH.
Qed.

Lemma drop_nth_combine {A B} (k : nat) (x : list A) (y : list B) :
  combine (drop_nth k x) (drop_nth k y) = drop_nth k (combine x y).
Proof.
  revert k y. induction x as [|a x IH]; intros k y; simpl; [reflexivity|].
  destruct y as [|b y].
  - destruct k; simpl; [now destruct x|reflexivity].
  - destruct k; simpl; [reflexivity|]. now rewrite IH.
Qed.

(** A row that is not counted leaves the accumulators as they were. *)
Lemma welford_fold_drop (k : nat) (rows : list (float * float)) (st : Welford) :
  (forall r, nth_error rows k = Some r ->
             PrimFloat.is_finite (fst r) && PrimFloat.is_finite (snd r) = false) ->
  fold_left welford_step (drop_nth k rows) st = fold_left welford_step rows st.
Proof.
  revert k st. induction rows as [|[a b] rows IH]; intros k st H; [reflexivity|].
  destruct k as [|k]; simpl.
  - specialize (H (a, b) eq_refl). simpl in H.
    unfold welford_step at 2. now rewrite H.
  - apply IH. intros r Hr. now apply H.
Qed.

Lemma to_floats_drop (k : nat) (s : Series) :
  to_floats (series_drop k s) = drop_nth k (to_floats s).
Proof. destruct s; simpl; try reflexivity. apply eq_sym, drop_nth_map. Qed.

Lemma nth_error_combine_nth (k : nat) (x y : list float) (r : float * float) :
  nth_error (combine x y) k = Some r ->
  r = (nth k x PrimFloat.nan, nth k y PrimFloat.nan).
Proof.
  revert k y. induction x as [|a x IH]; intros k y; simpl.
  - now destruct k.
  - destruct y as [|b y]; [now destruct k|].
    destruct k as [|k]; simpl; [now intros [= <-]|apply IH].
Qed.

Lemma nancorr_pair_drop (k : nat) (x y : list float) :
  PrimFloat.is_finite (nth k x PrimFloat.nan) = false \/
  PrimFloat.is_finite (nth k y PrimFloat.nan) = false ->
  nancorr_pair (drop_nth k x) (drop_nth k y) = nancorr_pair x y.
Proof.
  intros H. unfold nancorr_pair, welford.
  rewrite drop_nth_combine, welford_fold_drop; [reflexivity|].
  intros r Hr. apply nth_error_combine_nth in Hr. subst r. simpl.
  apply andb_false_iff. exact H.
Qed.

Lemma numeric_part_drop (k : nat) (df : DataFrame) :
  numeric_part (drop_row k df)
  = map (fun c => (fst c, series_drop k (snd c))) (numeric_part df).
Proof.
  unfold numeric_part, drop_row. simpl.
  induction (columns df) as [|[l s] cs IH]; simpl; [reflexivity|].
  assert (E : is_number (series_drop k s) = is_number s) by now destruct s.
  rewrite E. destruct (is_number s); simpl; now rewrite IH.
Qed.

Lemma drop_row_labels (k : nat) (df : DataFrame) :
  labels (drop_row k df) = labels df.
Proof. unfold labels, drop_row. simpl. now rewrite map_map. Qed.

(** X17. Rows with a missing value are left out pair by pair.  When the
    cell of a row is null, or not finite, in one of two numeric columns,
    the coefficient of the two columns in the matrix of
    [analyze_correlations] is the one of the dataset without that row:
    the row does not count for this pair, whatever it holds in the other
    column. *)
Theorem correlation_pairwise_deletion
    (df : DataFrame) (k : nat) (m : CorrMatrix) (i j : nat) :
  unique_labels df ->
  analyze_correlations df = Some m ->
  i < List.length (corr_index m) -> j < List.length (corr_index m) ->
  unusable k (snd (nth i (numeric_part df) ("", Int64 []))) \/
  unusable k (snd (nth j (numeric_part df) ("", Int64 []))) ->
  exists m',
    analyze_correlations (drop_row k df) = Some m' /\
    corr_index m' = corr_index m /\
    corr_at m' i j = corr_at m i j.
Proof.
  intros Hnd Hm Hi Hj Hcell.
  assert (Hnd' : unique_labels (drop_row k df))
    by (unfold unique_labels; now rewrite drop_row_labels).
  assert (Hlen : List.length (numeric_columns (drop_row k df))
                 = List.length (numeric_columns df)).
  { unfold numeric_columns. fold (numeric_part (drop_row k df)).
    fold (numeric_part df). now rewrite numeric_part_drop, !length_map. }
  unfold analyze_correlations in *. rewrite Hlen.
  destruct (List.length (numeric_columns df) <? 2)%nat; [discriminate Hm|].
  injection Hm as <-. eexists. split; [reflexivity|].
  rewrite (getitems_numeric df Hnd) in *.
  rewrite (getitems_numeric (drop_row k df) Hnd').
  unfold corr at 1 in Hi. unfold corr at 1 in Hj. simpl in Hi, Hj.
  unfold labels in Hi, Hj. simpl in Hi, Hj. rewrite length_map in Hi, Hj.
  split.
  - unfold corr, labels. simpl. rewrite numeric_part_drop, map_map. reflexivity.
  - rewrite !corr_at_entry
      by (unfold ncols; simpl; rewrite ?numeric_part_drop, ?length_map; assumption).
    unfold corr_entry. simpl. rewrite numeric_part_drop, map_map. simpl.
    set (d := ("", Int64 []) : string * Series) in *.
    assert (E : forall p,
               nth p (map (fun c => to_floats (series_drop k (snd c)))
                          (numeric_part df)) []
               = drop_nth k (to_floats (snd (nth p (numeric_part df) d)))).
    { intros p.
      change (@nil float) with (to_floats (series_drop k (snd d))).
      rewrite (map_nth (fun c => to_floats (series_drop k (snd c)))).
      apply to_floats_drop. }
    rewrite !E, !nth_numeric_floats. fold d. apply nancorr_pair_drop.
    unfold unusable in Hcell.
    destruct (Nat.max_spec i j) as [[H1 ->]|[H1 ->]];
      destruct (Nat.min_spec i j) as [[H2 ->]|[H2 ->]]; try lia; tauto.
Qed.

Lemma correlation_pairwise_deletion_witness :
  exists m m',
    analyze_correlations gap_frame = Some m /\
    analyze_correlations (drop_row 1 gap_frame) = Some m' /\
    corr_at m' 0 1 = corr_at m 0 1 /\
    PrimFloat.is_nan (corr_at m 0 1) = false.
Proof.
  assert (H : unique_labels gap_frame) by distinct_labels.
  destruct (correlation_pairwise_deletion gap_frame 1 _ 0 1 H eq_refl)
    as (m' & Hm' & _ & Hcell).
  - simpl. lia.
  - simpl. lia.
  - left. reflexivity.
  - eexists. exists m'. split; [reflexivity|]. split; [exact Hm'|].
    split; [exact Hcell|reflexivity].
Defined.

(** ** The tests of the repository, replayed on the model *)

(** [test_analyze_data_quality_with_all_missing_column]. *)
Example quality_of_all_missing_frame :
  let q := analyze_data_quality all_missing_frame in
  total_missing q = 3 /\ is_complete q = false /\
  assoc "col_b" (missing_by_column q)
  = Some {| count := 3; percentage := 100 |}.
Proof. repeat split. Qed.

(** [test_analyze_correlations_with_single_numeric]. *)
Example correlations_of_one_numeric_column :
  analyze_correlations
    {| nrows := 5; columns := [("col_a", Int64 [1; 2; 3; 4; 5]%Z)] |}
  = None.
Proof. reflexivity. Qed.

(** [test_compute_statistics_with_no_numeric_columns]. *)
Example statistics_without_numeric_columns :
  compute_statistics
    {| nrows := 2;
       columns := [("category", Object [Some "a"; Some "b"]);
                   ("label", Object [Some "x"; None])] |}
  = [].
Proof. reflexivity. Qed.

(** The coefficient of a column with a multiple of itself, and with its
    mirror image. *)
Example pearson_of_a_line :
  nancorr_pair [1; 2; 3]%float [2; 4; 6]%float = 1%float /\
  nancorr_pair [1; 2; 3]%float [3; 2; 1]%float = (-1)%float.
Proof. split; reflexivity. Qed.

(** [round] as the statistics table uses it. *)
Example round_to_two_decimals :
  NumPy.round 3.14159 2 = 3.14%float /\
  NumPy.round 0.125 2 = 0.12%float /\
  NumPy.round nan 2 = nan /\
  NumPy.round 0 2 = 0%float.
Proof. repeat split. Qed.


(** Values whose squares leave the range of binary64: the variance is not
    zero, the sum of squared deviations is infinite, and the diagonal cell
    is NaN. *)
Example diagonal_of_huge_values :
  nancorr_pair [0; 1e200]%float [0; 1e200]%float = nan.
Proof. reflexivity. Qed.
